(** * India Post tracking bot: the notification loop and its collaborators

    A shallow embedding of [user_bot.py] (the Telegram poller) and of the
    store-facing part of [app.py] (the admin panel), with the properties the
    specification states about them.

    Conventions of the embedding.
    - The texts the bot and the admin panel handle are Rocq [string]s:
      sequences of code points below 256. The validator and the formatter of
      tracking numbers are also given on a Python [str] in full, a sequence
      of code points of any size (module [Unicode]): there the class [\d] of
      the validator's pattern is the set of decimal digits of the
      interpreter's Unicode database, of which [0-9] are the only ones below
      256. The two versions agree on the texts of the first kind.
    - [time.time()] readings and stored timestamps are integers ([Z], in
      seconds), so [int(time.time())] is the reading itself.
    - The outside world (clock, Telegram, SQLite faults, the platform's
      [datetime.fromtimestamp]) is an [Env] of oracles; the program threads a
      [World] holding the rate limiter, the [tracking] table, the locals of
      [run], the position in each oracle and the trace of effects performed
      so far.
    - Python exceptions are the [Raised] outcome of the monad [M]. *)

From stdpp Require Import gmap strings list fin_maps pretty.
From Stdlib Require Import ZArith Lia Ascii Sorted Permutation.

Local Open Scope string_scope.
Local Open Scope list_scope.
Local Open Scope Z_scope.

(** ** Strings *)

Definition code (c : ascii) : N := N_of_ascii c.

Definition in_range (lo hi : N) (c : ascii) : bool :=
  ((lo <=? code c) && (code c <=? hi))%N.

(** The character classes [[A-Z]] and [\d] of the validator's pattern, on
    code points below 256: of these, the decimal digits of Unicode are
    [0-9] alone. *)
Definition upper_AZ : ascii -> bool := in_range 65 90.
Definition digit : ascii -> bool := in_range 48 57.

(** [s.replace(" ", "")] *)
Fixpoint remove_spaces (s : string) : string :=
  match s with
  | EmptyString => EmptyString
  | String c s' =>
      if Ascii.eqb c " " then remove_spaces s' else String c (remove_spaces s')
  end.

(** [cls{n}] at the head of [s]: the rest of the string after [n] characters
    of class [cls], if [s] starts with that many. *)
Fixpoint take_class (cls : ascii -> bool) (n : nat) (s : string) : option string :=
  match n with
  | O => Some s
  | S n' =>
      match s with
      | EmptyString => None
      | String c s' => if cls c then take_class cls n' s' else None
      end
  end.

(** [$] without [re.MULTILINE]: the end of the string, or just before a
    newline that is its last character. *)
Definition at_dollar (s : string) : bool :=
  match s with
  | EmptyString => true
  | String c EmptyString => Ascii.eqb c "010"
  | _ => false
  end.

(** [re.match(r'^[A-Z]{2}\d{9}[A-Z]{2}$', s)] as a truth value. *)
Definition re_match_format (s : string) : bool :=
  match take_class upper_AZ 2 s with
  | None => false
  | Some s1 =>
      match take_class digit 9 s1 with
      | None => false
      | Some s2 =>
          match take_class upper_AZ 2 s2 with
          | None => false
          | Some s3 => at_dollar s3
          end
      end
  end.

(** [s[-2:]] *)
Definition last_two (s : string) : string :=
  String.substring (String.length s - 2) 2 s.

(** The checks of [is_valid_tracking_number] after the spaces are removed. *)
Definition format_checks (tracking_number : string) : bool :=
  if negb (re_match_format tracking_number) then false
  else
    match String.get 0 tracking_number with
    | None => false
    | Some first_letter =>
        if negb (existsb (Ascii.eqb first_letter) ["E"; "R"; "A"]%char) then false
        else if negb (String.eqb (last_two tracking_number) "IN") then false
        else true
    end.

(** [is_valid_tracking_number], the same function in [user_bot.py] and
    [app.py], on a text of code points below 256. On a [str] in full it is
    [Unicode.is_valid_tracking_number] below. *)
Definition is_valid_tracking_number (tracking_number : string) : bool :=
  let tracking_number := remove_spaces tracking_number in
  format_checks tracking_number.

(** [format_tracking_number] of [user_bot.py]. *)
Definition format_tracking_number (tracking_number : string) : string :=
  remove_spaces tracking_number.

(** ** Tracking numbers on a Python [str] in full *)

Module Unicode.

(** A Python [str]: its code points. *)
Definition str : Type := list N.

(** The [str] of a text of code points below 256. *)
Definition of_string (s : string) : str :=
  List.map code (String.list_ascii_of_string s).

(** [a == b] on two [str] *)
Fixpoint eqb (a b : str) : bool :=
  match a, b with
  | [], [] => true
  | x :: a', y :: b' => (x =? y)%N && eqb a' b'
  | _, _ => false
  end.

(** The class [[A-Z]] of a [str] pattern without [re.IGNORECASE]. *)
Definition upper_AZ (c : N) : bool := ((65 <=? c) && (c <=? 90))%N.

(** [s.replace(" ", "")] *)
Fixpoint remove_spaces (s : str) : str :=
  match s with
  | [] => []
  | c :: s' => if (c =? 32)%N then remove_spaces s' else c :: remove_spaces s'
  end.

(** [cls{n}] at the head of [s]: the rest after [n] characters of class
    [cls], if [s] starts with that many. *)
Fixpoint take_class (cls : N -> bool) (n : nat) (s : str) : option str :=
  match n with
  | O => Some s
  | S n' =>
      match s with
      | [] => None
      | c :: s' => if cls c then take_class cls n' s' else None
      end
  end.

(** [$] without [re.MULTILINE]: the end of the string, or just before a
    newline that is its last character. *)
Definition at_dollar (s : str) : bool :=
  match s with
  | [] => true
  | [c] => (c =? 10)%N
  | _ => false
  end.

(** [s[-2:]] *)
Definition last_two (s : str) : str := skipn (List.length s - 2) s.

Section Pattern.

(** The characters the class [\d] matches in a [str] pattern: the decimal
    digits (category Nd) of the Unicode database the interpreter carries.
    Which code points these are depends on the version of that database, so
    the validator is given for any such set. *)
Context (decimal : N -> bool).

(** [re.match(r'^[A-Z]{2}\d{9}[A-Z]{2}$', s)] as a truth value. *)
Definition re_match_format (s : str) : bool :=
  match take_class upper_AZ 2 s with
  | None => false
  | Some s1 =>
      match take_class decimal 9 s1 with
      | None => false
      | Some s2 =>
          match take_class upper_AZ 2 s2 with
          | None => false
          | Some s3 => at_dollar s3
          end
      end
  end.

(** The checks of [is_valid_tracking_number] after the spaces are removed:
    the pattern, then the first letter among [E], [R], [A] (69, 82, 65), then
    the last two characters equal to [IN] (73, 78). After a match
    [tracking_number[0]] exists. *)
Definition format_checks (tracking_number : str) : bool :=
  if negb (re_match_format tracking_number) then false
  else
    match tracking_number with
    | [] => false
    | first_letter :: _ =>
        if negb (existsb (N.eqb first_letter) [69; 82; 65]%N) then false
        else if negb (eqb (last_two tracking_number) [73; 78]%N) then false
        else true
    end.

(** [is_valid_tracking_number], the same function in [user_bot.py] and
    [app.py]. *)
Definition is_valid_tracking_number (tracking_number : str) : bool :=
  let tracking_number := remove_spaces tracking_number in
  format_checks tracking_number.

(** The format as the specification writes it, [[ERA][A-Z]\d{9}IN], matched
    against the whole string: [E], [R] or [A] (69, 82, 65), a capital, nine
    characters of the class [\d], then [IN] (73, 78). *)
Definition matches_format (s : str) : Prop :=
  exists c1 c2 ds,
    s = c1 :: c2 :: ds ++ [73; 78]%N /\
    (c1 = 69 \/ c1 = 82 \/ c1 = 65)%N /\
    upper_AZ c2 = true /\
    List.length ds = 9%nat /\
    forallb decimal ds = true.

End Pattern.

(** [format_tracking_number] of [user_bot.py]. *)
Definition format_tracking_number (tracking_number : str) : str :=
  remove_spaces tracking_number.

(** The decimal digits of Unicode 14.0.0, the database of CPython 3.11:
    sixty-six runs of ten code points, given by their first. *)
Definition decimal_runs_14 : list N :=
  [48; 1632; 1776; 1984; 2406; 2534; 2662; 2790; 2918; 3046; 3174; 3302; 3430;
   3558; 3664; 3792; 3872; 4160; 4240; 6112; 6160; 6470; 6608; 6784; 6800; 6992;
   7088; 7232; 7248; 42528; 43216; 43264; 43472; 43504; 43600; 44016; 65296;
   66720; 68912; 69734; 69872; 69942; 70096; 70384; 70736; 70864; 71248; 71360;
   71472; 71904; 72016; 72784; 73040; 73120; 92768; 92864; 93008; 120782;
   120792; 120802; 120812; 120822; 123200; 123632; 125264; 130032]%N.

Definition decimal_14 (c : N) : bool :=
  existsb (fun first => ((first <=? c) && (c <? first + 10))%N) decimal_runs_14.

(** A number written with the Arabic-Indic digits [U+0660 .. U+0668]. *)
Definition arabic_indic_number : str :=
  [69; 85; 1632; 1633; 1634; 1635; 1636; 1637; 1638; 1639; 1640; 73; 78]%N.

End Unicode.

(** [str.isspace] on one character: the code points below 256 that Python
    classes as whitespace. *)
Definition py_isspace (c : ascii) : bool :=
  in_range 9 13 c || in_range 28 32 c || in_range 133 133 c || in_range 160 160 c.

(** [s.startswith("/")] *)
Definition starts_with_slash (s : string) : bool :=
  match s with
  | String c _ => Ascii.eqb c "/"
  | EmptyString => false
  end.

(** [s.split()]: the maximal runs of non-whitespace characters, in order.
    [word] is the run being read, most recent character first. *)
Fixpoint split_from (word : list ascii) (s : string) : list string :=
  match s with
  | EmptyString =>
      match word with
      | [] => []
      | _ => [String.string_of_list_ascii (rev word)]
      end
  | String c s' =>
      if py_isspace c then
        match word with
        | [] => split_from [] s'
        | _ => String.string_of_list_ascii (rev word) :: split_from [] s'
        end
      else split_from (c :: word) s'
  end.

Definition split (s : string) : list string := split_from [] s.

(** [s.lower()] on code points below 256: [A-Z] and the accented capitals
    [U+00C0 .. U+00DE] (without the multiplication sign) move up by 32. *)
Definition lower_char (c : ascii) : ascii :=
  if upper_AZ c || (in_range 192 222 c && negb (in_range 215 215 c))
  then ascii_of_N (code c + 32)
  else c.

Fixpoint lower (s : string) : string :=
  match s with
  | EmptyString => EmptyString
  | String c s' => String (lower_char c) (lower s')
  end.

(** ** Data model *)

(** The dataclass [TrackingInfo]; also one row of the [tracking] table, whose
    columns are these five (the bot's [created_at] column is written by
    SQLite and read by nobody). *)
Record TrackingInfo := {
  tracking_number : string;
  chat_id : string;
  status : string;
  status_details : string;
  last_updated : Z
}.

(** Module constants of [user_bot.py]. *)
Definition MAX_RETRIES : nat := 3.
Definition RETRY_DELAY : Z := 1.
Definition MAX_REQUESTS_PER_MINUTE : Z := 30.
Definition CHECK_INTERVAL : Z := 10.

(** ** Rate limiter *)

Record RateLimiter := {
  max_requests : Z;
  time_window : Z;
  requests : gmap string (list Z)
}.

(** [RateLimiter(max_requests, time_window)] *)
Definition new_RateLimiter (max_requests time_window : Z) : RateLimiter :=
  {| max_requests := max_requests; time_window := time_window; requests := ∅ |}.

(** The timestamps of [chat_id] that the list comprehension of [is_allowed]
    keeps. A key the [defaultdict] has not seen reads as the empty list. *)
Definition unexpired (current_time : Z) (chat_id : string) (rl : RateLimiter) : list Z :=
  List.filter (fun t => current_time - t <? time_window rl)
              (default [] (requests rl !! chat_id)).

(** [RateLimiter.is_allowed], given the reading of [time.time()] it takes. *)
Definition is_allowed (current_time : Z) (chat_id : string) (rl : RateLimiter)
  : bool * RateLimiter :=
  let kept := unexpired current_time chat_id rl in
  if max_requests rl <=? Z.of_nat (length kept) then
    (false,
     {| max_requests := max_requests rl; time_window := time_window rl;
        requests := <[chat_id := kept]> (requests rl) |})
  else
    (true,
     {| max_requests := max_requests rl; time_window := time_window rl;
        requests := <[chat_id := kept ++ [current_time]]> (requests rl) |}).

(** The timestamps recorded for a recipient. *)
Definition recorded (chat_id : string) (rl : RateLimiter) : list Z :=
  default [] (requests rl !! chat_id).

(** How many of the timestamps [ts] lie within the last [window] seconds
    before [now], the count the specification compares with [max_requests]. *)
Fixpoint count_within (now window : Z) (ts : list Z) : Z :=
  match ts with
  | [] => 0
  | t :: ts' => (if now - t <? window then 1 else 0) + count_within now window ts'
  end.

(** The results of successive calls of [is_allowed] for one recipient, made
    at the clock readings [times]. *)
Fixpoint allowed_calls (chat_id : string) (times : list Z) (rl : RateLimiter)
  : list bool :=
  match times with
  | [] => []
  | t :: times' =>
      let (allowed, rl') := is_allowed t chat_id rl in
      allowed :: allowed_calls chat_id times' rl'
  end.

(** ** The [tracking] table *)

(** [SELECT ... WHERE tracking_number = ?] followed by [fetchone()]. *)
Definition select_by_number (tn : string) (table : list TrackingInfo)
  : option TrackingInfo :=
  List.find (fun row => String.eqb (tracking_number row) tn) table.

(** [INSERT INTO tracking]: [tracking_number] is the PRIMARY KEY, so the
    statement fails ([None], an [sqlite3.IntegrityError]) on a number the
    table already holds. *)
Definition insert_row (row : TrackingInfo) (table : list TrackingInfo)
  : option (list TrackingInfo) :=
  match select_by_number (tracking_number row) table with
  | Some _ => None
  | None => Some (table ++ [row])
  end.

(** [WHERE chat_id = ?] *)
Definition rows_of_chat (chat : string) (table : list TrackingInfo)
  : list TrackingInfo :=
  List.filter (fun row => String.eqb (chat_id row) chat) table.

(** [ORDER BY last_updated DESC]. SQLite leaves the order of rows with equal
    [last_updated] open; here they keep their table order. *)
Fixpoint insert_desc (row : TrackingInfo) (sorted : list TrackingInfo)
  : list TrackingInfo :=
  match sorted with
  | [] => [row]
  | x :: rest =>
      if last_updated x <=? last_updated row then row :: sorted
      else x :: insert_desc row rest
  end.

Definition order_by_last_updated_desc (table : list TrackingInfo)
  : list TrackingInfo :=
  fold_right insert_desc [] table.

(** [UPDATE tracking SET status = ?, status_details = ?, last_updated = ?
    WHERE tracking_number = ?] *)
Definition update_rows (tn new_status details : string) (now : Z)
  (table : list TrackingInfo) : list TrackingInfo :=
  List.map (fun row =>
    if String.eqb (tracking_number row) tn then
      {| tracking_number := tracking_number row; chat_id := chat_id row;
         status := new_status; status_details := details; last_updated := now |}
    else row) table.

(** [STATUS_OPTIONS] of [app.py], its keys. *)
Definition STATUS_OPTIONS : list string :=
  ["Order Placed"; "Processing"; "Picked Up"; "In Transit"; "Out for Delivery";
   "Delivered"; "Failed Delivery"; "Returned"; "Custom Status"].

(** [validate_status] of [app.py]. *)
Definition validate_status (status : string) : bool :=
  existsb (String.eqb status) STATUS_OPTIONS || String.eqb status "Custom Status".

(** The store-facing part of the route [update_tracking] of [app.py]: the
    HTTP status it answers with and the table it leaves. [tn] and
    [new_status] are the fields [tracking_number] and [status] of the
    request, the empty string standing for a field that is missing or null;
    [details] is the field [status_details], taken to be a string (a request
    without it makes the code store NULL, which the rows of this model do not
    hold); [current_time] is the admin process's clock reading; [db_ok]
    tells whether the database can be opened and written: every
    [sqlite3.Error] ends in status 500 with nothing committed. *)
Definition update_tracking (db_ok : bool) (tn new_status details : string)
  (current_time : Z) (table : list TrackingInfo) : Z * list TrackingInfo :=
  if String.eqb tn "" || String.eqb new_status "" then (400, table)
  else if negb (is_valid_tracking_number tn) then (400, table)
  else if negb (validate_status new_status) then (400, table)
  else if negb db_ok then (500, table)
  else
    match select_by_number tn table with
    | None => (404, table)
    | Some _ => (200, update_rows tn new_status details current_time table)
    end.

(** The first and the last second SQLite's date functions know:
    -4713-11-24 12:00:00 and 9999-12-31 23:59:59, as Unix times. *)
Definition SQLITE_FIRST_SECOND : Z := -210866760000.
Definition SQLITE_LAST_SECOND : Z := 253402300799.

(** [unixepoch('now', '-' || days || ' days')], [None] being NULL. A
    negative [days] gives the modifier ['--N days'], which SQLite rejects,
    as it rejects 5373485 days or more; the function is NULL then, and also
    when ['now'] or the date it arrives at is outside the range of SQLite's
    dates. *)
Definition unixepoch_days_before (now days : Z) : option Z :=
  if (0 <=? days) && (days <? 5373485)
     && (SQLITE_FIRST_SECOND <? now)
     && (SQLITE_FIRST_SECOND <=? now - days * 86400)
     && (now - days * 86400 <=? SQLITE_LAST_SECOND)
  then Some (now - days * 86400)
  else None.

(** The [DELETE] of [cleanup_old_tracking]: the rows it removes are those
    whose [last_updated] is less than the value of [unixepoch]; against NULL
    the comparison holds of no row. *)
Definition delete_older_than (now days : Z) (table : list TrackingInfo)
  : list TrackingInfo :=
  match unixepoch_days_before now days with
  | Some threshold =>
      List.filter (fun row => negb (last_updated row <? threshold)) table
  | None => table
  end.

(** The integers [sqlite3] binds as a parameter: those of 64 bits. *)
Definition fits_int64 (n : Z) : bool := (- 2 ^ 63 <=? n) && (n <? 2 ^ 63).

(** ** Messages, log records and effects *)

(** [TelegramBot.status_emojis], glyphs by name, and the glyph of
    [status_emojis.get(status, ...)] for a status outside the table. *)
Definition status_emojis : list (string * string) :=
  [("Order Placed", "package"); ("Processing", "gear"); ("Picked Up", "truck");
   ("In Transit", "airplane"); ("Out for Delivery", "lorry");
   ("Delivered", "check mark"); ("Failed Delivery", "cross mark");
   ("Returned", "return arrow")].

Definition emoji_for (status : string) : string :=
  match List.find (fun entry => String.eqb (fst entry) status) status_emojis with
  | Some entry => snd entry
  | None => "clipboard"
  end.

(** The text [format_status_message] returns, by the values it embeds. *)
Record StatusBlock := {
  block_tracking_number : string;
  block_emoji : string;
  block_status : string;
  block_time : string;
  block_details : string;
  block_footer : bool
}.

(** The texts the bot sends: the five module-level templates, the two
    literals of [handle_track_command], a status update, and the listing of
    [handle_status_command] (its heading followed by the blocks). *)
Inductive Message :=
| HELP_MESSAGE
| TRACK_USAGE_MESSAGE
| INVALID_TRACKING_MESSAGE
| NO_TRACKING_MESSAGE
| UNKNOWN_COMMAND_MESSAGE
| NEW_TRACKING_STARTED (formatted_number : string)
| REGISTRATION_ERROR
| STATUS_UPDATE (block : StatusBlock)
| TRACKED_PACKAGES (blocks : list StatusBlock).

(** What the modelled code can raise: [datetime.fromtimestamp] on a
    timestamp outside the platform's range, a failed unpacking of
    [command, *args], and the [OverflowError] of [sqlite3] when it is given a
    Python [int] that does not fit SQLite's 64-bit integers. *)
Inductive exn :=
| FromTimestampError (timestamp : Z)
| UnpackError
| OverflowError.

Inductive Level := DEBUG | INFO | WARNING | ERROR.

(** The [logger] calls of [user_bot.py], by what they report. *)
Inductive LogRecord :=
| AlreadyExists (tracking_number : string)
| DatabaseErrorAdding
| DatabaseErrorFetching
| DatabaseErrorFetchingAll
| DatabaseErrorCleaningUp
| RateLimitExceeded (chat_id : string)
| MessageSent (chat_id : string)
| RetryingSend (chat_id : string)
| SendFailed (chat_id : string)
| GetUpdatesFailed
| BotStarted
| ReceivedCommand (command : string) (args : list string)
| StatusUpdateSent (tracking_number chat_id status : string)
| ErrorProcessingUpdate (tracking_number : string) (e : exn)
| CycleCompleted
| UnexpectedError (e : exn).

(** The effects of a run, in the order they happen. [Post] is one
    [requests.post] to [sendMessage] with its result, [Poll] one
    [requests.get] to [getUpdates] with the [offset] parameter it carries. *)
Inductive Event :=
| Post (chat_id : string) (message : Message) (delivered : bool)
| Poll (offset : option Z)
| Sleep (seconds : Z)
| Log (level : Level) (record : LogRecord).

(** A Telegram update as [run] reads it: the keys ["message"] and ["text"]
    may be absent. *)
Record InMessage := { chat : Z; text : option string }.
Record Update := { update_id : Z; message : option InMessage }.

(** The value of [last_status_check[key]]. *)
Record Checkpoint := { cp_status : string; cp_timestamp : Z }.

(** ** Environment and state *)

Record Env := {
  (** the n-th reading of [time.time()] *)
  clock : nat -> Z;
  (** whether the n-th [sendMessage] request goes through; [false] is a
      [requests.RequestException] *)
  delivers : nat -> bool;
  (** the ["result"] of the n-th [getUpdates] request for the given [offset]
      parameter; [None] is a [requests.RequestException] *)
  inbound : nat -> option Z -> option (list Update);
  (** whether the n-th database operation succeeds; [false] is an
      [sqlite3.Error] *)
  db_ok : nat -> bool;
  (** [datetime.fromtimestamp(ts).strftime('%Y-%m-%d %H:%M:%S')]; [None]
      where [fromtimestamp] raises *)
  strftime : Z -> option string
}.

Record World := {
  rate_limiter : RateLimiter;
  tracking : list TrackingInfo;
  (** the locals of [run] *)
  offset : option Z;
  last_check : Z;
  last_status_check : gmap string Checkpoint;
  (** positions in the oracles of [Env] *)
  clock_reads : nat;
  posts : nat;
  polls : nat;
  db_ops : nat;
  trace : list Event
}.

Definition set_rate_limiter (rl : RateLimiter) (w : World) : World :=
  {| rate_limiter := rl; tracking := tracking w; offset := offset w;
     last_check := last_check w; last_status_check := last_status_check w;
     clock_reads := clock_reads w; posts := posts w; polls := polls w;
     db_ops := db_ops w; trace := trace w |}.

Definition set_tracking (table : list TrackingInfo) (w : World) : World :=
  {| rate_limiter := rate_limiter w; tracking := table; offset := offset w;
     last_check := last_check w; last_status_check := last_status_check w;
     clock_reads := clock_reads w; posts := posts w; polls := polls w;
     db_ops := db_ops w; trace := trace w |}.

Definition set_offset (o : option Z) (w : World) : World :=
  {| rate_limiter := rate_limiter w; tracking := tracking w; offset := o;
     last_check := last_check w; last_status_check := last_status_check w;
     clock_reads := clock_reads w; posts := posts w; polls := polls w;
     db_ops := db_ops w; trace := trace w |}.

Definition set_last_check (t : Z) (w : World) : World :=
  {| rate_limiter := rate_limiter w; tracking := tracking w; offset := offset w;
     last_check := t; last_status_check := last_status_check w;
     clock_reads := clock_reads w; posts := posts w; polls := polls w;
     db_ops := db_ops w; trace := trace w |}.

Definition set_last_status_check (m : gmap string Checkpoint) (w : World) : World :=
  {| rate_limiter := rate_limiter w; tracking := tracking w; offset := offset w;
     last_check := last_check w; last_status_check := m;
     clock_reads := clock_reads w; posts := posts w; polls := polls w;
     db_ops := db_ops w; trace := trace w |}.

Definition next_clock_read (w : World) : World :=
  {| rate_limiter := rate_limiter w; tracking := tracking w; offset := offset w;
     last_check := last_check w; last_status_check := last_status_check w;
     clock_reads := S (clock_reads w); posts := posts w; polls := polls w;
     db_ops := db_ops w; trace := trace w |}.

Definition next_post (w : World) : World :=
  {| rate_limiter := rate_limiter w; tracking := tracking w; offset := offset w;
     last_check := last_check w; last_status_check := last_status_check w;
     clock_reads := clock_reads w; posts := S (posts w); polls := polls w;
     db_ops := db_ops w; trace := trace w |}.

Definition next_poll (w : World) : World :=
  {| rate_limiter := rate_limiter w; tracking := tracking w; offset := offset w;
     last_check := last_check w; last_status_check := last_status_check w;
     clock_reads := clock_reads w; posts := posts w; polls := S (polls w);
     db_ops := db_ops w; trace := trace w |}.

Definition next_db_op (w : World) : World :=
  {| rate_limiter := rate_limiter w; tracking := tracking w; offset := offset w;
     last_check := last_check w; last_status_check := last_status_check w;
     clock_reads := clock_reads w; posts := posts w; polls := polls w;
     db_ops := S (db_ops w); trace := trace w |}.

Definition emit (e : Event) (w : World) : World :=
  {| rate_limiter := rate_limiter w; tracking := tracking w; offset := offset w;
     last_check := last_check w; last_status_check := last_status_check w;
     clock_reads := clock_reads w; posts := posts w; polls := polls w;
     db_ops := db_ops w; trace := trace w ++ [e] |}.

(** ** The monad of the bot: state, and exceptions that keep the state *)

Inductive outcome (A : Type) :=
| Ok (a : A)
| Raised (e : exn).
Arguments Ok {A} a.
Arguments Raised {A} e.

Definition M (A : Type) : Type := World -> outcome A * World.

Definition ret {A} (a : A) : M A := fun w => (Ok a, w).

Definition bind {A B} (m : M A) (k : A -> M B) : M B :=
  fun w =>
    match m w with
    | (Ok a, w') => k a w'
    | (Raised e, w') => (Raised e, w')
    end.

Definition raise {A} (e : exn) : M A := fun w => (Raised e, w).

(** [try: m  except Exception as e: handler e] *)
Definition try_except {A} (m : M A) (handler : exn -> M A) : M A :=
  fun w =>
    match m w with
    | (Ok a, w') => (Ok a, w')
    | (Raised e, w') => handler e w'
    end.

Definition gets {A} (f : World -> A) : M A := fun w => (Ok (f w), w).
Definition modify (f : World -> World) : M unit := fun w => (Ok tt, f w).

Notation "x <- m ;; k" := (bind m (fun x => k))
  (at level 100, m at next level, right associativity).
Notation "m ;; k" := (bind m (fun _ => k))
  (at level 100, right associativity).

(** [for x in l: body x] *)
Fixpoint for_each {A} (body : A -> M unit) (l : list A) : M unit :=
  match l with
  | [] => ret tt
  | x :: l' => body x ;; for_each body l'
  end.

Definition log (level : Level) (record : LogRecord) : M unit :=
  modify (emit (Log level record)).

(** [time.sleep(seconds)] *)
Definition sleep (seconds : Z) : M unit := modify (emit (Sleep seconds)).

(** ** The bot *)

Section Bot.

Context (env : Env).

(** [time.time()] *)
Definition time_time : M Z :=
  fun w => (Ok (clock env (clock_reads w)), next_clock_read w).

(** [self.rate_limiter.is_allowed(chat_id)] *)
Definition rate_limiter_is_allowed (chat_id : string) : M bool :=
  current_time <- time_time ;;
  rl <- gets rate_limiter ;;
  let (allowed, rl') := is_allowed current_time chat_id rl in
  modify (set_rate_limiter rl') ;;
  ret allowed.

(** [requests.post(url, json=payload, timeout=10)] to [sendMessage] followed
    by [raise_for_status()]: whether the request went through. *)
Definition post_sendMessage (chat_id : string) (message : Message) : M bool :=
  fun w =>
    let delivered := delivers env (posts w) in
    (Ok delivered, emit (Post chat_id message delivered) (next_post w)).

(** [send_message], by the number of retries it has left, which is
    [MAX_RETRIES - retry_count]: the test [retry_count < MAX_RETRIES] is
    that this number is not zero. *)
Fixpoint send_message_left (retries_left : nat) (chat_id : string) (message : Message)
  : M bool :=
  allowed <- rate_limiter_is_allowed chat_id ;;
  if negb allowed then
    log WARNING (RateLimitExceeded chat_id) ;;
    ret false
  else
    delivered <- post_sendMessage chat_id message ;;
    if delivered then
      log INFO (MessageSent chat_id) ;;
      ret true
    else
      match retries_left with
      | S n =>
          log WARNING (RetryingSend chat_id) ;;
          sleep RETRY_DELAY ;;
          send_message_left n chat_id message
      | O =>
          log ERROR (SendFailed chat_id) ;;
          ret false
      end.

(** [TelegramBot.send_message(chat_id, message, retry_count)] *)
Definition send_message (chat_id : string) (message : Message) (retry_count : nat)
  : M bool :=
  send_message_left (MAX_RETRIES - retry_count) chat_id message.

(** [TelegramBot.get_updates(offset)] *)
Definition get_updates (offset : option Z) : M (list Update) :=
  let params :=
    match offset with
    | Some o => if o =? 0 then None else Some o
    | None => None
    end in
  fun w =>
    let w' := emit (Poll params) (next_poll w) in
    match inbound env (polls w) params with
    | Some result => (Ok result, w')
    | None => (Ok [], emit (Log ERROR GetUpdatesFailed) w')
    end.

(** One database operation under [try: with sqlite3.connect(...)] and
    [except sqlite3.Error]: [op] reads the table and chooses the result and
    the table to commit; on an [sqlite3.Error] nothing is committed and
    [on_error] is the result. *)
Definition with_connection {A} (op : list TrackingInfo -> M (A * list TrackingInfo))
  (failure : LogRecord) (on_error : A) : M A :=
  ok <- (fun w => (Ok (db_ok env (db_ops w)), next_db_op w)) ;;
  if ok : bool then
    table <- gets tracking ;;
    res <- op table ;;
    modify (set_tracking (snd res)) ;;
    ret (fst res)
  else
    log ERROR failure ;;
    ret on_error.

(** [DatabaseManager.add_tracking] *)
Definition add_tracking (tracking_info : TrackingInfo) : M bool :=
  with_connection
    (fun table =>
       match select_by_number (tracking_number tracking_info) table with
       | Some existing =>
           log INFO (AlreadyExists (tracking_number tracking_info)) ;;
           ret (false, table)
       | None =>
           match insert_row tracking_info table with
           | Some table' => ret (true, table')
           | None => log ERROR DatabaseErrorAdding ;; ret (false, table)
           end
       end)
    DatabaseErrorAdding false.

(** [DatabaseManager.get_tracking_by_chat_id]: the selected columns of the
    rows of [chat_id]. *)
Definition get_tracking_by_chat_id (chat_id : string)
  : M (list (string * string * string * Z)) :=
  with_connection
    (fun table =>
       ret (List.map
              (fun row => (tracking_number row, status row, status_details row,
                           last_updated row))
              (order_by_last_updated_desc (rows_of_chat chat_id table)),
            table))
    DatabaseErrorFetching [].

(** [DatabaseManager.get_all_tracking]: every row, as the five columns of
    [TrackingInfo]. *)
Definition get_all_tracking : M (list TrackingInfo) :=
  with_connection
    (fun table => ret (order_by_last_updated_desc table, table))
    DatabaseErrorFetchingAll [].

(** [DatabaseManager.cleanup_old_tracking(days)]: SQLite's ['now'] is a
    reading of the same clock. Binding a [days] beyond 64 bits raises
    [OverflowError], which is no [sqlite3.Error] and leaves the function. *)
Definition cleanup_old_tracking (days : Z) : M Z :=
  with_connection
    (fun table =>
       if fits_int64 days then
         now <- time_time ;;
         let table' := delete_older_than now days table in
         ret (Z.of_nat (List.length table) - Z.of_nat (List.length table'), table')
       else raise OverflowError)
    DatabaseErrorCleaningUp 0.

(** [TelegramBot.format_status_message] *)
Definition format_status_message (tracking_number status details : string)
  (last_updated : Z) (include_footer : bool) : M StatusBlock :=
  let emoji := emoji_for status in
  match strftime env last_updated with
  | None => raise (FromTimestampError last_updated)
  | Some last_updated_str =>
      ret {| block_tracking_number := format_tracking_number tracking_number;
             block_emoji := emoji;
             block_status := status;
             block_time := last_updated_str;
             block_details := details;
             block_footer := include_footer |}
  end.

(** [TelegramBot.handle_track_command] *)
Definition handle_track_command (chat_id tracking_number : string) : M unit :=
  if negb (is_valid_tracking_number tracking_number) then
    send_message chat_id INVALID_TRACKING_MESSAGE 0 ;;
    ret tt
  else
    now <- time_time ;;
    let tracking_info :=
      {| tracking_number := tracking_number;
         chat_id := chat_id;
         status := "Order Placed";
         status_details := "Your order has been placed and is being processed.";
         last_updated := now |} in
    added <- add_tracking tracking_info ;;
    if added then
      send_message chat_id
        (NEW_TRACKING_STARTED (format_tracking_number tracking_number)) 0 ;;
      ret tt
    else
      send_message chat_id REGISTRATION_ERROR 0 ;;
      ret tt.

(** The loop of [handle_status_command] over [enumerate(tracked_items)]:
    the blocks of the items, the footer on the last one only. *)
Fixpoint format_items (items : list (string * string * string * Z))
  : M (list StatusBlock) :=
  match items with
  | [] => ret []
  | (tn, st, details, updated) :: rest =>
      block <- format_status_message tn st details updated
                 (match rest with [] => true | _ => false end) ;;
      blocks <- format_items rest ;;
      ret (block :: blocks)
  end.

(** [TelegramBot.handle_status_command] *)
Definition handle_status_command (chat_id : string) : M unit :=
  tracked_items <- get_tracking_by_chat_id chat_id ;;
  match tracked_items with
  | [] =>
      send_message chat_id NO_TRACKING_MESSAGE 0 ;;
      ret tt
  | _ =>
      blocks <- format_items tracked_items ;;
      send_message chat_id (TRACKED_PACKAGES blocks) 0 ;;
      ret tt
  end.

(** [TelegramBot.handle_command] *)
Definition handle_command (chat_id command : string) (args : list string) : M unit :=
  let command := lower command in
  if String.eqb command "/help" then
    send_message chat_id HELP_MESSAGE 0 ;;
    ret tt
  else if String.eqb command "/track" then
    match args with
    | [] =>
        send_message chat_id TRACK_USAGE_MESSAGE 0 ;;
        ret tt
    | arg0 :: _ => handle_track_command chat_id arg0
    end
  else if String.eqb command "/status" then
    handle_status_command chat_id
  else
    send_message chat_id UNKNOWN_COMMAND_MESSAGE 0 ;;
    ret tt.

(** The body of [for update in updates] in [run]. *)
Definition handle_update (update : Update) : M unit :=
  match message update with
  | None => ret tt
  | Some msg =>
      match text msg with
      | None => ret tt
      | Some text =>
          let chat_id := pretty (chat msg) in
          modify (set_offset (Some (update_id update + 1))) ;;
          if starts_with_slash text then
            match split text with
            | [] => raise UnpackError
            | command :: args =>
                log INFO (ReceivedCommand command args) ;;
                handle_command chat_id command args
            end
          else
            send_message chat_id HELP_MESSAGE 0 ;;
            ret tt
      end
  end.

(** The key of [last_status_check] for a row: [f"{tracking_number}_{chat_id}"]. *)
Definition checkpoint_key (row : TrackingInfo) : string :=
  tracking_number row +:+ "_" +:+ chat_id row.

(** The checkpoint [{'status': current_status, 'timestamp': last_updated}]. *)
Definition checkpoint_of (row : TrackingInfo) : Checkpoint :=
  {| cp_status := status row; cp_timestamp := last_updated row |}.

(** The test [last_updated > last_check_data['timestamp'] and
    current_status != last_check_data['status']]. *)
Definition status_changed (row : TrackingInfo) (last_check_data : Checkpoint) : bool :=
  (cp_timestamp last_check_data <? last_updated row)
  && negb (String.eqb (status row) (cp_status last_check_data)).

(** The body of [if self.send_message(chat_id, message):], given the answer
    of [send_message]. *)
Definition record_sent (row : TrackingInfo) (sent : bool) : M unit :=
  if sent then
    checkpoints <- gets last_status_check ;;
    modify (set_last_status_check
              (<[checkpoint_key row := checkpoint_of row]> checkpoints)) ;;
    log INFO (StatusUpdateSent (tracking_number row) (chat_id row) (status row))
  else ret tt.

(** What [run] does once [status_changed] holds: format the update, send it,
    and on a successful send move the checkpoint to the row. *)
Definition notify_status_change (row : TrackingInfo) : M unit :=
  message <- format_status_message (tracking_number row) (status row)
               (status_details row) (last_updated row) false ;;
  sent <- send_message (chat_id row) (STATUS_UPDATE message) 0 ;;
  record_sent row sent.

(** The body of [for ... in tracked_items] in [run], with its [try]. *)
Definition process_record (row : TrackingInfo) : M unit :=
  try_except
    (checkpoints <- gets last_status_check ;;
     match checkpoints !! checkpoint_key row with
     | None =>
         modify (set_last_status_check
                   (<[checkpoint_key row := checkpoint_of row]> checkpoints))
     | Some last_check_data =>
         if status_changed row last_check_data then notify_status_change row
         else ret tt
     end)
    (fun e => log ERROR (ErrorProcessingUpdate (tracking_number row) e)).

(** The dictionary comprehension that cleans [last_status_check]. *)
Definition sweep (current_time : Z) (checkpoints : gmap string Checkpoint)
  : gmap string Checkpoint :=
  filter (fun entry => current_time - cp_timestamp (snd entry) < 86400) checkpoints.

(** [# Handle new messages]: the poll and the loop over its updates. *)
Definition handle_new_messages : M unit :=
  offset <- gets offset ;;
  updates <- get_updates offset ;;
  for_each handle_update updates.

(** [# Check for status updates]: the scan of the table. *)
Definition check_status_updates : M unit :=
  tracked_items <- get_all_tracking ;;
  for_each process_record tracked_items.

(** [# Clean up old entries from last_status_check], and the assignment to
    [last_check] that follows it. *)
Definition clean_up_old_entries : M unit :=
  current_time <- time_time ;;
  checkpoints <- gets last_status_check ;;
  modify (set_last_status_check (sweep current_time checkpoints)) ;;
  modify (set_last_check current_time).

(** The part of [run] guarded by [current_time - last_check >= CHECK_INTERVAL]. *)
Definition check_cycle : M unit :=
  handle_new_messages ;;
  check_status_updates ;;
  clean_up_old_entries ;;
  log DEBUG CycleCompleted.

(** The body of [while True] in [run]. *)
Definition iteration : M unit :=
  try_except
    (current_time <- time_time ;;
     last_check <- gets last_check ;;
     (if CHECK_INTERVAL <=? current_time - last_check then check_cycle else ret tt) ;;
     sleep 1)
    (fun e =>
       log ERROR (UnexpectedError e) ;;
       sleep 5).

(** The first [n] rounds of [while True]. *)
Fixpoint iterations (n : nat) : M unit :=
  match n with
  | O => ret tt
  | S n' => iteration ;; iterations n'
  end.

(** [TelegramBot.run], cut after [n] rounds of its loop (the loop itself
    never ends). *)
Definition run (n : nat) : M unit :=
  modify (set_offset None) ;;
  modify (set_last_check 0) ;;
  modify (set_last_status_check ∅) ;;
  log INFO BotStarted ;;
  iterations n.

End Bot.

(** The tables the two programs produce, starting from the empty table of
    a new database file: by [add_tracking] (the bot), by the route
    [update_tracking] (the admin panel), and by [cleanup_old_tracking]. *)
Inductive reachable_table : list TrackingInfo -> Prop :=
| reachable_empty : reachable_table []
| reachable_add env w tracking_info :
    reachable_table (tracking w) ->
    reachable_table (tracking (snd (add_tracking env tracking_info w)))
| reachable_update db_ok tn new_status details now table :
    reachable_table table ->
    reachable_table (snd (update_tracking db_ok tn new_status details now table))
| reachable_cleanup env w days :
    reachable_table (tracking w) ->
    reachable_table (tracking (snd (cleanup_old_tracking env days w))).

(** [SELECT ... WHERE tracking_number = ?] with [fetchall()]. *)
Definition rows_of_number (tn : string) (table : list TrackingInfo)
  : list TrackingInfo :=
  List.filter (fun row => String.eqb (tracking_number row) tn) table.

(** The state in which [TelegramBot()] leaves a fresh process, before [run]:
    the limiter of [__init__] and the table as it is on disk. *)
Definition initial_world (table : list TrackingInfo) : World :=
  {| rate_limiter := new_RateLimiter MAX_REQUESTS_PER_MINUTE 60;
     tracking := table;
     offset := None; last_check := 0; last_status_check := ∅;
     clock_reads := 0; posts := 0; polls := 0; db_ops := 0;
     trace := [] |}.

(** The effects one call of [send_message] leaves behind, by the retries it
    has left and its answer: refused by the rate limiter; delivered; failed
    with no retry left; or failed, then a pause of [RETRY_DELAY] and the
    effects of the next attempt. *)
Inductive send_effects (chat_id : string) (message : Message)
  : nat -> bool -> list Event -> Prop :=
| effects_refused n :
    send_effects chat_id message n false [Log WARNING (RateLimitExceeded chat_id)]
| effects_delivered n :
    send_effects chat_id message n true
      [Post chat_id message true; Log INFO (MessageSent chat_id)]
| effects_exhausted :
    send_effects chat_id message 0 false
      [Post chat_id message false; Log ERROR (SendFailed chat_id)]
| effects_retry n answer later :
    send_effects chat_id message n answer later ->
    send_effects chat_id message (S n) answer
      ([Post chat_id message false; Log WARNING (RetryingSend chat_id);
        Sleep RETRY_DELAY] ++ later).

(** What a call of [send_message] leaves as it found it: the table, the
    locals of [run], and the positions in the other oracles. *)
Definition same_bot_state (w w' : World) : Prop :=
  tracking w' = tracking w /\ offset w' = offset w /\
  last_check w' = last_check w /\ last_status_check w' = last_status_check w /\
  polls w' = polls w /\ db_ops w' = db_ops w.

(** The number of delivery attempts among some effects. *)
Definition attempts (events : list Event) : nat :=
  List.length (List.filter (fun e => match e with Post _ _ _ => true | _ => false end)
                           events).

(** The messages posted to a recipient among some effects. *)
Definition posted_to (chat : string) (events : list Event) : list Message :=
  flat_map (fun e => match e with
                     | Post c m _ => if String.eqb c chat then [m] else []
                     | _ => []
                     end) events.

(** ** Sample environments *)

(** A platform on which the timestamps of the years 1 to 9999 can be
    rendered (here by their number of seconds) and [fromtimestamp] raises on
    all others. *)
Definition sample_strftime (ts : Z) : option string :=
  if (-62135596800 <=? ts) && (ts <? 253402300800) then Some (pretty ts) else None.

(** A clock that gives the readings [l] in turn, then stays at the last. *)
Definition readings (l : list Z) : nat -> Z :=
  fun n => nth n l (List.last l 0).

(** A Telegram server that answers the first poll with [batch] and every
    later one with no update. *)
Definition one_batch (batch : list Update) : nat -> option Z -> option (list Update) :=
  fun n _ => match n with O => Some batch | S _ => Some [] end.

Definition command_from (id chat : Z) (text : string) : Update :=
  {| update_id := id; message := Some {| chat := chat; text := Some text |} |}.

(** Telegram accepts no message (an outage); the database works. *)
Definition outage_env (clock : nat -> Z) (batch : list Update) : Env :=
  {| clock := clock; delivers := fun _ => false; inbound := one_batch batch;
     db_ok := fun _ => true; strftime := sample_strftime |}.

(** Telegram accepts every message; the database works. *)
Definition healthy_env (clock : nat -> Z) (batch : list Update) : Env :=
  {| clock := clock; delivers := fun _ => true; inbound := one_batch batch;
     db_ok := fun _ => true; strftime := sample_strftime |}.

(** The effects that happened between two states of a run. *)
Definition events_since (w w' : World) : list Event :=
  skipn (List.length (trace w)) (trace w').

(** ** Sample runs *)

Definition sample_number : string := "EU430410927IN".

(** A row the admin panel has moved to [Delivered]; the checkpoint the bot
    took of it before, and a world that holds both. *)
Definition delivered_row : TrackingInfo :=
  {| tracking_number := sample_number; chat_id := "7"; status := "Delivered";
     status_details := "Your package has been successfully delivered.";
     last_updated := 86490 |}.

Definition placed_checkpoint : Checkpoint :=
  {| cp_status := "Order Placed"; cp_timestamp := 100 |}.

Definition checkpointed_world : World :=
  set_last_status_check {[ checkpoint_key delivered_row := placed_checkpoint ]}
    (initial_world [delivered_row]).



(** A quiet day: the same registration at time 100, the status set to
    [Delivered] at 150, and cycles at 200 and 300, with Telegram up. *)
Definition quiet_day : Env :=
  healthy_env (readings [100; 100; 100; 100; 200; 200; 200; 300; 300])
    [command_from 1 7 ("/track " +:+ sample_number)].

Definition admin_sets_delivered_at (now : Z) (w : World) : World :=
  set_tracking
    (snd (update_tracking true sample_number "Delivered"
            "Your package has been successfully delivered." now (tracking w)))
    w.

(** A row whose [last_updated] no platform renders, and a batch of two
    commands: [/status] from its recipient, then [/help] from another one. *)
Definition unrenderable_row : TrackingInfo :=
  {| tracking_number := sample_number; chat_id := "1"; status := "In Transit";
     status_details := "Your package is on its way to the destination.";
     last_updated := 10 ^ 18 |}.

Definition status_then_help : list Update :=
  [command_from 1 1 "/status"; command_from 2 2 "/help"].

(** ** Observations used by the further properties *)

(** The effects of a request that fails and is tried again: the request,
    the warning, the pause. *)
Definition retry_effects (chat_id : string) (message : Message) : list Event :=
  [Post chat_id message false; Log WARNING (RetryingSend chat_id); Sleep RETRY_DELAY].

(** How many of the requests numbered [first], [first + 1], ... fail before
    one goes through, among [limit] of them at most. *)
Fixpoint failures_before_delivery (delivers : nat -> bool) (first limit : nat) : nat :=
  match limit with
  | O => O
  | S limit' =>
      if delivers first then O
      else S (failures_before_delivery delivers (S first) limit')
  end.

(** What the specification asks of a send with [max_retries] retries, by the
    number of requests that fail before one goes through: every failed
    request is followed by a pause and another request until one goes through
    and the answer is [True]; after [max_retries] retries the failure of one
    more request is the end, logged as an error, and the answer is [False]. *)
Definition retried_send (chat_id : string) (message : Message)
    (max_retries failures : nat) : bool * list Event :=
  (Nat.leb failures max_retries,
   concat (repeat (retry_effects chat_id message) (Nat.min failures max_retries))
   ++ (if Nat.leb failures max_retries
       then [Post chat_id message true; Log INFO (MessageSent chat_id)]
       else [Post chat_id message false; Log ERROR (SendFailed chat_id)])).

(** How a call of [send_message] ends: with a request that goes through,
    with the failure of a request when no retry is left, or with the refusal
    of the rate limiter; and the effects of each ending. *)
Inductive Ending := Delivered | Exhausted | Refused.

Definition ending_effects (chat_id : string) (message : Message) (ending : Ending)
  : list Event :=
  match ending with
  | Delivered => [Post chat_id message true; Log INFO (MessageSent chat_id)]
  | Exhausted => [Post chat_id message false; Log ERROR (SendFailed chat_id)]
  | Refused => [Log WARNING (RateLimitExceeded chat_id)]
  end.

(** The limiter has room for a send and all its retries: the recipient's
    list, even if nothing of it has expired, stays below [max_requests]. *)
Definition has_room_for (retries : nat) (chat_id : string) (rl : RateLimiter) : Prop :=
  Z.of_nat (List.length (recorded chat_id rl)) + Z.of_nat retries < max_requests rl.

(** Telegram refuses the first [failures] requests and accepts the later
    ones; the database works. *)
Definition flaky_env (failures : nat) (clock : nat -> Z) : Env :=
  {| clock := clock; delivers := fun n => Nat.leb failures n;
     inbound := one_batch []; db_ok := fun _ => true; strftime := sample_strftime |}.

(** The timestamps of the calls that [is_allowed] lets through, among
    successive calls for one recipient at the clock readings [times], and the
    limiter those calls leave. *)
Fixpoint allowed_times (chat_id : string) (times : list Z) (rl : RateLimiter)
  : list Z :=
  match times with
  | [] => []
  | t :: times' =>
      let (allowed, rl') := is_allowed t chat_id rl in
      (if allowed then [t] else []) ++ allowed_times chat_id times' rl'
  end.

Fixpoint after_calls (chat_id : string) (times : list Z) (rl : RateLimiter)
  : RateLimiter :=
  match times with
  | [] => rl
  | t :: times' => after_calls chat_id times' (snd (is_allowed t chat_id rl))
  end.

(** Clock readings that never go back. *)
Fixpoint nondecreasing (times : list Z) : Prop :=
  match times with
  | [] => True
  | t :: times' => (forall t', In t' times' -> t <= t') /\ nondecreasing times'
  end.

(** The order of [ORDER BY last_updated DESC]. *)
Definition newer_first (a b : TrackingInfo) : Prop :=
  last_updated b <= last_updated a.

(** The columns [get_tracking_by_chat_id] selects. *)
Definition selected_columns (row : TrackingInfo) : string * string * string * Z :=
  (tracking_number row, status row, status_details row, last_updated row).

(** The number of requests that went through among some effects. *)
Definition deliveries (events : list Event) : nat :=
  List.length
    (List.filter (fun e => match e with Post _ _ true => true | _ => false end)
                 events).

(** A text without its whitespace characters. *)
Fixpoint without_whitespace (s : string) : string :=
  match s with
  | EmptyString => EmptyString
  | String c s' =>
      if py_isspace c then without_whitespace s' else String c (without_whitespace s')
  end.

Fixpoint has_whitespace (s : string) : bool :=
  match s with
  | EmptyString => false
  | String c s' => py_isspace c || has_whitespace s'
  end.

(** The locals of [run] and the table are the same in two states. *)
Definition same_locals (w w' : World) : Prop :=
  offset w' = offset w /\ last_check w' = last_check w /\
  last_status_check w' = last_status_check w.

(** A computation that never changes what [R] relates, whether it returns or
    raises. *)
Definition keeps {A} (R : World -> World -> Prop) (m : M A) : Prop :=
  forall w, R w (snd (m w)).

(** The slices [s[:n]] and [s[n:]] of Python. *)
Fixpoint py_take (n : nat) (s : string) : string :=
  match n, s with
  | S n', String c s' => String c (py_take n' s')
  | _, _ => EmptyString
  end.

Fixpoint py_drop (n : nat) (s : string) : string :=
  match n, s with
  | S n', String _ s' => py_drop n' s'
  | _, _ => s
  end.

(** [s[a:b]] for [a <= b]. *)
Definition py_slice (a b : nat) (s : string) : string :=
  py_take (b - a) (py_drop a s).

(** ** The admin panel, [app.py] *)

Module App.

Definition MAX_RETRIES : nat := 3.
Definition RETRY_DELAY : Z := 1.

(** [format_tracking_number] of [app.py] *)
Definition format_tracking_number (tracking_number : string) : string :=
  let tracking_number := remove_spaces tracking_number in
  py_take 2 tracking_number +:+ " " +:+ py_slice 2 11 tracking_number +:+ " "
    +:+ py_drop 11 tracking_number.

(** What the admin panel logs and does besides answering. *)
Inductive Effect :=
| Posted (chat_id message : string) (delivered : bool)
| Slept (seconds : Z)
| LoggedSent (chat_id : string)
| LoggedFailed (chat_id : string)
| LoggedRetrying (attempt total : nat)
| LoggedDatabaseRetry (attempt total : nat).

(** The loop [for attempt in range(retry_count)] of [send_telegram_message],
    over the attempts still to make; [delivers n] tells whether the n-th
    request of the call goes through. *)
Fixpoint send_attempts (delivers : nat -> bool) (chat_id message : string)
  (retry_count : nat) (attempts : list nat) : bool * list Effect :=
  match attempts with
  | [] => (false, [])
  | attempt :: rest =>
      if delivers attempt then
        (true, [Posted chat_id message true; LoggedSent chat_id])
      else if (attempt =? retry_count - 1)%nat then
        (false, [Posted chat_id message false; LoggedFailed chat_id])
      else
        let (answer, later) := send_attempts delivers chat_id message retry_count rest in
        (answer,
         [Posted chat_id message false; LoggedRetrying (attempt + 1) retry_count;
          Slept 1] ++ later)
  end.

(** [send_telegram_message(chat_id, message, retry_count)] *)
Definition send_telegram_message (delivers : nat -> bool) (chat_id message : string)
  (retry_count : nat) : bool * list Effect :=
  send_attempts delivers chat_id message retry_count (seq 0 retry_count).

(** How one call of a decorated function ends. *)
Inductive Outcome (A : Type) :=
| Returned (a : A)
| OperationalError
| OtherException.
Arguments Returned {A} a.
Arguments OperationalError {A}.
Arguments OtherException {A}.

(** The loop of the wrapper that [db_operation] builds; [calls n] is how the
    n-th call of the decorated function ends. [None] is the end of the loop
    without a [return], which gives Python's [None]. *)
Fixpoint db_attempts {A} (calls : nat -> Outcome A) (attempts : list nat)
  : option (Outcome A) * list Effect :=
  match attempts with
  | [] => (None, [])
  | attempt :: rest =>
      match calls attempt with
      | Returned a => (Some (Returned a), [])
      | OtherException => (Some OtherException, [])
      | OperationalError =>
          if (attempt =? MAX_RETRIES - 1)%nat then (Some OperationalError, [])
          else
            let (result, later) := db_attempts calls rest in
            (result, [LoggedDatabaseRetry (attempt + 1) MAX_RETRIES; Slept RETRY_DELAY]
                       ++ later)
      end
  end.

(** [db_operation(func)] applied to its arguments. *)
Definition db_operation {A} (calls : nat -> Outcome A)
  : option (Outcome A) * list Effect :=
  db_attempts calls (seq 0 MAX_RETRIES).

(** One entry of the list [get_tracking] answers with. *)
Record Item := {
  item_tracking_number : string;
  item_status : string;
  item_status_details : string;
  item_last_updated : string
}.

(** The class [Cache] *)
Record Cache := {
  duration : Z;
  tracking_data : list Item;
  tracking_numbers : list string;
  last_update : Z
}.

(** [Cache()] *)
Definition new_Cache : Cache :=
  {| duration := 60; tracking_data := []; tracking_numbers := []; last_update := 0 |}.

(** [Cache.is_fresh], given its reading of [time.time()] *)
Definition is_fresh (now : Z) (c : Cache) : bool :=
  now - last_update c <? duration c.

(** [Cache.update(tracking_data, tracking_numbers)], given its reading of
    [time.time()]; an argument left at [None] is [None] here. *)
Definition update (data : option (list Item)) (numbers : option (list string))
  (now : Z) (c : Cache) : Cache :=
  {| duration := duration c;
     tracking_data := match data with Some d => d | None => tracking_data c end;
     tracking_numbers := match numbers with Some n => n | None => tracking_numbers c end;
     last_update := now |}.

(** [Cache.clear] *)
Definition clear (c : Cache) : Cache :=
  {| duration := duration c; tracking_data := []; tracking_numbers := [];
     last_update := 0 |}.

(** The module-level [cache] and the table the routes work on. *)
Record State := { cache : Cache; table : list TrackingInfo }.

(** What a route answers: a list with status 200, or an error with its
    status code. *)
Inductive Response :=
| TrackingItems (data : list Item)
| TrackingNumbers (numbers : list string)
| StatusUpdated
| Error (code : Z).

(** The list comprehension of [get_tracking]: [None] when
    [datetime.fromtimestamp] raises on some row. *)
Fixpoint render_items (strftime : Z -> option string) (rows : list TrackingInfo)
  : option (list Item) :=
  match rows with
  | [] => Some []
  | row :: rest =>
      match strftime (last_updated row) with
      | None => None
      | Some time_str =>
          match render_items strftime rest with
          | None => None
          | Some items =>
              Some ({| item_tracking_number := tracking_number row;
                       item_status := status row;
                       item_status_details := status_details row;
                       item_last_updated := time_str |} :: items)
          end
      end
  end.

(** The body of the route [get_tracking]. [now] and [later] are the readings
    of [time.time()] taken by [is_fresh] and by [update]; [db_ok] tells
    whether the database can be read; every exception ends in status 500. *)
Definition get_tracking (strftime : Z -> option string) (db_ok : bool)
  (now later : Z) (s : State) : Response * State :=
  if is_fresh now (cache s) && negb (Nat.eqb (List.length (tracking_data (cache s))) 0)
  then (TrackingItems (tracking_data (cache s)), s)
  else if negb db_ok then (Error 500, s)
  else
    match render_items strftime (order_by_last_updated_desc (table s)) with
    | None => (Error 500, s)
    | Some result =>
        (TrackingItems result,
         {| cache := update (Some result) None later (cache s); table := table s |})
    end.

(** [ORDER BY tracking_number] *)
Fixpoint insert_by_number (tn : string) (sorted : list string) : list string :=
  match sorted with
  | [] => [tn]
  | x :: rest =>
      if String.leb tn x then tn :: sorted else x :: insert_by_number tn rest
  end.

Definition order_by_tracking_number (numbers : list string) : list string :=
  fold_right insert_by_number [] numbers.

(** The body of the route [get_tracking_numbers]. *)
Definition get_tracking_numbers (db_ok : bool) (now later : Z) (s : State)
  : Response * State :=
  if is_fresh now (cache s)
     && negb (Nat.eqb (List.length (tracking_numbers (cache s))) 0)
  then (TrackingNumbers (tracking_numbers (cache s)), s)
  else if negb db_ok then (Error 500, s)
  else
    let numbers := order_by_tracking_number (List.map tracking_number (table s)) in
    (TrackingNumbers numbers,
     {| cache := update None (Some numbers) later (cache s); table := table s |}).

(** The body of the route [update_tracking], cache included: the input is
    checked before the database is opened, and the cache is cleared once the
    update is committed. *)
Definition update_tracking (db_ok : bool) (tn new_status details : string)
  (current_time : Z) (s : State) : Response * State :=
  if String.eqb tn "" || String.eqb new_status "" then (Error 400, s)
  else if negb (is_valid_tracking_number tn) then (Error 400, s)
  else if negb (validate_status new_status) then (Error 400, s)
  else if negb db_ok then (Error 500, s)
  else
    match select_by_number tn (table s) with
    | None => (Error 404, s)
    | Some _ =>
        (StatusUpdated,
         {| cache := clear (cache s);
            table := update_rows tn new_status details current_time (table s) |})
    end.

(** The requests and the pauses among the effects of the admin panel. *)
Definition posts_of (effects : list Effect) : nat :=
  List.length (List.filter (fun e => match e with Posted _ _ _ => true | _ => false end)
                 effects).

Definition pauses_of (effects : list Effect) : Z :=
  fold_right (fun e total => match e with Slept s => s + total | _ => total end)
    0 effects.

(** A call of the decorated function that does not end in
    [sqlite3.OperationalError]. *)
Definition settles {A} (outcome : Outcome A) : bool :=
  match outcome with OperationalError => false | _ => true end.

(** A tracking number as the bot stores it: without a space. *)
Definition stored_without_space (row : TrackingInfo) : Prop :=
  remove_spaces (tracking_number row) = tracking_number row.

(** The entry of [get_tracking]'s answer for a row. *)
Definition shows (item : Item) (tn new_status details : string) : Prop :=
  item_tracking_number item = tn /\ item_status item = new_status /\
  item_status_details item = details.

(** The state after the bot, another process on the same database file, has
    changed the table: the cache of the admin panel is not told. *)
Definition with_table (table' : list TrackingInfo) (s : State) : State :=
  {| cache := cache s; table := table' |}.

(** The order of [ORDER BY tracking_number]. *)
Definition in_order (a b : string) : Prop := String.leb a b = true.

(** A state of the admin panel over the table that holds [delivered_row],
    with an empty cache. *)
Definition sample_state : State :=
  {| cache := new_Cache; table := [delivered_row] |}.

End App.

(** What the limiter holds for a recipient after a call at [last]: the
    timestamps of the allowed calls so far that had not expired by then. *)
Definition holds_unexpired (chat : string) (rl : RateLimiter) (history : list Z)
  (last : Z) : Prop :=
  recorded chat rl = List.filter (fun t => last - t <? time_window rl) history.


(** The locals of [run] and the table are the same in two states. *)
Definition untouched (w w' : World) : Prop :=
  same_locals w w' /\ tracking w' = tracking w.

(** Whether an update carries a text, and the cursor [run] holds after a
    batch it has gone through: one past the last update that carried one. *)
Definition has_text (update : Update) : bool :=
  match message update with
  | Some msg => match text msg with Some _ => true | None => false end
  | None => false
  end.

Fixpoint cursor_after (offset : option Z) (updates : list Update) : option Z :=
  match updates with
  | [] => offset
  | update :: rest =>
      cursor_after (if has_text update then Some (update_id update + 1) else offset) rest
  end.

(** The row [handle_track_command] registers. *)
Definition new_row (chat_id tracking_number : string) (now : Z) : TrackingInfo :=
  {| tracking_number := tracking_number;
     chat_id := chat_id;
     status := "Order Placed";
     status_details := "Your order has been placed and is being processed.";
     last_updated := now |}.

(** A computation that always returns, whatever the state: it raises
    nothing. *)
Definition returns {A} (m : M A) : Prop :=
  forall w, exists a w', m w = (Ok a, w').

(** What the dispatch of commands leaves of a state: the checkpoints, the
    time of the last check and the cursor stay; the table keeps its rows and
    gains only rows in the state [/track] registers them in. *)
Definition registered (row : TrackingInfo) : Prop :=
  status row = "Order Placed" /\ is_valid_tracking_number (tracking_number row) = true.

Definition after_commands (w w' : World) : Prop :=
  last_check w' = last_check w /\
  last_status_check w' = last_status_check w /\
  exists added, tracking w' = tracking w ++ added /\ Forall registered added.

(** The block [format_status_message] makes of the selected columns of a
    row once the time is rendered. *)
Definition block_of (item : string * string * string * Z) (time_str : string)
  (include_footer : bool) : StatusBlock :=
  let '(tn, st, details, _) := item in
  {| block_tracking_number := format_tracking_number tn;
     block_emoji := emoji_for st;
     block_status := st;
     block_time := time_str;
     block_details := details;
     block_footer := include_footer |}.

(** The blocks of a listing: one per item, in order, the footer on the last
    one only. *)
Fixpoint listing_of (strftime : Z -> option string)
  (items : list (string * string * string * Z)) (blocks : list StatusBlock) : Prop :=
  match items, blocks with
  | [], [] => True
  | item :: items', block :: blocks' =>
      (exists time_str,
         strftime (snd item) = Some time_str /\
         block = block_of item time_str (match items' with [] => true | _ => false end))
      /\ listing_of strftime items' blocks'
  | _, _ => False
  end.

(** A row of [chat] whose timestamp [datetime.fromtimestamp] refuses, and
    the exception it raises. *)
Definition unrenderable_for (strftime : Z -> option string) (chat : string)
    (w : World) (e : exn) : Prop :=
  exists row,
    In row (tracking w) /\ chat_id row = chat /\
    strftime (last_updated row) = None /\
    e = FromTimestampError (last_updated row).

(** What a command handler started in [w] may have done when it stops. *)
Definition command_frame {A} (source : exn -> Prop) (w : World)
    (res : outcome A * World) : Prop :=
  after_commands w (snd res) /\ offset (snd res) = offset w /\
  forall e, fst res = Raised e -> source e.


(** Every checkpoint was younger than a day when the checkpoints were last
    cleaned, that is at [last_check]. *)
Definition fresh_checkpoints (w : World) : Prop :=
  forall key cp,
    last_status_check w !! key = Some cp -> last_check w - cp_timestamp cp < 86400.

(** The row has a checkpoint and shows no change against it. *)
Definition settled (w : World) (row : TrackingInfo) : Prop :=
  exists cp,
    last_status_check w !! checkpoint_key row = Some cp /\
    status_changed row cp = false.

(** A world whose only row was moved to [Delivered] and whose checkpoint
    holds that status already, with an older timestamp. *)
Definition delivered_checkpoint : Checkpoint :=
  {| cp_status := "Delivered"; cp_timestamp := 100 |}.

Definition settled_world : World :=
  set_last_status_check {[ checkpoint_key delivered_row := delivered_checkpoint ]}
    (initial_world [delivered_row]).









(** * Properties *)

(** ** The tracking-number format *)

Lemma remove_spaces_app s1 s2 :
  remove_spaces (s1 +:+ s2) = remove_spaces s1 +:+ remove_spaces s2.
Proof.
  induction s1 as [|c s1 IH]; simpl; [reflexivity|].
  destruct (Ascii.eqb c " "); rewrite IH; reflexivity.
Qed.

(** Case analysis on the character tests met while the checks run on a
    string whose length is known. *)
Ltac case_test :=
  match goal with
  | |- context [upper_AZ ?c] => destruct (upper_AZ c) eqn:?
  | |- context [digit ?c] => destruct (digit c) eqn:?
  | |- context [Ascii.eqb ?a ?b] => destruct (Ascii.eqb a b) eqn:?
  end.

Ltac chars_known :=
  repeat match goal with
         | H : Ascii.eqb _ _ = true |- _ => apply Ascii.eqb_eq in H
         end;
  subst.

Ltac run_checks :=
  unfold format_checks, re_match_format, last_two;
  cbn -[upper_AZ digit Ascii.eqb];
  repeat (case_test; cbn -[upper_AZ digit Ascii.eqb]);
  try (intros; discriminate);
  try (chars_known; discriminate).

Lemma format_checks_length s : format_checks s = true -> String.length s = 13%nat.
Proof.
  do 13 (destruct s as [|? s]; [run_checks|]).
  destruct s as [|c s]; [reflexivity|].
  destruct s; run_checks.
Qed.

(** A valid text of the bot is laid out as two characters, nine more, and
    [IN]. *)
Lemma format_checks_shape s :
  format_checks s = true ->
  exists c1 c2 ds,
    s = String c1 (String c2 (ds +:+ "IN")) /\ String.length ds = 9%nat.
Proof.
  intros H. pose proof (format_checks_length s H) as L.
  do 13 (destruct s as [|? s]; [discriminate L|]).
  destruct s; [clear L | discriminate L].
  revert H. run_checks; intros _; chars_known.
  all: match goal with
       | |- exists c1 c2 ds,
              String ?a1 (String ?a2 (String ?d1 (String ?d2 (String ?d3
                (String ?d4 (String ?d5 (String ?d6 (String ?d7 (String ?d8
                  (String ?d9 _)))))))))) = _ /\ _ =>
           exists a1, a2,
             (String d1 (String d2 (String d3 (String d4 (String d5
                (String d6 (String d7 (String d8 (String d9 EmptyString)))))))))
       end.
  all: split; reflexivity.
Qed.

(** *** On a [str] in full *)

Lemma unicode_remove_spaces_app s1 s2 :
  Unicode.remove_spaces (s1 ++ s2)
  = Unicode.remove_spaces s1 ++ Unicode.remove_spaces s2.
Proof.
  induction s1 as [|c s1 IH]; simpl; [reflexivity|].
  destruct (c =? 32)%N; rewrite IH; reflexivity.
Qed.

Lemma unicode_remove_spaces_idempotent s :
  Unicode.remove_spaces (Unicode.remove_spaces s) = Unicode.remove_spaces s.
Proof.
  induction s as [|c s IH]; simpl; [reflexivity|].
  destruct (c =? 32)%N eqn:E; [exact IH|].
  simpl. rewrite E, IH. reflexivity.
Qed.

Lemma unicode_remove_spaces_no_space s : ~ In 32%N (Unicode.remove_spaces s).
Proof.
  induction s as [|c s IH]; simpl; [tauto|].
  destruct (N.eqb_spec c 32); [exact IH|].
  simpl. intros [H | H]; [congruence | exact (IH H)].
Qed.

Section Pattern.

Context (decimal : N -> bool).

Ltac unicode_test :=
  match goal with
  | |- context [Unicode.upper_AZ ?c] => destruct (Unicode.upper_AZ c) eqn:?
  | |- context [decimal ?c] => destruct (decimal c) eqn:?
  | |- context [N.eqb ?a ?b] => destruct (N.eqb_spec a b)
  end.

Ltac unicode_checks :=
  unfold Unicode.re_match_format, Unicode.last_two;
  cbn -[Unicode.upper_AZ N.eqb];
  repeat (unicode_test; cbn -[Unicode.upper_AZ N.eqb]);
  try (intros; discriminate);
  try (subst; discriminate).

Lemma unicode_format_checks_length t :
  Unicode.format_checks decimal t = true -> List.length t = 13%nat.
Proof.
  unfold Unicode.format_checks.
  do 13 (destruct t as [|? t]; [unicode_checks|]).
  destruct t as [|c t]; [reflexivity|].
  destruct t; unicode_checks.
Qed.

Lemma unicode_format_checks_spec t :
  Unicode.format_checks decimal t = true <-> Unicode.matches_format decimal t.
Proof.
  split.
  - intros H. pose proof (unicode_format_checks_length t H) as L.
    do 13 (destruct t as [|? t]; [discriminate L|]).
    destruct t; [clear L | discriminate L].
    revert H. unfold Unicode.format_checks. unicode_checks; intros _; subst.
    all: match goal with
         | |- Unicode.matches_format _
                (?c1 :: ?c2 :: ?d1 :: ?d2 :: ?d3 :: ?d4 :: ?d5 :: ?d6 :: ?d7 :: ?d8
                   :: ?d9 :: _) =>
             exists c1, c2, [d1; d2; d3; d4; d5; d6; d7; d8; d9]
         end.
    all: split; [reflexivity|].
    all: split; [auto|].
    all: split; [assumption|].
    all: split; [reflexivity|].
    all: cbn;
      repeat match goal with H : decimal _ = true |- _ => rewrite H; clear H end;
      reflexivity.
  - intros (c1 & c2 & ds & E & Hc1 & Hc2 & L & Hd).
    do 9 (destruct ds as [|? ds]; [discriminate L|]).
    destruct ds; [clear L | discriminate L].
    cbn in E. subst t. cbn in Hd.
    repeat (apply andb_prop in Hd; destruct Hd as [? Hd]).
    unfold Unicode.format_checks, Unicode.re_match_format, Unicode.last_two.
    cbn -[Unicode.upper_AZ N.eqb].
    assert (Unicode.upper_AZ c1 = true) as ->
        by (destruct Hc1 as [-> | [-> | ->]]; reflexivity).
    rewrite Hc2.
    repeat match goal with H : decimal _ = true |- _ => rewrite H; clear H end.
    destruct Hc1 as [-> | [-> | ->]]; reflexivity.
Qed.

End Pattern.
(** *** The validator of the bot's texts is the validator of a [str] *)

Lemma code_eqb a b : (code a =? code b)%N = Ascii.eqb a b.
Proof.
  destruct (Ascii.eqb_spec a b) as [-> | Hne]; [apply N.eqb_refl|].
  apply N.eqb_neq. intros H. apply Hne.
  rewrite <- (ascii_N_embedding a), <- (ascii_N_embedding b).
  unfold code in H. rewrite H. reflexivity.
Qed.

Lemma of_string_length s : List.length (Unicode.of_string s) = String.length s.
Proof.
  unfold Unicode.of_string. rewrite List.length_map.
  induction s as [|c s IH]; simpl; [reflexivity | rewrite IH; reflexivity].
Qed.

Lemma of_string_remove_spaces s :
  Unicode.remove_spaces (Unicode.of_string s) = Unicode.of_string (remove_spaces s).
Proof.
  induction s as [|c s IH]; [reflexivity|].
  change (Unicode.of_string (String c s)) with (code c :: Unicode.of_string s).
  cbn [Unicode.remove_spaces remove_spaces].
  change 32%N with (code " "). rewrite code_eqb.
  destruct (Ascii.eqb c " "); [exact IH|].
  change (Unicode.of_string (String c (remove_spaces s)))
    with (code c :: Unicode.of_string (remove_spaces s)).
  rewrite IH. reflexivity.
Qed.

Lemma of_string_take_class (cls : ascii -> bool) (cls' : N -> bool) :
  (forall c, cls' (code c) = cls c) ->
  forall n s,
    Unicode.take_class cls' n (Unicode.of_string s)
    = option_map Unicode.of_string (take_class cls n s).
Proof.
  intros Hcls. induction n as [|n IH]; intros s; [reflexivity|].
  destruct s as [|c s]; [reflexivity|].
  change (Unicode.of_string (String c s)) with (code c :: Unicode.of_string s).
  cbn [Unicode.take_class take_class]. rewrite Hcls.
  destruct (cls c); [apply IH | reflexivity].
Qed.

Lemma of_string_at_dollar s : Unicode.at_dollar (Unicode.of_string s) = at_dollar s.
Proof.
  destruct s as [|c [|d s]]; try reflexivity.
  cbn. change 10%N with (code "010"). apply code_eqb.
Qed.

Lemma of_string_substring s : forall n m,
  Unicode.of_string (String.substring n m s)
  = firstn m (skipn n (Unicode.of_string s)).
Proof.
  induction s as [|c s IH]; intros [|n] [|m]; try reflexivity.
  - change (Unicode.of_string (String c s)) with (code c :: Unicode.of_string s).
    cbn [String.substring skipn firstn].
    change (Unicode.of_string (String c (String.substring 0 m s)))
      with (code c :: Unicode.of_string (String.substring 0 m s)).
    rewrite IH. reflexivity.
  - change (Unicode.of_string (String c s)) with (code c :: Unicode.of_string s).
    cbn [String.substring skipn]. apply IH.
  - change (Unicode.of_string (String c s)) with (code c :: Unicode.of_string s).
    cbn [String.substring skipn]. apply IH.
Qed.

Lemma of_string_last_two s :
  Unicode.last_two (Unicode.of_string s) = Unicode.of_string (last_two s).
Proof.
  unfold Unicode.last_two, last_two.
  rewrite of_string_substring, of_string_length.
  symmetry. apply firstn_all2.
  rewrite List.length_skipn, of_string_length. lia.
Qed.

Lemma of_string_eqb a : forall b,
  Unicode.eqb (Unicode.of_string a) (Unicode.of_string b) = String.eqb a b.
Proof.
  induction a as [|x a IH]; intros [|y b]; try reflexivity.
  change (Unicode.of_string (String x a)) with (code x :: Unicode.of_string a).
  change (Unicode.of_string (String y b)) with (code y :: Unicode.of_string b).
  cbn [Unicode.eqb String.eqb]. rewrite code_eqb, IH.
  destruct (Ascii.eqb x y); reflexivity.
Qed.

(** On the texts of the bot, whose code points are below 256, the validator
    is the validator of a [str], whatever the Unicode database: such a
    database counts [0-9] and no other code point below 256 as decimal
    digits. *)
Lemma is_valid_tracking_number_of_string (decimal : N -> bool) s :
  (forall c : ascii, decimal (code c) = digit c) ->
  Unicode.is_valid_tracking_number decimal (Unicode.of_string s)
  = is_valid_tracking_number s.
Proof.
  intros Hdigit.
  unfold Unicode.is_valid_tracking_number, is_valid_tracking_number.
  rewrite of_string_remove_spaces. generalize (remove_spaces s). clear s. intros s.
  unfold Unicode.format_checks, format_checks.
  assert (Hmatch : Unicode.re_match_format decimal (Unicode.of_string s)
                   = re_match_format s).
  { unfold Unicode.re_match_format, re_match_format.
    rewrite (of_string_take_class upper_AZ Unicode.upper_AZ (fun c => eq_refl)).
    destruct (take_class upper_AZ 2 s) as [s1|]; [|reflexivity]. cbn [option_map].
    rewrite (of_string_take_class digit decimal Hdigit).
    destruct (take_class digit 9 s1) as [s2|]; [|reflexivity]. cbn [option_map].
    rewrite (of_string_take_class upper_AZ Unicode.upper_AZ (fun c => eq_refl)).
    destruct (take_class upper_AZ 2 s2) as [s3|]; [|reflexivity]. cbn [option_map].
    apply of_string_at_dollar. }
  rewrite Hmatch. destruct (re_match_format s); [|reflexivity]. cbn [negb].
  destruct s as [|c s]; [reflexivity|].
  rewrite of_string_last_two.
  change [73; 78]%N with (Unicode.of_string "IN"). rewrite of_string_eqb.
  change (Unicode.of_string (String c s)) with (code c :: Unicode.of_string s).
  cbn [String.get existsb].
  change 69%N with (code "E"). change 82%N with (code "R").
  change 65%N with (code "A").
  rewrite !(N.eqb_sym (code c)), !code_eqb, !(Ascii.eqb_sym _ c).
  reflexivity.
Qed.

Lemma of_string_format_tracking_number s :
  Unicode.format_tracking_number (Unicode.of_string s)
  = Unicode.of_string (format_tracking_number s).
Proof. apply of_string_remove_spaces. Qed.

(** C6 (as amended): on every [str], [is_valid_tracking_number s] is true
    exactly when [s] without its space characters matches
    [[ERA][A-Z]\d{9}IN], and false for every other string, [\d] being what
    the interpreter's Unicode database counts as a decimal digit; so validity
    does not change when a space character is inserted into, or removed
    from, any place of [s]. *)
Theorem valid_iff_format_without_spaces (decimal : N -> bool) :
  (forall s,
     Unicode.is_valid_tracking_number decimal s = true
     <-> Unicode.matches_format decimal (Unicode.remove_spaces s)) /\
  (forall s,
     Unicode.is_valid_tracking_number decimal s = false
     <-> ~ Unicode.matches_format decimal (Unicode.remove_spaces s)) /\
  (forall s1 s2,
     Unicode.is_valid_tracking_number decimal (s1 ++ 32%N :: s2)
     = Unicode.is_valid_tracking_number decimal (s1 ++ s2)).
Proof.
  split; [|split].
  - intros s. apply unicode_format_checks_spec.
  - intros s. rewrite <- (unicode_format_checks_spec decimal).
    unfold Unicode.is_valid_tracking_number.
    destruct (Unicode.format_checks decimal (Unicode.remove_spaces s));
      split; congruence.
  - intros s1 s2. unfold Unicode.is_valid_tracking_number.
    rewrite !unicode_remove_spaces_app. reflexivity.
Qed.

(** C6, counterexample: a tab is whitespace, but it is not removed before
    the check; inserting one into a valid number makes it invalid, on the
    texts of the bot and on a [str] alike. *)
Lemma validity_changes_under_tab :
  ~ (forall (c : ascii) (s1 s2 : string),
       py_isspace c = true ->
       is_valid_tracking_number (s1 +:+ String c s2)
       = is_valid_tracking_number (s1 +:+ s2)) /\
  py_isspace "009" = true /\
  Unicode.is_valid_tracking_number Unicode.decimal_14
    (Unicode.of_string "EU4304" ++ Unicode.of_string "10927IN") = true /\
  Unicode.is_valid_tracking_number Unicode.decimal_14
    (Unicode.of_string "EU4304" ++ code "009" :: Unicode.of_string "10927IN") = false.
Proof.
  split; [|repeat split].
  intros H.
  specialize (H "009"%char "EU4304" "10927IN" eq_refl).
  vm_compute in H. discriminate H.
Qed.

Example valid_speed_post : is_valid_tracking_number "EU430410927IN" = true.
Proof. reflexivity. Qed.

Example valid_with_spaces : is_valid_tracking_number "EU 430 410 927 IN" = true.
Proof. reflexivity. Qed.

Example invalid_first_letter : is_valid_tracking_number "XU430410927IN" = false.
Proof. reflexivity. Qed.

Example invalid_trailing_newline :
  is_valid_tracking_number ("EU430410927IN" +:+ String "010" "") = false.
Proof. reflexivity. Qed.

(** A number written with other decimal digits of Unicode is valid, as it
    is for the code. *)
Example valid_arabic_indic_digits :
  Unicode.is_valid_tracking_number Unicode.decimal_14 Unicode.arabic_indic_number
  = true.
Proof. reflexivity. Qed.

Example decimal_14_below_256 c : Unicode.decimal_14 (code c) = digit c.
Proof.
  destruct c as [[] [] [] [] [] [] [] []]; reflexivity.
Qed.

(** So, under the database of Unicode 14.0.0, the validator of the bot's
    texts is the validator of a [str]. *)
Example is_valid_tracking_number_is_unicode s :
  Unicode.is_valid_tracking_number Unicode.decimal_14 (Unicode.of_string s)
  = is_valid_tracking_number s.
Proof. apply is_valid_tracking_number_of_string, decimal_14_below_256. Qed.

(** A text that starts with [/] splits into at least one word, so the
    unpacking [command, *args = text.split()] of [run] does not fail. *)
Lemma split_from_word word s : word <> [] -> split_from word s <> [].
Proof.
  revert word. induction s as [|c s IH]; intros word Hword; simpl.
  - destruct word; [congruence | discriminate].
  - destruct (py_isspace c).
    + destruct word; [congruence | discriminate].
    + apply IH. discriminate.
Qed.

Lemma command_unpacks text : starts_with_slash text = true -> split text <> [].
Proof.
  destruct text as [|c text]; simpl; [discriminate|].
  intros Hc. apply Ascii.eqb_eq in Hc. subst c.
  unfold split. simpl. apply split_from_word. discriminate.
Qed.

Example split_track_command :
  split "/track  EU430410927IN " = ["/track"; "EU430410927IN"].
Proof. reflexivity. Qed.

(** ** The rate limiter *)

Lemma count_within_filter now window ts :
  Z.of_nat (List.length (List.filter (fun t => now - t <? window) ts))
  = count_within now window ts.
Proof.
  induction ts as [|t ts IH]; simpl; [reflexivity|].
  destruct (now - t <? window); simpl List.length; lia.
Qed.

Lemma unexpired_recorded now chat rl :
  unexpired now chat rl
  = List.filter (fun t => now - t <? time_window rl) (recorded chat rl).
Proof. reflexivity. Qed.

(** C5: a call is allowed exactly when fewer than [max_requests] of the
    recipient's recorded timestamps lie within the window; every call prunes
    the expired timestamps, an allowed call also appends the current one, and
    other recipients are untouched. With [max_requests = 3] and a window of
    60: three calls within the window succeed, a fourth in the same window
    fails, and a call made once the window of the first has elapsed succeeds. *)
Theorem is_allowed_sliding_window :
  (forall now chat rl,
     let res := is_allowed now chat rl in
     (fst res = true <->
        count_within now (time_window rl) (recorded chat rl) < max_requests rl) /\
     recorded chat (snd res)
       = unexpired now chat rl ++ (if fst res then [now] else []) /\
     (forall other, other <> chat -> recorded other (snd res) = recorded other rl) /\
     max_requests (snd res) = max_requests rl /\
     time_window (snd res) = time_window rl) /\
  (forall chat t1 t2 t3 t4 t5,
     t1 <= t2 -> t2 <= t3 -> t3 <= t4 -> t4 - t1 < 60 -> 60 <= t5 - t1 ->
     allowed_calls chat [t1; t2; t3; t4; t5] (new_RateLimiter 3 60)
     = [true; true; true; false; true]).
Proof.
  split.
  - intros now chat rl res. subst res. unfold is_allowed.
    rewrite unexpired_recorded, count_within_filter.
    assert (Hother : forall l other, other <> chat ->
              default [] (<[chat := l]> (requests rl) !! other)
              = default [] (requests rl !! other)).
    { intros l other Hne. rewrite lookup_insert_ne by congruence. reflexivity. }
    destruct (max_requests rl <=? _) eqn:E; cbn [fst snd];
      unfold recorded at 2 3; cbn [requests max_requests time_window];
      rewrite lookup_insert_eq; cbn [default].
    + apply Z.leb_le in E.
      split; [split; [discriminate | lia] |].
      split; [symmetry; apply app_nil_r |].
      split; [apply Hother | split; reflexivity].
    + apply Z.leb_gt in E.
      split; [split; [intros _; exact E | reflexivity] |].
      split; [reflexivity |].
      split; [apply Hother | split; reflexivity].
  - intros chat t1 t2 t3 t4 t5 H12 H23 H34 Hin Hout.
    unfold allowed_calls, is_allowed, unexpired, new_RateLimiter. simpl.
    rewrite lookup_empty. simpl.
    rewrite lookup_insert_eq. simpl.
    replace (t2 - t1 <? 60) with true by (symmetry; apply Z.ltb_lt; lia).
    simpl. rewrite lookup_insert_eq. simpl.
    replace (t3 - t1 <? 60) with true by (symmetry; apply Z.ltb_lt; lia).
    replace (t3 - t2 <? 60) with true by (symmetry; apply Z.ltb_lt; lia).
    simpl. rewrite lookup_insert_eq. simpl.
    replace (t4 - t1 <? 60) with true by (symmetry; apply Z.ltb_lt; lia).
    replace (t4 - t2 <? 60) with true by (symmetry; apply Z.ltb_lt; lia).
    replace (t4 - t3 <? 60) with true by (symmetry; apply Z.ltb_lt; lia).
    simpl. rewrite lookup_insert_eq. simpl.
    replace (t5 - t1 <? 60) with false by (symmetry; apply Z.ltb_ge; lia).
    destruct (t5 - t2 <? 60), (t5 - t3 <? 60); reflexivity.
Qed.

Lemma is_allowed_sliding_window_witness :
  allowed_calls "42" [0; 10; 20; 59; 60] (new_RateLimiter 3 60)
  = [true; true; true; false; true].
Proof.
  apply (proj2 is_allowed_sliding_window "42" 0 10 20 59 60); lia.
Defined.

(** ** The notifier *)

Section Notifier.

Context (env : Env).

Lemma same_bot_state_refl w : same_bot_state w w.
Proof. repeat split. Qed.

Lemma same_bot_state_trans w1 w2 w3 :
  same_bot_state w1 w2 -> same_bot_state w2 w3 -> same_bot_state w1 w3.
Proof.
  unfold same_bot_state. intros (?&?&?&?&?&?) (?&?&?&?&?&?).
  repeat split; congruence.
Qed.

Lemma rate_limiter_is_allowed_eq chat w :
  rate_limiter_is_allowed env chat w
  = (Ok (fst (is_allowed (clock env (clock_reads w)) chat (rate_limiter w))),
     set_rate_limiter
       (snd (is_allowed (clock env (clock_reads w)) chat (rate_limiter w)))
       (next_clock_read w)).
Proof.
  unfold rate_limiter_is_allowed, time_time, bind, gets, modify, ret. simpl.
  destruct (is_allowed _ _ _); reflexivity.
Qed.

(** One round of [send_message]: the limiter is asked, then one request is
    posted, and a failed request leads to the next round or to giving up. *)
Lemma send_message_left_step n chat msg w :
  let asked := is_allowed (clock env (clock_reads w)) chat (rate_limiter w) in
  let w1 := set_rate_limiter (snd asked) (next_clock_read w) in
  let w2 := emit (Post chat msg (delivers env (posts w))) (next_post w1) in
  send_message_left env n chat msg w =
    if fst asked then
      if delivers env (posts w) then (Ok true, emit (Log INFO (MessageSent chat)) w2)
      else
        match n with
        | S n' =>
            send_message_left env n' chat msg
              (emit (Sleep RETRY_DELAY) (emit (Log WARNING (RetryingSend chat)) w2))
        | O => (Ok false, emit (Log ERROR (SendFailed chat)) w2)
        end
    else (Ok false, emit (Log WARNING (RateLimitExceeded chat)) w1).
Proof.
  intros asked w1 w2. subst asked w1 w2.
  destruct n; simpl; unfold bind at 1; rewrite rate_limiter_is_allowed_eq;
    destruct (fst (is_allowed _ _ _)); simpl; try reflexivity;
    unfold bind, post_sendMessage; simpl;
    destruct (delivers env (posts w)); reflexivity.
Qed.

(** [send_message] satisfies the recursive definition of the source, with its
    test on [retry_count]. *)
Lemma send_message_unfold chat msg retry_count :
  send_message env chat msg retry_count =
    (allowed <- rate_limiter_is_allowed env chat ;;
     if negb allowed then
       log WARNING (RateLimitExceeded chat) ;;
       ret false
     else
       delivered <- post_sendMessage env chat msg ;;
       if delivered then
         log INFO (MessageSent chat) ;;
         ret true
       else if (retry_count <? MAX_RETRIES)%nat then
         log WARNING (RetryingSend chat) ;;
         sleep RETRY_DELAY ;;
         send_message env chat msg (retry_count + 1)
       else
         log ERROR (SendFailed chat) ;;
         ret false).
Proof.
  unfold send_message.
  destruct (Nat.ltb_spec retry_count MAX_RETRIES) as [Hlt | Hge].
  - destruct (MAX_RETRIES - retry_count)%nat as [|n] eqn:E; [lia|].
    replace (MAX_RETRIES - (retry_count + 1))%nat with n by lia.
    reflexivity.
  - replace (MAX_RETRIES - retry_count)%nat with 0%nat by lia.
    reflexivity.
Qed.

Lemma send_message_left_spec n : forall chat msg w,
  exists answer w' events,
    send_message_left env n chat msg w = (Ok answer, w') /\
    trace w' = trace w ++ events /\
    send_effects chat msg n answer events /\
    same_bot_state w w' /\
    posts w' = (posts w + attempts events)%nat /\
    (attempts events <= S n)%nat /\
    ((forall i, (i <= n)%nat -> delivers env (posts w + i) = false) -> answer = false).
Proof.
  induction n as [|n IH]; intros chat msg w;
    rewrite send_message_left_step; cbv zeta;
    destruct (fst (is_allowed _ _ _)).
  - destruct (delivers env (posts w)) eqn:D.
    + eexists _, _, _. split; [reflexivity|]. simpl.
      split; [rewrite <- app_assoc; reflexivity|].
      split; [constructor|]. split; [repeat split|].
      split; [unfold attempts; simpl; lia|].
      split; [unfold attempts; simpl; lia|].
      intros H. specialize (H 0%nat (Nat.le_refl _)).
      rewrite Nat.add_0_r in H. congruence.
    + eexists _, _, _. split; [reflexivity|]. simpl.
      split; [rewrite <- app_assoc; reflexivity|].
      split; [constructor|]. split; [repeat split|].
      split; [unfold attempts; simpl; lia|].
      split; [unfold attempts; simpl; lia|]. reflexivity.
  - eexists _, _, _. split; [reflexivity|]. simpl.
    split; [reflexivity|]. split; [constructor|]. split; [repeat split|].
    split; [unfold attempts; simpl; lia|].
    split; [unfold attempts; simpl; lia|]. reflexivity.
  - destruct (delivers env (posts w)) eqn:D.
    + eexists _, _, _. split; [reflexivity|]. simpl.
      split; [rewrite <- app_assoc; reflexivity|].
      split; [constructor|]. split; [repeat split|].
      split; [unfold attempts; simpl; lia|].
      split; [unfold attempts; simpl; lia|].
      intros H. specialize (H 0%nat (Nat.le_0_l _)).
      rewrite Nat.add_0_r in H. congruence.
    + match goal with
      | |- context [send_message_left env n chat msg ?w0] =>
          destruct (IH chat msg w0)
            as (answer & w' & later & E & Htr & Heff & Hsame & Hposts & Hatt & Hex)
      end.
      exists answer, w',
        ([Post chat msg false; Log WARNING (RetryingSend chat); Sleep RETRY_DELAY]
           ++ later).
      split; [exact E|].
      split; [rewrite Htr; simpl; rewrite <- !app_assoc; reflexivity|].
      split; [constructor; exact Heff|].
      split; [eapply same_bot_state_trans; [|exact Hsame]; repeat split|].
      split; [rewrite Hposts; simpl; unfold attempts; simpl; lia|].
      split; [revert Hatt; unfold attempts; simpl; lia|].
      intros H. apply Hex. intros i Hi. simpl.
      specialize (H (S i) ltac:(lia)).
      rewrite <- H. f_equal. lia.
  - eexists _, _, _. split; [reflexivity|]. simpl.
    split; [reflexivity|]. split; [constructor|]. split; [repeat split|].
    split; [unfold attempts; simpl; lia|].
    split; [unfold attempts; simpl; lia|]. reflexivity.
Qed.

End Notifier.

Example outage_trace :
  trace (snd (send_message (outage_env (readings [0; 1; 2; 3]) []) "7" HELP_MESSAGE 0
                (initial_world [])))
  = [Post "7" HELP_MESSAGE false; Log WARNING (RetryingSend "7"); Sleep 1;
     Post "7" HELP_MESSAGE false; Log WARNING (RetryingSend "7"); Sleep 1;
     Post "7" HELP_MESSAGE false; Log WARNING (RetryingSend "7"); Sleep 1;
     Post "7" HELP_MESSAGE false; Log ERROR (SendFailed "7")].
Proof. reflexivity. Qed.

(** ** The tracking table *)

Section Store.

Context (env : Env).

Lemma select_by_number_In tn table row :
  In row table -> tracking_number row = tn ->
  exists found, select_by_number tn table = Some found.
Proof.
  intros Hin Htn. unfold select_by_number.
  destruct (List.find _ table) as [found|] eqn:E; [eauto|].
  eapply find_none in E; [|exact Hin].
  simpl in E. rewrite Htn, String.eqb_refl in E. discriminate.
Qed.

Lemma select_by_number_None tn table :
  select_by_number tn table = None -> ~ In tn (List.map tracking_number table).
Proof.
  unfold select_by_number. intros E Hin.
  apply in_map_iff in Hin as (row & Htn & Hin).
  eapply find_none in E; [|exact Hin].
  simpl in E. rewrite Htn, String.eqb_refl in E. discriminate.
Qed.

Lemma select_by_number_None_rows tn table :
  select_by_number tn table = None -> rows_of_number tn table = [].
Proof.
  unfold select_by_number, rows_of_number.
  induction table as [|row table IH]; simpl; [reflexivity|].
  destruct (String.eqb (tracking_number row) tn); [discriminate | exact IH].
Qed.

(** [add_tracking] never raises; it either appends the new row and answers
    [True], or leaves the table as it is and answers [False]. *)
Lemma add_tracking_cases info w :
  let res := add_tracking env info w in
  (fst res = Ok true /\
   select_by_number (tracking_number info) (tracking w) = None /\
   tracking (snd res) = tracking w ++ [info])
  \/ (fst res = Ok false /\ tracking (snd res) = tracking w).
Proof.
  unfold add_tracking, with_connection, bind, gets, modify, log, ret. simpl.
  destruct (db_ok env (db_ops w)); simpl; [|right; split; reflexivity].
  unfold insert_row.
  destruct (select_by_number (tracking_number info) (tracking w)) eqn:E; simpl.
  - right. split; reflexivity.
  - left. repeat split; reflexivity.
Qed.

(** On a number the table already holds, whoever registered it,
    [add_tracking] answers [False] and changes no row. *)
Lemma add_tracking_existing info w row :
  In row (tracking w) -> tracking_number row = tracking_number info ->
  fst (add_tracking env info w) = Ok false /\
  tracking (snd (add_tracking env info w)) = tracking w.
Proof.
  intros Hin Htn.
  destruct (add_tracking_cases info w) as [(_ & Hnone & _) | H]; [|exact H].
  destruct (select_by_number_In _ _ _ Hin Htn) as [found Hfound]. congruence.
Qed.

Lemma rows_of_number_app tn t1 t2 :
  rows_of_number tn (t1 ++ t2) = rows_of_number tn t1 ++ rows_of_number tn t2.
Proof. unfold rows_of_number. apply List.filter_app. Qed.

(** C7: when a first [add_tracking] has registered a number, a second one
    for the same number answers [False] and leaves the table as it is, so the
    number has exactly one row, the one first stored; [handle_track_command]
    then sends the recipient the registration-error message. *)
Theorem second_registration_rejected info1 info2 chat w :
  tracking_number info1 = tracking_number info2 ->
  fst (add_tracking env info1 w) = Ok true ->
  let w1 := snd (add_tracking env info1 w) in
  fst (add_tracking env info2 w1) = Ok false /\
  tracking (snd (add_tracking env info2 w1)) = tracking w1 /\
  rows_of_number (tracking_number info1) (tracking (snd (add_tracking env info2 w1)))
    = [info1] /\
  (is_valid_tracking_number (tracking_number info2) = true ->
   exists w',
     tracking w' = tracking w1 /\
     handle_track_command env chat (tracking_number info2) w1
       = (send_message env chat REGISTRATION_ERROR 0 ;; ret tt) w' /\
     tracking (snd (handle_track_command env chat (tracking_number info2) w1))
       = tracking w1).
Proof.
  intros Htn Hfirst w1.
  destruct (add_tracking_cases info1 w) as [(_ & Hnone & Htable) | (Hfalse & _)];
    [|congruence].
  fold w1 in Htable.
  assert (Hin : In info1 (tracking w1)).
  { rewrite Htable. apply in_or_app. right. left. reflexivity. }
  assert (Hsecond : forall info w0, tracking w0 = tracking w1 ->
            tracking_number info = tracking_number info2 ->
            fst (add_tracking env info w0) = Ok false /\
            tracking (snd (add_tracking env info w0)) = tracking w1).
  { intros info w0 Hw0 Hinfo.
    destruct (add_tracking_existing info w0 info1) as [? ?];
      [rewrite Hw0; exact Hin | congruence | split; congruence]. }
  destruct (Hsecond info2 w1 eq_refl eq_refl) as [Hfalse Hsame].
  split; [exact Hfalse|]. split; [exact Hsame|]. split.
  - rewrite Hsame, Htable, rows_of_number_app.
    rewrite (select_by_number_None_rows _ _ Hnone). simpl.
    unfold rows_of_number. simpl. rewrite String.eqb_refl. reflexivity.
  - intros Hvalid.
    assert (exists w', tracking w' = tracking w1 /\
              handle_track_command env chat (tracking_number info2) w1
              = (send_message env chat REGISTRATION_ERROR 0 ;; ret tt) w')
      as (w' & Ht & Heq).
    { unfold handle_track_command. rewrite Hvalid. cbn [negb].
      unfold bind at 1. unfold time_time at 1.
      set (info := {| tracking_number := tracking_number info2; chat_id := chat;
                      status := "Order Placed";
                      status_details := _; last_updated := _ |}).
      destruct (Hsecond info (next_clock_read w1) eq_refl eq_refl) as [Hf Ht].
      unfold bind at 1.
      destruct (add_tracking env info (next_clock_read w1)) as [res w'] eqn:E.
      simpl in Hf, Ht. subst res.
      exists w'. split; [exact Ht | reflexivity]. }
    exists w'. split; [exact Ht|]. split; [exact Heq|].
    rewrite Heq. unfold bind, send_message, ret.
    destruct (send_message_left_spec env (MAX_RETRIES - 0) chat REGISTRATION_ERROR w')
      as (answer & w'' & events & -> & _ & _ & (Hs & _) & _).
    simpl. congruence.
Qed.

End Store.

Lemma second_registration_rejected_witness :
  let env := healthy_env (readings [0]) [] in
  let info1 :=
    {| tracking_number := "EU430410927IN"; chat_id := "1"; status := "Order Placed";
       status_details := ""; last_updated := 0 |} in
  let info2 :=
    {| tracking_number := "EU430410927IN"; chat_id := "1"; status := "Order Placed";
       status_details := ""; last_updated := 50 |} in
  let w1 := snd (add_tracking env info1 (initial_world [])) in
  fst (add_tracking env info2 w1) = Ok false /\
  tracking (snd (add_tracking env info2 w1)) = [info1].
Proof.
  intros env info1 info2 w1.
  destruct (second_registration_rejected env info1 info2 "1" (initial_world [])
              eq_refl eq_refl) as (H1 & H2 & _).
  split; [exact H1 | exact H2].
Defined.

Lemma map_tracking_number_update_rows tn st details now table :
  List.map tracking_number (update_rows tn st details now table)
  = List.map tracking_number table.
Proof.
  unfold update_rows. rewrite List.map_map. apply List.map_ext.
  intros row. destruct (String.eqb (tracking_number row) tn); reflexivity.
Qed.

Lemma NoDup_map_filter {A B} (f : A -> B) (keep : A -> bool) (l : list A) :
  List.NoDup (List.map f l) -> List.NoDup (List.map f (List.filter keep l)).
Proof.
  induction l as [|x l IH]; simpl; intros H; [exact H|].
  apply List.NoDup_cons_iff in H as [Hx Hl].
  destruct (keep x); simpl; [|auto].
  apply List.NoDup_cons_iff. split; [|auto].
  intros Hin. apply Hx.
  apply in_map_iff in Hin as (y & Hy & Hin).
  apply filter_In in Hin as [Hin _].
  apply in_map_iff. eauto.
Qed.

(** C10: the uniqueness of tracking numbers is global. Every table the two
    programs can produce holds at most one row per tracking number, and
    [add_tracking] answers [False], changing nothing, whenever some row
    already carries the number, whichever recipient that row belongs to. *)
Theorem tracking_number_unique_across_recipients :
  (forall table, reachable_table table -> List.NoDup (List.map tracking_number table)) /\
  (forall env w info row,
     In row (tracking w) -> tracking_number row = tracking_number info ->
     fst (add_tracking env info w) = Ok false /\
     tracking (snd (add_tracking env info w)) = tracking w).
Proof.
  split.
  - induction 1 as [| env w info _ IH | db_ok tn st details now table _ IH
                    | env w days _ IH].
    + constructor.
    + destruct (add_tracking_cases env info w) as [(_ & Hnone & ->) | (_ & ->)];
        [|exact IH].
      rewrite List.map_app. simpl. apply List.NoDup_app; [exact IH | |].
      * constructor; [intros [] | constructor].
      * intros x Hx [<- | []].
        exact (select_by_number_None _ _ Hnone Hx).
    + unfold update_tracking.
      repeat match goal with
             | |- context [if ?b then _ else _] => destruct b
             end; try exact IH.
      destruct (select_by_number tn table); simpl;
        rewrite ?map_tracking_number_update_rows; exact IH.
    + unfold cleanup_old_tracking, with_connection, bind, gets, modify, log, ret,
        time_time, raise. simpl.
      destruct (db_ok env (db_ops w)); simpl; [|exact IH].
      destruct (fits_int64 days); simpl; [|exact IH].
      unfold delete_older_than.
      destruct (unixepoch_days_before _ _); [|exact IH].
      apply NoDup_map_filter. exact IH.
  - intros env w info row. apply add_tracking_existing.
Qed.

Lemma tracking_number_unique_across_recipients_witness :
  let first :=
    {| tracking_number := "RM286760959IN"; chat_id := "1"; status := "In Transit";
       status_details := ""; last_updated := 10 |} in
  let second :=
    {| tracking_number := "RM286760959IN"; chat_id := "2"; status := "Order Placed";
       status_details := ""; last_updated := 99 |} in
  let env := healthy_env (readings [99]) [] in
  List.NoDup (List.map tracking_number [first]) /\
  fst (add_tracking env second (initial_world [first])) = Ok false /\
  tracking (snd (add_tracking env second (initial_world [first]))) = [first].
Proof.
  intros first second env.
  destruct tracking_number_unique_across_recipients as [Hinv Hadd].
  split.
  - apply Hinv.
    exact (reachable_add env (initial_world []) first reachable_empty).
  - apply (Hadd env (initial_world [first]) second first);
      [left; reflexivity | reflexivity].
Defined.

(** ** The change-detection loop *)

Lemma append_same_length s1 s2 t1 t2 :
  s1 +:+ t1 = s2 +:+ t2 -> String.length s1 = String.length s2 ->
  s1 = s2 /\ t1 = t2.
Proof.
  revert s2. induction s1 as [|c s1 IH]; intros [|c2 s2]; simpl;
    try discriminate.
  - auto.
  - intros [= -> H] [= L]. destruct (IH s2 H L) as [-> ->]. auto.
Qed.

(** The keys of [last_status_check] stand for pairs: rows whose tracking
    numbers have the valid format, as all rows registered through [/track]
    do, share a key only if they share the number and the recipient. *)
Lemma checkpoint_key_injective row1 row2 :
  format_checks (tracking_number row1) = true ->
  format_checks (tracking_number row2) = true ->
  checkpoint_key row1 = checkpoint_key row2 ->
  tracking_number row1 = tracking_number row2 /\ chat_id row1 = chat_id row2.
Proof.
  intros H1 H2 Hkey. unfold checkpoint_key in Hkey.
  apply format_checks_length in H1, H2.
  apply append_same_length in Hkey as [Htn Hrest]; [|congruence].
  split; [exact Htn|]. injection Hrest as Hchat. exact Hchat.
Qed.

Section Loop.

Context (env : Env).

Lemma status_changed_true row cp :
  status_changed row cp = true <->
  cp_timestamp cp < last_updated row /\ status row <> cp_status cp.
Proof.
  unfold status_changed. rewrite andb_true_iff, Z.ltb_lt, negb_true_iff.
  rewrite <- not_true_iff_false, String.eqb_eq. reflexivity.
Qed.

(** The scan of a row that has a checkpoint. *)
Lemma process_record_checkpointed row cp w :
  last_status_check w !! checkpoint_key row = Some cp ->
  process_record env row w =
    if status_changed row cp then
      try_except (notify_status_change env row)
        (fun e => log ERROR (ErrorProcessingUpdate (tracking_number row) e)) w
    else (Ok tt, w).
Proof.
  intros H. unfold process_record, try_except, bind at 1, gets. simpl.
  rewrite H. destruct (status_changed row cp); reflexivity.
Qed.

Lemma record_sent_eq row sent w :
  record_sent row sent w =
    (Ok tt,
     if sent then
       emit (Log INFO (StatusUpdateSent (tracking_number row) (chat_id row) (status row)))
         (set_last_status_check
            (<[checkpoint_key row := checkpoint_of row]> (last_status_check w)) w)
     else w).
Proof. destruct sent; reflexivity. Qed.

(** When the update can be formatted, the notification is one call of
    [send_message] and the bookkeeping of its answer; nothing is raised. *)
Lemma notify_rendered row message w :
  format_status_message env (tracking_number row) (status row) (status_details row)
    (last_updated row) false w = (Ok message, w) ->
  try_except (notify_status_change env row)
    (fun e => log ERROR (ErrorProcessingUpdate (tracking_number row) e)) w
  = (sent <- send_message env (chat_id row) (STATUS_UPDATE message) 0 ;;
     record_sent row sent) w.
Proof.
  intros Hfmt. unfold try_except, notify_status_change, bind.
  rewrite Hfmt. unfold send_message.
  destruct (send_message_left_spec env (MAX_RETRIES - 0) (chat_id row)
              (STATUS_UPDATE message) w) as (answer & w' & events & -> & _).
  rewrite record_sent_eq. reflexivity.
Qed.


(** The scan of a row that has no checkpoint. *)
Lemma first_observation_baseline_eq row w :
  last_status_check w !! checkpoint_key row = None ->
  process_record env row w
  = (Ok tt,
     set_last_status_check
       (<[checkpoint_key row := checkpoint_of row]> (last_status_check w)) w).
Proof.
  intros H.
  unfold process_record, try_except, bind, gets, modify. simpl. rewrite H.
  reflexivity.
Qed.

(** C3: a row whose key has no checkpoint gets one holding its current
    status and timestamp, and nothing else happens: no message is sent, the
    rate limiter and the trace stay as they were, whatever the status is. *)
Theorem first_observation_sets_baseline row w :
  last_status_check w !! checkpoint_key row = None ->
  process_record env row w
  = (Ok tt,
     set_last_status_check
       (<[checkpoint_key row := checkpoint_of row]> (last_status_check w)) w) /\
  last_status_check (snd (process_record env row w)) !! checkpoint_key row
  = Some {| cp_status := status row; cp_timestamp := last_updated row |} /\
  trace (snd (process_record env row w)) = trace w /\
  posts (snd (process_record env row w)) = posts w /\
  rate_limiter (snd (process_record env row w)) = rate_limiter w.
Proof.
  intros H.
  rewrite (first_observation_baseline_eq row w H).
  cbn [snd last_status_check set_last_status_check trace posts rate_limiter].
  split; [reflexivity|].
  split; [apply lookup_insert_eq|].
  repeat split.
Qed.

(** C1: for a row that has a checkpoint, a change is detected exactly when
    the row's timestamp is greater than the checkpoint's and its status
    differs from the checkpoint's. A detected change makes the scan run the
    notification once (one call of [send_message] when the update can be
    formatted); without one the scan does nothing at all, in particular when
    the status is the same and only the timestamp is newer. *)
Theorem change_detected_iff row cp w :
  last_status_check w !! checkpoint_key row = Some cp ->
  (status_changed row cp = true <->
   cp_timestamp cp < last_updated row /\ status row <> cp_status cp) /\
  (status_changed row cp = true ->
   process_record env row w
   = try_except (notify_status_change env row)
       (fun e => log ERROR (ErrorProcessingUpdate (tracking_number row) e)) w /\
   forall message,
     format_status_message env (tracking_number row) (status row)
       (status_details row) (last_updated row) false w = (Ok message, w) ->
     process_record env row w
     = (sent <- send_message env (chat_id row) (STATUS_UPDATE message) 0 ;;
        record_sent row sent) w) /\
  (status_changed row cp = false -> process_record env row w = (Ok tt, w)) /\
  (status row = cp_status cp -> process_record env row w = (Ok tt, w)).
Proof.
  intros H. pose proof (process_record_checkpointed row cp w H) as E.
  split; [apply status_changed_true|].
  split; [|split].
  - intros Hc. rewrite Hc in E. split; [exact E|].
    intros message Hfmt. rewrite E. apply notify_rendered, Hfmt.
  - intros Hc. rewrite Hc in E. exact E.
  - intros Hs. rewrite E.
    replace (status_changed row cp) with false; [reflexivity|].
    unfold status_changed. rewrite Hs, String.eqb_refl, andb_false_r. reflexivity.
Qed.

Lemma format_status_message_pure tn st details ts footer message w :
  format_status_message env tn st details ts footer w = (Ok message, w) ->
  forall w2, format_status_message env tn st details ts footer w2 = (Ok message, w2).
Proof.
  unfold format_status_message, raise, ret.
  destruct (strftime env ts); [|discriminate].
  intros [= <-] w2. reflexivity.
Qed.

Lemma sweep_lookup now (checkpoints : gmap string Checkpoint) key cp :
  sweep now checkpoints !! key = Some cp <->
  checkpoints !! key = Some cp /\ now - cp_timestamp cp < 86400.
Proof. unfold sweep. apply map_lookup_filter_Some. Qed.

Lemma sweep_lookup_None now (checkpoints : gmap string Checkpoint) key cp :
  checkpoints !! key = Some cp -> 86400 <= now - cp_timestamp cp ->
  sweep now checkpoints !! key = None.
Proof.
  intros Hk Hold.
  destruct (sweep now checkpoints !! key) as [cp'|] eqn:E; [|reflexivity].
  apply sweep_lookup in E as [E Hyoung].
  rewrite Hk in E. injection E as <-. lia.
Qed.

(** C9 (as amended): the sweep that ends each cycle keeps exactly the
    entries whose [timestamp] is less than 24 hours (86400 seconds) before
    the clock reading it takes, and removes the entries that are 24 hours old
    or older; an entry 25 hours old is removed, one 23 hours old is kept. *)
Theorem sweep_keeps_entries_younger_than_a_day w key cp :
  let now := clock env (clock_reads w) in
  let w' := snd (clean_up_old_entries env w) in
  last_status_check w !! key = Some cp ->
  last_status_check w' = sweep now (last_status_check w) /\
  (last_status_check w' !! key = Some cp <-> now - cp_timestamp cp < 86400) /\
  (last_status_check w' !! key = None <-> 86400 <= now - cp_timestamp cp) /\
  (now - cp_timestamp cp = 25 * 3600 -> last_status_check w' !! key = None) /\
  (now - cp_timestamp cp = 23 * 3600 -> last_status_check w' !! key = Some cp) /\
  (forall other cp', last_status_check w' !! other = Some cp' ->
                     last_status_check w !! other = Some cp').
Proof.
  intros now w' Hk.
  assert (E : last_status_check w' = sweep now (last_status_check w)) by reflexivity.
  rewrite E.
  assert (Hkeep : sweep now (last_status_check w) !! key = Some cp <->
                  now - cp_timestamp cp < 86400).
  { rewrite sweep_lookup. split; [intros [_ H]; exact H | auto]. }
  assert (Hdrop : sweep now (last_status_check w) !! key = None <->
                  86400 <= now - cp_timestamp cp).
  { split.
    - intros Hnone. destruct (Z_lt_le_dec (now - cp_timestamp cp) 86400) as [Hy|]; [|assumption].
      apply Hkeep in Hy. congruence.
    - apply sweep_lookup_None, Hk. }
  split; [reflexivity|]. split; [exact Hkeep|]. split; [exact Hdrop|].
  split; [intros H; apply Hdrop; lia|].
  split; [intros H; apply Hkeep; lia|].
  intros other cp' H. apply sweep_lookup in H as [H _]. exact H.
Qed.

(** The scan isolates each row: whatever happens while a row is processed
    is caught and logged inside [process_record], so the scan goes on with
    the next row. *)
Lemma process_record_never_raises row w :
  exists w', process_record env row w = (Ok tt, w').
Proof.
  unfold process_record, try_except, log, modify.
  match goal with
  | |- context [match ?body w with _ => _ end] => destruct (body w) as [[[]|e] w']
  end; eexists; reflexivity.
Qed.

Lemma scan_never_raises rows : forall w,
  exists w', for_each (process_record env) rows w = (Ok tt, w').
Proof.
  induction rows as [|row rows IH]; intros w; simpl.
  - eexists; reflexivity.
  - unfold bind. destruct (process_record_never_raises row w) as [w1 ->].
    apply IH.
Qed.

Lemma check_status_updates_never_raises w :
  exists w', check_status_updates env w = (Ok tt, w').
Proof.
  unfold check_status_updates. unfold bind at 1.
  destruct (get_all_tracking env w) as [[rows|e] w0] eqn:E.
  - apply scan_never_raises.
  - exfalso. revert E.
    unfold get_all_tracking, with_connection, bind, gets, modify, log, ret. simpl.
    destruct (db_ok env (db_ops w)); discriminate.
Qed.

(** Processing a row touches no checkpoint but the row's own. *)
Lemma process_record_other_key row key w :
  key <> checkpoint_key row ->
  last_status_check (snd (process_record env row w)) !! key
  = last_status_check w !! key.
Proof.
  intros Hne.
  destruct (last_status_check w !! checkpoint_key row) as [cp|] eqn:Hcp.
  - rewrite (process_record_checkpointed row cp w Hcp).
    destruct (status_changed row cp); [|reflexivity].
    unfold try_except, notify_status_change, bind, format_status_message.
    destruct (strftime env (last_updated row)) as [time_str|]; [|reflexivity].
    unfold ret, send_message.
    match goal with
    | |- context [send_message_left env ?n ?c ?m w] =>
        destruct (send_message_left_spec env n c m w)
          as (answer & w1 & events & -> & _ & _ & (_ & _ & _ & Hlsc & _) & _)
    end.
    rewrite record_sent_eq. cbn [snd].
    destruct answer; cbn [last_status_check emit set_last_status_check];
      rewrite Hlsc; [|reflexivity].
    apply lookup_insert_ne. congruence.
  - rewrite (first_observation_baseline_eq row w Hcp). cbn [snd].
    cbn [last_status_check set_last_status_check].
    apply lookup_insert_ne. congruence.
Qed.

(** So a scan of rows leaves alone every checkpoint whose key belongs to
    none of them: a row is met with the checkpoint it had when the scan
    began, unless a row before it shares its key. *)
Lemma scan_other_keys rows key : forall w,
  (forall row, In row rows -> key <> checkpoint_key row) ->
  last_status_check (snd (for_each (process_record env) rows w)) !! key
  = last_status_check w !! key.
Proof.
  induction rows as [|row rows IH]; intros w Hkeys; simpl; [reflexivity|].
  unfold bind.
  destruct (process_record_never_raises row w) as [w1 E].
  pose proof (process_record_other_key row key w
                (Hkeys row (or_introl eq_refl))) as Hrow.
  rewrite E in Hrow |- *. cbn [snd] in Hrow.
  rewrite IH; [exact Hrow|].
  intros row' Hin. apply Hkeys. right. exact Hin.
Qed.

Lemma for_each_app_ok {A} (body : A -> M unit) l1 l2 : forall w w1,
  for_each body l1 w = (Ok tt, w1) ->
  for_each body (l1 ++ l2) w = for_each body l2 w1.
Proof.
  induction l1 as [|x l1 IH]; intros w w1; simpl.
  - intros [= <-]. reflexivity.
  - unfold bind. destruct (body x w) as [[[]|e] w0]; [|discriminate].
    apply IH.
Qed.

(** The next scan meets a change whose checkpoint is still in place: when
    no row before it shares its key, the row is compared with that checkpoint
    and the update is sent again. *)
Lemma next_scan_sends_again row cp message before after w :
  last_status_check w !! checkpoint_key row = Some cp ->
  status_changed row cp = true ->
  format_status_message env (tracking_number row) (status row) (status_details row)
    (last_updated row) false w = (Ok message, w) ->
  (forall row', In row' before -> checkpoint_key row <> checkpoint_key row') ->
  exists w1,
    for_each (process_record env) before w = (Ok tt, w1) /\
    for_each (process_record env) (before ++ row :: after) w
    = (sent <- send_message env (chat_id row) (STATUS_UPDATE message) 0 ;;
       record_sent row sent ;;
       for_each (process_record env) after) w1.
Proof.
  intros Hcp Hchanged Hfmt Hkeys.
  destruct (scan_never_raises before w) as [w1 Hbefore].
  exists w1. split; [exact Hbefore|].
  rewrite (for_each_app_ok _ _ _ _ _ Hbefore). simpl.
  pose proof (scan_other_keys before (checkpoint_key row) w Hkeys) as Hsame.
  rewrite Hbefore in Hsame. cbn [snd] in Hsame. rewrite Hcp in Hsame.
  unfold bind at 1.
  rewrite (process_record_checkpointed row cp w1 Hsame), Hchanged.
  rewrite (notify_rendered row message w1
             (format_status_message_pure _ _ _ _ _ _ _ Hfmt w1)).
  unfold bind.
  destruct (send_message env (chat_id row) (STATUS_UPDATE message) 0 w1)
    as [[sent|e] w2]; [|reflexivity].
  rewrite record_sent_eq. reflexivity.
Qed.

(** A dispatch that raises ends the loop over the updates. *)
Lemma for_each_raises {A} (body : A -> M unit) before failing after w w1 w2 e :
  for_each body before w = (Ok tt, w1) ->
  body failing w1 = (Raised e, w2) ->
  for_each body (before ++ failing :: after) w = (Raised e, w2).
Proof.
  revert w. induction before as [|x before IH]; intros w; simpl.
  - intros [= <-] Hf. unfold bind. rewrite Hf. reflexivity.
  - unfold bind. destruct (body x w) as [[[]|e'] w0]; [|discriminate].
    intros Hb Hf. apply IH; assumption.
Qed.

(** C4 (what the code does): when the dispatch of one command of a batch
    raises, the round ends there. The commands after it in the batch are not
    dispatched, the table is not scanned and the checkpoints are not swept;
    the error is logged and the loop pauses for five seconds. *)
Theorem dispatch_failure_aborts_round w before failing after e w1 w2 w3 :
  CHECK_INTERVAL <= clock env (clock_reads w) - last_check w ->
  get_updates env (offset w) (next_clock_read w)
    = (Ok (before ++ failing :: after), w1) ->
  for_each (handle_update env) before w1 = (Ok tt, w2) ->
  handle_update env failing w2 = (Raised e, w3) ->
  iteration env w
  = (Ok tt, emit (Sleep 5) (emit (Log ERROR (UnexpectedError e)) w3)).
Proof.
  intros Hdue Hpoll Hbefore Hfail.
  pose proof (for_each_raises _ _ _ after _ _ _ _ Hbefore Hfail) as Hloop.
  unfold iteration, try_except, bind at 1, time_time at 1.
  unfold bind at 1, gets at 1.
  cbn [last_check next_clock_read].
  apply Z.leb_le in Hdue. rewrite Hdue.
  unfold bind at 1, check_cycle, bind at 1, handle_new_messages, bind at 1, gets at 1.
  cbn [offset next_clock_read]. unfold bind at 1.
  rewrite Hpoll, Hloop. reflexivity.
Qed.

End Loop.

(** ** The properties on sample runs *)

Lemma change_detected_iff_witness :
  process_record (healthy_env (readings [86495]) []) delivered_row checkpointed_world
  = (sent <- send_message (healthy_env (readings [86495]) []) "7"
               (STATUS_UPDATE
                  {| block_tracking_number := sample_number;
                     block_emoji := "check mark";
                     block_status := "Delivered";
                     block_time := "86490";
                     block_details := "Your package has been successfully delivered.";
                     block_footer := false |}) 0 ;;
     record_sent delivered_row sent) checkpointed_world.
Proof.
  destruct (change_detected_iff (healthy_env (readings [86495]) []) delivered_row
              placed_checkpoint checkpointed_world eq_refl)
    as (_ & Hchanged & _).
  destruct (Hchanged eq_refl) as [_ Hsend].
  apply Hsend. reflexivity.
Defined.

Example delivered_update_is_sent_once :
  posted_to "7"
    (trace (snd (process_record (healthy_env (readings [86495]) []) delivered_row
                   checkpointed_world)))
  = [STATUS_UPDATE
       {| block_tracking_number := sample_number;
          block_emoji := "check mark";
          block_status := "Delivered";
          block_time := "86490";
          block_details := "Your package has been successfully delivered.";
          block_footer := false |}].
Proof. reflexivity. Qed.

Lemma first_observation_sets_baseline_witness :
  process_record (healthy_env (readings [86495]) []) delivered_row
    (initial_world [delivered_row])
  = (Ok tt,
     set_last_status_check
       {[ checkpoint_key delivered_row := checkpoint_of delivered_row ]}
       (initial_world [delivered_row])).
Proof.
  exact (proj1 (first_observation_sets_baseline (healthy_env (readings [86495]) [])
                  delivered_row (initial_world [delivered_row]) eq_refl)).
Defined.

Lemma sweep_keeps_entries_younger_than_a_day_witness :
  let env := healthy_env (readings [86499]) [] in
  last_status_check (snd (clean_up_old_entries env checkpointed_world))
    !! checkpoint_key delivered_row
  = Some placed_checkpoint.
Proof.
  intros env.
  destruct (sweep_keeps_entries_younger_than_a_day env checkpointed_world
              (checkpoint_key delivered_row) placed_checkpoint eq_refl)
    as (_ & Hkeep & _).
  apply Hkeep. vm_compute. reflexivity.
Defined.

(** C9, counterexample: an entry exactly 24 hours old, whose age does not
    exceed 24 hours, is removed. *)
Lemma day_old_entry_is_removed :
  ~ (forall now (checkpoints : gmap string Checkpoint) key cp,
       checkpoints !! key = Some cp ->
       (sweep now checkpoints !! key = None <-> 86400 < now - cp_timestamp cp)).
Proof.
  intros H.
  specialize (H 86500 {[ checkpoint_key delivered_row := placed_checkpoint ]}
                (checkpoint_key delivered_row) placed_checkpoint eq_refl).
  assert (Hgone : sweep 86500 {[ checkpoint_key delivered_row := placed_checkpoint ]}
                    !! checkpoint_key delivered_row = None).
  { apply (sweep_lookup_None _ _ _ placed_checkpoint); [reflexivity|].
    vm_compute. discriminate. }
  apply H in Hgone. vm_compute in Hgone. discriminate Hgone.
Qed.

Lemma dispatch_failure_aborts_round_witness :
  let env := healthy_env (readings [1000]) status_then_help in
  trace (snd (iteration env (initial_world [unrenderable_row])))
  = [Poll None; Log INFO (ReceivedCommand "/status" []);
     Log ERROR (UnexpectedError (FromTimestampError (10 ^ 18))); Sleep 5] /\
  posted_to "2" (trace (snd (iteration env (initial_world [unrenderable_row])))) = [] /\
  offset (snd (iteration env (initial_world [unrenderable_row]))) = Some 2.
Proof.
  intros env.
  pose proof (fun Hdue e w1 w2 w3 =>
                dispatch_failure_aborts_round env (initial_world [unrenderable_row])
                  [] (command_from 1 1 "/status") [command_from 2 2 "/help"]
                  e w1 w2 w3 Hdue) as Haborts.
  assert (Hdue : CHECK_INTERVAL
                 <= clock env (clock_reads (initial_world [unrenderable_row]))
                    - last_check (initial_world [unrenderable_row])).
  { vm_compute. discriminate. }
  specialize (Haborts Hdue _ _ _ _ eq_refl eq_refl eq_refl).
  rewrite Haborts. repeat split; reflexivity.
Defined.

(** With each command dispatched on its own, the second recipient would
    have been answered: alone in its batch, [/help] is. *)
Example help_alone_is_answered :
  posted_to "2"
    (trace (snd (iteration (healthy_env (readings [1000]) [command_from 2 2 "/help"])
                   (initial_world [unrenderable_row]))))
  = [HELP_MESSAGE].
Proof. reflexivity. Qed.

(** The scenario of the specification from end to end: the registration is
    confirmed, the later change to [Delivered] is notified once, and the
    cycle after that sends nothing more. *)
Example registration_then_one_notification :
  let w1 := snd (iteration quiet_day (initial_world [])) in
  let w2 := snd (iteration quiet_day (admin_sets_delivered_at 150 w1)) in
  let w3 := snd (iteration quiet_day w2) in
  List.map status (tracking w1) = ["Order Placed"] /\
  posted_to "7" (trace w1) = [NEW_TRACKING_STARTED sample_number] /\
  List.map block_status
    (flat_map (fun m => match m with STATUS_UPDATE b => [b] | _ => [] end)
       (posted_to "7" (events_since w1 w2)))
  = ["Delivered"] /\
  attempts (events_since w2 w3) = 0%nat.
Proof. vm_compute. repeat split. Qed.

(** * Further properties *)

(** ** The rate limiter over many calls *)

Lemma filter_length_le {A} (f : A -> bool) (l : list A) :
  (List.length (List.filter f l) <= List.length l)%nat.
Proof.
  induction l as [|x l IH]; simpl; [lia|]. destruct (f x); simpl; lia.
Qed.

Lemma is_allowed_recorded now chat rl :
  recorded chat (snd (is_allowed now chat rl))
  = unexpired now chat rl ++ (if fst (is_allowed now chat rl) then [now] else []).
Proof.
  unfold is_allowed. destruct (max_requests rl <=? _); cbn [fst snd];
    unfold recorded; cbn [requests]; rewrite lookup_insert_eq; cbn [default].
  - symmetry. apply app_nil_r.
  - reflexivity.
Qed.

Lemma is_allowed_parameters now chat rl :
  max_requests (snd (is_allowed now chat rl)) = max_requests rl /\
  time_window (snd (is_allowed now chat rl)) = time_window rl.
Proof. unfold is_allowed. destruct (max_requests rl <=? _); split; reflexivity. Qed.

Lemma is_allowed_fst now chat rl :
  fst (is_allowed now chat rl)
  = negb (max_requests rl <=? Z.of_nat (List.length (unexpired now chat rl))).
Proof. unfold is_allowed. destruct (max_requests rl <=? _); reflexivity. Qed.

Lemma is_allowed_keeps_bound now chat rl :
  Z.of_nat (List.length (recorded chat rl)) <= max_requests rl ->
  Z.of_nat (List.length (recorded chat (snd (is_allowed now chat rl))))
  <= max_requests rl.
Proof.
  intros Hbound. rewrite is_allowed_recorded, is_allowed_fst.
  pose proof (filter_length_le (fun t => now - t <? time_window rl) (recorded chat rl))
    as Hle.
  rewrite <- unexpired_recorded in Hle.
  destruct (Z.leb_spec (max_requests rl)
              (Z.of_nat (List.length (unexpired now chat rl)))) as [Hfull | Hroom];
    cbn [negb]; rewrite length_app; simpl; lia.
Qed.

(** X1: the limiter stores at most [max_requests] timestamps per recipient.
    If the list of a recipient is within that bound, it stays within it
    through any further calls, at whatever clock readings they are made. *)
Theorem recorded_stays_within_max chat times : forall rl,
  Z.of_nat (List.length (recorded chat rl)) <= max_requests rl ->
  Z.of_nat (List.length (recorded chat (after_calls chat times rl)))
  <= max_requests (after_calls chat times rl) /\
  max_requests (after_calls chat times rl) = max_requests rl.
Proof.
  induction times as [|t times IH]; intros rl Hbound; simpl.
  - split; [exact Hbound | reflexivity].
  - destruct (is_allowed_parameters t chat rl) as [Hmax _].
    destruct (IH (snd (is_allowed t chat rl))) as [H1 H2].
    + rewrite Hmax. apply is_allowed_keeps_bound, Hbound.
    + split; [exact H1 | congruence].
Qed.

Lemma recorded_stays_within_max_witness :
  Z.of_nat (List.length
              (recorded "42" (after_calls "42" [5; 1; 3; 3; 70; 2] (new_RateLimiter 2 60))))
  <= 2.
Proof.
  apply (recorded_stays_within_max "42" [5; 1; 3; 3; 70; 2] (new_RateLimiter 2 60)).
  vm_compute. discriminate.
Defined.

Lemma count_within_app now window l1 l2 :
  count_within now window (l1 ++ l2)
  = count_within now window l1 + count_within now window l2.
Proof. induction l1 as [|t l1 IH]; simpl; lia. Qed.

Lemma count_within_later now now' window ts :
  now <= now' -> count_within now' window ts <= count_within now window ts.
Proof.
  intros Hle. induction ts as [|t ts IH]; simpl; [lia|].
  destruct (Z.ltb_spec (now' - t) window), (Z.ltb_spec (now - t) window); lia.
Qed.

Lemma filter_filter_later now now' window ts :
  now <= now' ->
  List.filter (fun t => now' - t <? window) (List.filter (fun t => now - t <? window) ts)
  = List.filter (fun t => now' - t <? window) ts.
Proof.
  intros Hle. induction ts as [|t ts IH]; simpl; [reflexivity|].
  destruct (Z.ltb_spec (now - t) window) as [Hin | Hout]; simpl.
  - rewrite IH. reflexivity.
  - destruct (Z.ltb_spec (now' - t) window); [lia | exact IH].
Qed.

Lemma window_guarantee_from chat times : forall rl history last now,
  0 < time_window rl ->
  holds_unexpired chat rl history last ->
  Z.of_nat (List.length (recorded chat rl)) <= max_requests rl ->
  (forall t, In t times -> last <= t) ->
  nondecreasing times ->
  (forall t, In t times -> t <= now) ->
  last <= now ->
  count_within now (time_window rl) (history ++ allowed_times chat times rl)
  <= max_requests rl.
Proof.
  induction times as [|t times IH];
    intros rl history last now Hwin Hinv Hbound Hlast Hsorted Hnow Hle; simpl.
  - rewrite app_nil_r.
    pose proof (count_within_later last now (time_window rl) history Hle) as H.
    rewrite <- (count_within_filter last) in H. unfold holds_unexpired in Hinv.
    rewrite <- Hinv in H. lia.
  - destruct Hsorted as [Hfirst Hsorted].
    destruct (is_allowed_parameters t chat rl) as [Hmax Hwindow].
    pose proof (is_allowed_recorded t chat rl) as Hrec.
    pose proof (is_allowed_keeps_bound t chat rl Hbound) as Hbound'.
    destruct (is_allowed t chat rl) as [allowed rl'] eqn:E. cbn [fst snd] in *.
    rewrite app_assoc. rewrite <- Hmax, <- Hwindow.
    apply (IH rl' (history ++ (if allowed then [t] else [])) t now).
    + rewrite Hwindow. exact Hwin.
    + unfold holds_unexpired. rewrite Hrec, Hwindow.
      unfold unexpired. fold (recorded chat rl). rewrite Hinv.
      rewrite filter_filter_later by (apply Hlast; left; reflexivity).
      rewrite List.filter_app. f_equal.
      destruct allowed; simpl; [|reflexivity].
      destruct (Z.ltb_spec (t - t) (time_window rl)); [reflexivity | lia].
    + rewrite Hmax. exact Hbound'.
    + intros t' Hin. apply Hfirst, Hin.
    + exact Hsorted.
    + intros t' Hin. apply Hnow. right. exact Hin.
    + apply Hnow. left. reflexivity.
Qed.

(** X2: the guarantee of the sliding window. Under a clock that never goes
    back, among the calls a fresh limiter has allowed for one recipient, at
    most [max_requests] carry a timestamp within the last [time_window]
    seconds, at any moment from the last call on. *)
Theorem at_most_max_allowed_within_window chat max window times now :
  0 < window -> 0 <= max ->
  nondecreasing times ->
  (forall t, In t times -> t <= now) ->
  count_within now window (allowed_times chat times (new_RateLimiter max window))
  <= max.
Proof.
  intros Hwin Hmax Hsorted Hnow.
  destruct times as [|t times].
  - simpl. exact Hmax.
  - apply (window_guarantee_from chat (t :: times) (new_RateLimiter max window) [] t now).
    + exact Hwin.
    + reflexivity.
    + simpl. exact Hmax.
    + intros t' [<- | Hin]; [lia | apply (proj1 Hsorted), Hin].
    + exact Hsorted.
    + exact Hnow.
    + apply Hnow. left. reflexivity.
Qed.

Lemma at_most_max_allowed_within_window_witness :
  allowed_times "42" [0; 10; 20; 59; 60; 61] (new_RateLimiter 3 60) = [0; 10; 20; 60] /\
  count_within 61 60 (allowed_times "42" [0; 10; 20; 59; 60; 61] (new_RateLimiter 3 60))
  <= 3.
Proof.
  split; [reflexivity|].
  apply (at_most_max_allowed_within_window "42" 3 60 [0; 10; 20; 59; 60; 61] 61);
    [lia | lia | simpl; intuition lia | simpl; intuition lia].
Defined.

(** ** Reading and cleaning the table *)

Lemma insert_desc_perm row sorted : Permutation (insert_desc row sorted) (row :: sorted).
Proof.
  induction sorted as [|x rest IH]; simpl; [reflexivity|].
  destruct (last_updated x <=? last_updated row); [reflexivity|].
  rewrite IH. apply perm_swap.
Qed.

Lemma order_by_last_updated_desc_perm table :
  Permutation (order_by_last_updated_desc table) table.
Proof.
  induction table as [|row table IH]; simpl; [reflexivity|].
  rewrite insert_desc_perm. constructor. exact IH.
Qed.

Lemma insert_desc_sorted row sorted :
  StronglySorted newer_first sorted ->
  StronglySorted newer_first (insert_desc row sorted).
Proof.
  induction 1 as [|x rest Hsorted IH Hx]; simpl.
  - repeat constructor.
  - destruct (Z.leb_spec (last_updated x) (last_updated row)) as [Hle | Hgt].
    + constructor; [constructor; assumption|].
      constructor; [exact Hle|].
      rewrite List.Forall_forall in Hx |- *. intros y Hy.
      specialize (Hx y Hy). unfold newer_first in *. lia.
    + constructor; [exact IH|].
      rewrite List.Forall_forall in Hx |- *. intros y Hy.
      apply (Permutation_in _ (insert_desc_perm row rest)) in Hy as [<- | Hy].
      * unfold newer_first. lia.
      * apply Hx, Hy.
Qed.

Lemma order_by_last_updated_desc_sorted table :
  StronglySorted newer_first (order_by_last_updated_desc table).
Proof.
  induction table as [|row table IH]; simpl; [constructor|].
  apply insert_desc_sorted, IH.
Qed.

Lemma selected_columns_sorted rows :
  StronglySorted newer_first rows ->
  StronglySorted (fun a b : string * string * string * Z => snd b <= snd a)
    (List.map selected_columns rows).
Proof.
  induction 1 as [|x rest Hs IH Hx]; simpl; constructor.
  - exact IH.
  - rewrite List.Forall_forall in Hx |- *. intros item Hitem.
    apply in_map_iff in Hitem as (row & <- & Hrow). apply Hx, Hrow.
Qed.

Section Reads.

Context (env : Env).

Lemma get_all_tracking_eq w :
  get_all_tracking env w =
    if db_ok env (db_ops w) then
      (Ok (order_by_last_updated_desc (tracking w)),
       set_tracking (tracking w) (next_db_op w))
    else (Ok [], emit (Log ERROR DatabaseErrorFetchingAll) (next_db_op w)).
Proof.
  unfold get_all_tracking, with_connection, bind, gets, modify, log, ret. simpl.
  destruct (db_ok env (db_ops w)); reflexivity.
Qed.

Lemma get_tracking_by_chat_id_eq chat w :
  get_tracking_by_chat_id env chat w =
    if db_ok env (db_ops w) then
      (Ok (List.map selected_columns
             (order_by_last_updated_desc (rows_of_chat chat (tracking w)))),
       set_tracking (tracking w) (next_db_op w))
    else (Ok [], emit (Log ERROR DatabaseErrorFetching) (next_db_op w)).
Proof.
  unfold get_tracking_by_chat_id, with_connection, bind, gets, modify, log, ret. simpl.
  destruct (db_ok env (db_ops w)); reflexivity.
Qed.

(** X3: [get_all_tracking] never raises and never changes the table. When
    the database can be read it returns every row exactly once, the most
    recently updated first; on a database error it returns the empty list and
    logs the error, which the caller cannot tell from an empty table. *)
Theorem get_all_tracking_lists_every_row w :
  tracking (snd (get_all_tracking env w)) = tracking w /\
  exists rows,
    fst (get_all_tracking env w) = Ok rows /\
    StronglySorted newer_first rows /\
    (if db_ok env (db_ops w) then
       Permutation rows (tracking w) /\
       trace (snd (get_all_tracking env w)) = trace w
     else
       rows = [] /\
       trace (snd (get_all_tracking env w))
       = trace w ++ [Log ERROR DatabaseErrorFetchingAll]).
Proof.
  rewrite get_all_tracking_eq.
  destruct (db_ok env (db_ops w)); cbn [fst snd].
  - split; [reflexivity|]. eexists. split; [reflexivity|].
    split; [apply order_by_last_updated_desc_sorted|].
    split; [apply order_by_last_updated_desc_perm | reflexivity].
  - split; [reflexivity|]. exists []. split; [reflexivity|].
    split; [constructor|]. split; reflexivity.
Qed.

(** X4: [get_tracking_by_chat_id] returns, when the database can be read,
    the selected columns of exactly the rows of that recipient, each once,
    the most recently updated first, and no row of anybody else; on a
    database error it returns the empty list. The table stays as it is. *)
Theorem get_tracking_by_chat_id_lists_own_rows chat w :
  tracking (snd (get_tracking_by_chat_id env chat w)) = tracking w /\
  exists items,
    fst (get_tracking_by_chat_id env chat w) = Ok items /\
    StronglySorted (fun a b => snd b <= snd a) items /\
    (forall item, In item items ->
       exists row, In row (tracking w) /\ chat_id row = chat /\
                   item = selected_columns row) /\
    (if db_ok env (db_ops w) then
       Permutation items (List.map selected_columns (rows_of_chat chat (tracking w)))
     else items = []).
Proof.
  rewrite get_tracking_by_chat_id_eq.
  destruct (db_ok env (db_ops w)); cbn [fst snd].
  - split; [reflexivity|]. eexists. split; [reflexivity|].
    pose proof (order_by_last_updated_desc_perm (rows_of_chat chat (tracking w)))
      as Hperm.
    split; [|split].
    + apply selected_columns_sorted, order_by_last_updated_desc_sorted.
    + intros item Hitem. apply in_map_iff in Hitem as (row & <- & Hrow).
      apply (Permutation_in _ Hperm) in Hrow.
      unfold rows_of_chat in Hrow. apply filter_In in Hrow as [Hin Hchat].
      apply String.eqb_eq in Hchat. eauto.
    + apply Permutation_map, Hperm.
  - split; [reflexivity|]. exists []. split; [reflexivity|].
    split; [constructor|]. split; [intros item []|reflexivity].
Qed.

Lemma cleanup_old_tracking_eq days w :
  cleanup_old_tracking env days w =
    if db_ok env (db_ops w) then
      if fits_int64 days then
        let now := clock env (clock_reads w) in
        let table' := delete_older_than now days (tracking w) in
        (Ok (Z.of_nat (List.length (tracking w)) - Z.of_nat (List.length table')),
         set_tracking table' (next_clock_read (next_db_op w)))
      else (Raised OverflowError, next_db_op w)
    else (Ok 0, emit (Log ERROR DatabaseErrorCleaningUp) (next_db_op w)).
Proof.
  unfold cleanup_old_tracking, with_connection, bind, gets, modify, log, ret,
    time_time, raise. simpl.
  destruct (db_ok env (db_ops w)); [|reflexivity].
  destruct (fits_int64 days); reflexivity.
Qed.

Lemma unixepoch_days_before_negative now days :
  days < 0 -> unixepoch_days_before now days = None.
Proof.
  intros H. unfold unixepoch_days_before.
  destruct (Z.leb_spec 0 days); [lia | reflexivity].
Qed.

Lemma unixepoch_days_before_in_range now days :
  0 <= days -> SQLITE_FIRST_SECOND <= now - days * 86400 ->
  SQLITE_FIRST_SECOND < now -> now <= SQLITE_LAST_SECOND ->
  unixepoch_days_before now days = Some (now - days * 86400).
Proof.
  unfold unixepoch_days_before, SQLITE_FIRST_SECOND, SQLITE_LAST_SECOND.
  intros Hdays Hfirst Hnow Hlast.
  destruct (Z.leb_spec 0 days); [|lia].
  destruct (Z.ltb_spec days 5373485); [|lia].
  destruct (Z.ltb_spec (-210866760000) now); [|lia].
  destruct (Z.leb_spec (-210866760000) (now - days * 86400)); [|lia].
  destruct (Z.leb_spec (now - days * 86400) 253402300799); [|lia].
  reflexivity.
Qed.

Lemma filter_not_before threshold table :
  List.filter (fun row => negb (last_updated row <? threshold)) table
  = List.filter (fun row => threshold <=? last_updated row) table.
Proof.
  apply List.filter_ext. intros row.
  destruct (Z.ltb_spec (last_updated row) threshold),
    (Z.leb_spec threshold (last_updated row)); simpl; try reflexivity; lia.
Qed.

(** X5: [cleanup_old_tracking(days)]. On a database error it answers 0 and
    removes nothing. A [days] that does not fit 64 bits makes it raise
    [OverflowError], with the table as it was. Otherwise it answers with the
    number of rows it has removed, which are the rows last updated before
    the value of [unixepoch('now', '-days days')] and none when that value is
    NULL: with a negative [days] it removes nothing; with a [days] of zero or
    more, and dates within SQLite's range, it removes exactly the rows last
    updated more than [days] days before the clock reading and keeps the
    others in their order. *)
Theorem cleanup_old_tracking_removes_old_rows days w :
  let now := clock env (clock_reads w) in
  let result := fst (cleanup_old_tracking env days w) in
  let table' := tracking (snd (cleanup_old_tracking env days w)) in
  if db_ok env (db_ops w) then
    if fits_int64 days then
      exists removed,
        result = Ok removed /\
        removed = Z.of_nat (List.length (tracking w)) - Z.of_nat (List.length table') /\
        0 <= removed /\
        table' = match unixepoch_days_before now days with
                 | Some threshold =>
                     List.filter (fun row => threshold <=? last_updated row) (tracking w)
                 | None => tracking w
                 end /\
        (days < 0 -> table' = tracking w /\ removed = 0) /\
        (0 <= days -> SQLITE_FIRST_SECOND <= now - days * 86400 ->
         SQLITE_FIRST_SECOND < now -> now <= SQLITE_LAST_SECOND ->
         table' = List.filter (fun row => now - days * 86400 <=? last_updated row)
                    (tracking w))
    else result = Raised OverflowError /\ table' = tracking w
  else result = Ok 0 /\ table' = tracking w.
Proof.
  cbv zeta. rewrite cleanup_old_tracking_eq.
  destruct (db_ok env (db_ops w)); [|split; reflexivity].
  destruct (fits_int64 days); [|split; reflexivity].
  cbv zeta. cbn [fst snd tracking set_tracking next_db_op next_clock_read].
  assert (Htable : delete_older_than (clock env (clock_reads w)) days (tracking w)
                   = match unixepoch_days_before (clock env (clock_reads w)) days with
                     | Some threshold =>
                         List.filter (fun row => threshold <=? last_updated row)
                           (tracking w)
                     | None => tracking w
                     end).
  { unfold delete_older_than.
    destruct (unixepoch_days_before _ _); [apply filter_not_before | reflexivity]. }
  eexists. split; [reflexivity|]. split; [reflexivity|].
  split; [|split; [exact Htable|split]].
  - rewrite Htable. destruct (unixepoch_days_before _ _) as [threshold|]; [|lia].
    pose proof (filter_length_le (fun row => threshold <=? last_updated row)
                  (tracking w)).
    lia.
  - intros Hneg. rewrite Htable, (unixepoch_days_before_negative _ _ Hneg).
    split; [reflexivity | lia].
  - intros Hdays Hfirst Hnow Hlast.
    rewrite Htable, (unixepoch_days_before_in_range _ _ Hdays Hfirst Hnow Hlast).
    reflexivity.
Qed.

End Reads.

(** A row last updated on the second day of 1970 and a clock in 2026: thirty
    days remove the row, minus five days remove nothing, and a number of days
    beyond 64 bits ends in the exception of the binding. *)
Example cleanup_old_tracking_by_days :
  let env := healthy_env (readings [1793810933]) [] in
  cleanup_old_tracking env 30 (initial_world [delivered_row])
  = (Ok 1, set_tracking [] (next_clock_read (next_db_op (initial_world [delivered_row]))))
  /\ fst (cleanup_old_tracking env (-5) (initial_world [delivered_row])) = Ok 0
  /\ tracking (snd (cleanup_old_tracking env (-5) (initial_world [delivered_row])))
     = [delivered_row]
  /\ fst (cleanup_old_tracking env (2 ^ 63) (initial_world [delivered_row]))
     = Raised OverflowError.
Proof. vm_compute. repeat split. Qed.

(** ** The admin's update of a row *)

Lemma update_rows_length tn st details now table :
  List.length (update_rows tn st details now table) = List.length table.
Proof. unfold update_rows. apply List.length_map. Qed.

Lemma update_rows_chat tn st details now table :
  List.map chat_id (update_rows tn st details now table) = List.map chat_id table.
Proof.
  unfold update_rows. rewrite List.map_map. apply List.map_ext.
  intros row. destruct (String.eqb (tracking_number row) tn); reflexivity.
Qed.

Lemma update_rows_In tn st details now table row' :
  In row' (update_rows tn st details now table) <->
  exists row, In row table /\
    ((tracking_number row = tn /\
      row' = {| tracking_number := tracking_number row; chat_id := chat_id row;
                status := st; status_details := details; last_updated := now |})
     \/ (tracking_number row <> tn /\ row' = row)).
Proof.
  unfold update_rows. rewrite in_map_iff. split.
  - intros (row & <- & Hin). exists row. split; [exact Hin|].
    destruct (String.eqb_spec (tracking_number row) tn); [left | right]; auto.
  - intros (row & Hin & [[Htn ->] | [Htn ->]]); exists row; (split; [|exact Hin]).
    + apply String.eqb_eq in Htn. rewrite Htn. reflexivity.
    + apply String.eqb_neq in Htn. rewrite Htn. reflexivity.
Qed.

(** X6: the update of the admin route. The request is accepted when the
    two fields are given, the tracking number is well formed and the status
    is one of the options; a request that is not is answered 400. An accepted
    request is answered 500 when the database fails, 404 when the number is
    not registered, and 200 otherwise. Whatever is not answered 200 leaves
    the table untouched. A 200 rewrites status, details and timestamp of the
    rows with that number and nothing else: no row is added or removed, and
    every row keeps its number and recipient. The route itself answers
    accordingly, and clears its cache on a 200 only. *)
Theorem update_tracking_changes_only_the_status db_ok tn st details now table :
  let code := fst (update_tracking db_ok tn st details now table) in
  let table' := snd (update_tracking db_ok tn st details now table) in
  let accepted :=
    tn <> "" /\ st <> "" /\ is_valid_tracking_number tn = true /\
    validate_status st = true in
  (code = 200 <->
   accepted /\ db_ok = true /\ In tn (List.map tracking_number table)) /\
  (code = 500 <-> accepted /\ db_ok = false) /\
  (code = 404 <->
   accepted /\ db_ok = true /\ ~ In tn (List.map tracking_number table)) /\
  (code = 400 <-> ~ accepted) /\
  (code <> 200 -> table' = table) /\
  List.map tracking_number table' = List.map tracking_number table /\
  List.map chat_id table' = List.map chat_id table /\
  (code = 200 ->
   forall row', In row' table' <->
     exists row, In row table /\
       ((tracking_number row = tn /\
         row' = {| tracking_number := tracking_number row; chat_id := chat_id row;
                   status := st; status_details := details; last_updated := now |})
        \/ (tracking_number row <> tn /\ row' = row))) /\
  (forall cached,
     App.update_tracking db_ok tn st details now
       {| App.cache := cached; App.table := table |}
     = (if code =? 200 then App.StatusUpdated else App.Error code,
        {| App.cache := if code =? 200 then App.clear cached else cached;
           App.table := table' |})).
Proof.
  unfold update_tracking, App.update_tracking. cbn [App.table App.cache].
  destruct (String.eqb_spec tn ""); cbn [orb];
    [ cbn [fst snd Z.eqb Pos.eqb];
      repeat split; try (intros; lia || tauto || discriminate);
      try (intros (? & _); tauto); try (intros ((? & _) & _); tauto) |].
  destruct (String.eqb_spec st ""); cbn [orb];
    [ cbn [fst snd Z.eqb Pos.eqb];
      repeat split; try (intros; lia || tauto || discriminate);
      try (intros (_ & ? & _); tauto); try (intros ((_ & ? & _) & _); tauto) |].
  destruct (is_valid_tracking_number tn); cbn [negb];
    [| cbn [fst snd Z.eqb Pos.eqb];
       repeat split; try (intros; lia || tauto || discriminate);
       try (intros (_ & _ & ? & _); discriminate);
       try (intros ((_ & _ & ? & _) & _); discriminate) ].
  destruct (validate_status st); cbn [negb];
    [| cbn [fst snd Z.eqb Pos.eqb];
       repeat split; try (intros; lia || tauto || discriminate);
       try (intros (_ & _ & _ & ?); discriminate);
       try (intros ((_ & _ & _ & ?) & _); discriminate) ].
  assert (Haccepted : tn <> "" /\ st <> "" /\ true = true /\ true = true)
    by (repeat split; assumption).
  destruct db_ok; cbn [negb];
    [| cbn [fst snd Z.eqb Pos.eqb];
       repeat split; try (intros; lia || tauto || discriminate);
       try (intros (_ & ? & _); discriminate) ].
  destruct (select_by_number tn table) as [found|] eqn:E;
    cbn [fst snd Z.eqb Pos.eqb].
  - assert (Hin : In tn (List.map tracking_number table)).
    { apply find_some in E as [Hin Heq]. apply String.eqb_eq in Heq.
      apply in_map_iff. eauto. }
    repeat split; try (intros; lia || tauto || discriminate);
      try assumption.
    + apply map_tracking_number_update_rows.
    + apply update_rows_chat.
    + apply update_rows_In.
    + apply update_rows_In.
  - pose proof (select_by_number_None _ _ E) as Hnot.
    repeat split; try (intros; lia || tauto || discriminate); try assumption.
Qed.

(** ** Formatting tracking numbers and splitting commands *)

Lemma remove_spaces_idempotent s : remove_spaces (remove_spaces s) = remove_spaces s.
Proof.
  induction s as [|c s IH]; simpl; [reflexivity|].
  destruct (Ascii.eqb c " ") eqn:E; [exact IH|].
  simpl. rewrite E, IH. reflexivity.
Qed.

Lemma remove_spaces_no_space s :
  ~ In " "%char (String.list_ascii_of_string (remove_spaces s)).
Proof.
  induction s as [|c s IH]; simpl; [tauto|].
  destruct (Ascii.eqb_spec c " "); [exact IH|].
  simpl. intros [H | H]; [congruence | exact (IH H)].
Qed.

(** X7: [format_tracking_number] of the bot, on every [str], yields a text
    without spaces, changes nothing when applied again, and keeps validity:
    the result is valid exactly when the input is, and is then the thirteen
    characters of the number, in the format [[ERA][A-Z]\d{9}IN] as the
    validator reads it. On the texts of the bot it is [format_tracking_number]
    as modelled there. *)
Theorem format_tracking_number_canonical (decimal : N -> bool) (s : Unicode.str) :
  ~ In 32%N (Unicode.format_tracking_number s) /\
  Unicode.format_tracking_number (Unicode.format_tracking_number s)
  = Unicode.format_tracking_number s /\
  Unicode.is_valid_tracking_number decimal (Unicode.format_tracking_number s)
  = Unicode.is_valid_tracking_number decimal s /\
  (Unicode.is_valid_tracking_number decimal s = true ->
   List.length (Unicode.format_tracking_number s) = 13%nat /\
   Unicode.matches_format decimal (Unicode.format_tracking_number s)) /\
  (forall t : string,
     Unicode.format_tracking_number (Unicode.of_string t)
     = Unicode.of_string (format_tracking_number t)).
Proof.
  unfold Unicode.format_tracking_number, Unicode.is_valid_tracking_number.
  split; [apply unicode_remove_spaces_no_space|].
  split; [apply unicode_remove_spaces_idempotent|].
  split; [rewrite unicode_remove_spaces_idempotent; reflexivity|].
  split; [|exact of_string_remove_spaces].
  intros Hvalid. split.
  - apply (unicode_format_checks_length decimal), Hvalid.
  - apply unicode_format_checks_spec, Hvalid.
Qed.

Lemma format_tracking_number_canonical_witness :
  List.length
    (Unicode.format_tracking_number (32%N :: Unicode.arabic_indic_number ++ [32%N]))
  = 13%nat /\
  Unicode.matches_format Unicode.decimal_14
    (Unicode.format_tracking_number (32%N :: Unicode.arabic_indic_number ++ [32%N])).
Proof.
  apply (format_tracking_number_canonical Unicode.decimal_14
           (32%N :: Unicode.arabic_indic_number ++ [32%N])).
  reflexivity.
Defined.

Lemma append_cons c (a b : string) : String c a +:+ b = String c (a +:+ b).
Proof. reflexivity. Qed.

Lemma py_take_drop n s : py_take n s +:+ py_drop n s = s.
Proof.
  revert s. induction n as [|n IH]; intros [|c s]; simpl; try reflexivity.
  rewrite ?append_cons, IH. reflexivity.
Qed.

Lemma py_drop_drop a b s : py_drop b (py_drop a s) = py_drop (a + b) s.
Proof.
  revert s. induction a as [|a IH]; intros s; simpl; [reflexivity|].
  destruct s as [|c s]; [destruct b; reflexivity | apply IH].
Qed.

Lemma string_app_assoc (a b c : string) : (a +:+ b) +:+ c = a +:+ (b +:+ c).
Proof.
  induction a as [|x a IH]; simpl; [reflexivity|].
  rewrite ?append_cons, IH. reflexivity.
Qed.

Lemma display_pieces t :
  py_take 2 t +:+ py_slice 2 11 t +:+ py_drop 11 t = t.
Proof.
  unfold py_slice.
  replace (py_drop 11 t) with (py_drop (11 - 2) (py_drop 2 t))
    by (rewrite py_drop_drop; reflexivity).
  rewrite py_take_drop. apply py_take_drop.
Qed.

Lemma remove_spaces_skip a b :
  remove_spaces (a +:+ " " +:+ b) = remove_spaces (a +:+ b).
Proof. rewrite !remove_spaces_app. reflexivity. Qed.

(** X8: [format_tracking_number] of the admin panel only regroups the
    characters: after removing the spaces its result is the input without
    spaces. So it keeps validity, the bot's formatting undoes it, and a valid
    number comes out in the fifteen characters [XX ddddddddd IN]. *)
Theorem app_format_tracking_number_round_trip s :
  remove_spaces (App.format_tracking_number s) = remove_spaces s /\
  format_tracking_number (App.format_tracking_number s) = format_tracking_number s /\
  is_valid_tracking_number (App.format_tracking_number s) = is_valid_tracking_number s /\
  (is_valid_tracking_number s = true ->
   exists letters digits,
     App.format_tracking_number s = letters +:+ " " +:+ digits +:+ " IN" /\
     String.length letters = 2%nat /\ String.length digits = 9%nat /\
     format_tracking_number s = letters +:+ digits +:+ "IN").
Proof.
  assert (Hround : remove_spaces (App.format_tracking_number s) = remove_spaces s).
  { unfold App.format_tracking_number. cbv zeta.
    rewrite remove_spaces_skip, remove_spaces_app, remove_spaces_skip.
    rewrite <- remove_spaces_app, display_pieces.
    apply remove_spaces_idempotent. }
  split; [exact Hround|]. split; [exact Hround|].
  split; [unfold is_valid_tracking_number; rewrite Hround; reflexivity|].
  intros Hvalid. unfold is_valid_tracking_number in Hvalid.
  apply format_checks_shape in Hvalid as (c1 & c2 & ds & E & L).
  unfold App.format_tracking_number, format_tracking_number. cbv zeta. rewrite E.
  do 9 (destruct ds as [|? ds]; [discriminate L|]).
  destruct ds; [|discriminate L].
  eexists (String c1 (String c2 EmptyString)), _.
  split; [reflexivity|]. split; [reflexivity|]. split; reflexivity.
Qed.

Lemma app_format_tracking_number_round_trip_witness :
  App.format_tracking_number "EU430410927IN" = "EU 430410927 IN" /\
  format_tracking_number (App.format_tracking_number "EU430410927IN") = "EU430410927IN".
Proof.
  destruct (app_format_tracking_number_round_trip "EU430410927IN") as (_ & H & _).
  split; [reflexivity | exact H].
Defined.

Lemma string_of_rev_snoc c word :
  String.string_of_list_ascii (rev (c :: word))
  = String.string_of_list_ascii (rev word) +:+ String c EmptyString.
Proof.
  simpl. generalize (rev word). intros l.
  induction l as [|x l IH]; simpl; [reflexivity|].
  rewrite ?append_cons, IH. reflexivity.
Qed.

Lemma string_app_empty (s : string) : s +:+ "" = s.
Proof.
  induction s as [|c s IH]; simpl; [reflexivity|].
  rewrite ?append_cons, IH. reflexivity.
Qed.

Lemma has_whitespace_app a b :
  has_whitespace (a +:+ b) = has_whitespace a || has_whitespace b.
Proof.
  induction a as [|c a IH]; simpl; [reflexivity|].
  rewrite ?append_cons. simpl. rewrite IH, orb_assoc. reflexivity.
Qed.

Lemma concat_cons (x : string) (l : list string) :
  String.concat "" (x :: l) = x +:+ String.concat "" l.
Proof.
  destruct l as [|y l]; simpl; [symmetry; apply string_app_empty | reflexivity].
Qed.

Lemma split_from_words s : forall word,
  has_whitespace (String.string_of_list_ascii (rev word)) = false ->
  String.concat "" (split_from word s)
  = String.string_of_list_ascii (rev word) +:+ without_whitespace s /\
  Forall (fun w => w <> "" /\ has_whitespace w = false) (split_from word s).
Proof.
  induction s as [|c s IH]; intros word Hword; simpl.
  - destruct word as [|x word].
    + split; [reflexivity | constructor].
    + split; [cbn [String.concat]; symmetry; apply string_app_empty|].
      constructor; [|constructor]. split; [|exact Hword].
      rewrite string_of_rev_snoc. destruct (String.string_of_list_ascii (rev word));
        discriminate.
  - destruct (py_isspace c) eqn:Hc.
    + destruct (IH [] eq_refl) as [Hconcat Hall].
      destruct word as [|x word].
      * split; [exact Hconcat | exact Hall].
      * split.
        -- rewrite concat_cons, Hconcat. reflexivity.
        -- constructor; [|exact Hall]. split; [|exact Hword].
           rewrite string_of_rev_snoc.
           destruct (String.string_of_list_ascii (rev word)); discriminate.
    + destruct (IH (c :: word)) as [Hconcat Hall].
      * rewrite string_of_rev_snoc, has_whitespace_app, Hword. simpl.
        rewrite Hc. reflexivity.
      * split; [|exact Hall].
        rewrite Hconcat, string_of_rev_snoc, string_app_assoc. reflexivity.
Qed.

Lemma without_whitespace_clean s : has_whitespace s = false -> without_whitespace s = s.
Proof.
  induction s as [|c s IH]; simpl; [reflexivity|].
  destruct (py_isspace c); [discriminate|]. simpl. intros H. rewrite IH by exact H.
  reflexivity.
Qed.

Lemma no_whitespace_no_space s : has_whitespace s = false -> remove_spaces s = s.
Proof.
  induction s as [|c s IH]; simpl; [reflexivity|].
  destruct (py_isspace c) eqn:Hc; [discriminate|]. simpl. intros H.
  destruct (Ascii.eqb_spec c " ") as [-> | _]; [discriminate Hc|].
  rewrite IH by exact H. reflexivity.
Qed.

(** X9: [text.split()] cuts a text into words that are not empty and hold
    no whitespace; put together again they are the text without its
    whitespace. So what [run] passes on as command and arguments never
    contains a space or a tab, and a tracking number taken from a command is
    stored exactly as [format_tracking_number] shows it. *)
Theorem split_words_hold_no_whitespace text :
  Forall (fun word => word <> "" /\ has_whitespace word = false
                      /\ format_tracking_number word = word) (split text) /\
  String.concat "" (split text) = without_whitespace text.
Proof.
  destruct (split_from_words text [] eq_refl) as [Hconcat Hall].
  split; [|exact Hconcat].
  unfold split. eapply List.Forall_impl; [|exact Hall].
  intros word [Hne Hclean]. repeat split; try assumption.
  apply no_whitespace_no_space, Hclean.
Qed.

Example split_strips_every_whitespace :
  split (String "009" "/track" +:+ String "010" " EU430410927IN" +:+ String "013" "")
  = ["/track"; "EU430410927IN"].
Proof. reflexivity. Qed.

(** ** What a send delivers *)

Lemma deliveries_app l1 l2 : deliveries (l1 ++ l2) = (deliveries l1 + deliveries l2)%nat.
Proof. unfold deliveries. rewrite List.filter_app, length_app. reflexivity. Qed.

Lemma posted_to_app chat l1 l2 :
  posted_to chat (l1 ++ l2) = posted_to chat l1 ++ posted_to chat l2.
Proof. unfold posted_to. apply flat_map_app. Qed.

Lemma send_effects_deliveries chat msg n answer events :
  send_effects chat msg n answer events ->
  deliveries events = (if answer then 1 else 0)%nat /\
  Forall (eq msg) (posted_to chat events) /\
  (forall other, other <> chat -> posted_to other events = []).
Proof.
  induction 1 as [n | n | | n answer later _ (IHd & IHp & IHo)].
  - split; [reflexivity|]. split; [constructor|]. intros other _. reflexivity.
  - split; [reflexivity|]. split.
    + unfold posted_to. simpl. rewrite String.eqb_refl. repeat constructor.
    + intros other Hne. unfold posted_to. simpl.
      apply String.eqb_neq in Hne. rewrite String.eqb_sym, Hne. reflexivity.
  - split; [reflexivity|]. split.
    + unfold posted_to. simpl. rewrite String.eqb_refl. repeat constructor.
    + intros other Hne. unfold posted_to. simpl.
      apply String.eqb_neq in Hne. rewrite String.eqb_sym, Hne. reflexivity.
  - rewrite deliveries_app, posted_to_app. split; [exact IHd|]. split.
    + apply Forall_app. split; [|exact IHp].
      unfold posted_to. simpl. rewrite String.eqb_refl. repeat constructor.
    + intros other Hne. rewrite posted_to_app, (IHo other Hne).
      unfold posted_to. simpl.
      apply String.eqb_neq in Hne. rewrite String.eqb_sym, Hne. reflexivity.
Qed.

Section Delivery.

Context (env : Env).

(** X10: a call of [send_message] delivers the message at most once, and
    its answer tells whether it did: one request went through when it answers
    [True], none when it answers [False]. Whatever it posts is this message to
    this recipient; the table and the locals of [run] stay as they were. *)
Theorem send_message_delivers_at_most_once chat msg retry_count w :
  exists answer w' events,
    send_message env chat msg retry_count w = (Ok answer, w') /\
    trace w' = trace w ++ events /\
    deliveries events = (if answer then 1 else 0)%nat /\
    Forall (eq msg) (posted_to chat events) /\
    (forall other, other <> chat -> posted_to other events = []) /\
    untouched w w'.
Proof.
  unfold send_message.
  destruct (send_message_left_spec env (MAX_RETRIES - retry_count) chat msg w)
    as (answer & w' & events & E & Htr & Heff & Hsame & _).
  exists answer, w', events.
  destruct (send_effects_deliveries _ _ _ _ _ Heff) as (Hd & Hp & Ho).
  destruct Hsame as (Ht & Hoff & Hlc & Hlsc & _).
  repeat split; assumption.
Qed.

(** X11: when the limiter refuses the recipient at the clock reading the
    call takes, that is when [max_requests] or more of the recipient's
    timestamps are still within the window, [send_message] answers [False]
    without any request to Telegram and without a retry: it only prunes the
    recipient's list and logs a warning. *)
Theorem send_message_refused_posts_nothing chat msg retry_count w :
  max_requests (rate_limiter w)
  <= count_within (clock env (clock_reads w)) (time_window (rate_limiter w))
       (recorded chat (rate_limiter w)) ->
  fst (send_message env chat msg retry_count w) = Ok false /\
  trace (snd (send_message env chat msg retry_count w))
  = trace w ++ [Log WARNING (RateLimitExceeded chat)] /\
  posts (snd (send_message env chat msg retry_count w)) = posts w /\
  recorded chat (rate_limiter (snd (send_message env chat msg retry_count w)))
  = unexpired (clock env (clock_reads w)) chat (rate_limiter w).
Proof.
  intros Hfull. unfold send_message.
  rewrite send_message_left_step. cbv zeta.
  rewrite is_allowed_fst, unexpired_recorded, count_within_filter.
  apply Z.leb_le in Hfull. rewrite Hfull. cbn [negb fst snd].
  cbn [trace emit set_rate_limiter next_clock_read posts rate_limiter].
  repeat split.
  rewrite is_allowed_recorded, is_allowed_fst, unexpired_recorded, count_within_filter.
  rewrite Hfull. cbn [negb]. apply app_nil_r.
Qed.

Lemma is_allowed_with_room retries now chat rl :
  has_room_for (S retries) chat rl ->
  fst (is_allowed now chat rl) = true /\
  has_room_for retries chat (snd (is_allowed now chat rl)).
Proof.
  unfold has_room_for. intros Hroom.
  pose proof (filter_length_le (fun t => now - t <? time_window rl) (recorded chat rl))
    as Hle.
  rewrite <- unexpired_recorded in Hle.
  assert (Hallowed : fst (is_allowed now chat rl) = true).
  { rewrite is_allowed_fst.
    destruct (Z.leb_spec (max_requests rl)
                (Z.of_nat (List.length (unexpired now chat rl)))); [lia | reflexivity]. }
  split; [exact Hallowed|].
  rewrite is_allowed_recorded, Hallowed, length_app.
  destruct (is_allowed_parameters now chat rl) as [-> _].
  simpl List.length. lia.
Qed.

Lemma has_room_for_fewer retries chat rl :
  has_room_for (S retries) chat rl -> has_room_for retries chat rl.
Proof. unfold has_room_for. lia. Qed.

Lemma send_message_left_with_room n : forall chat msg w,
  has_room_for n chat (rate_limiter w) ->
  let failures := failures_before_delivery (delivers env) (posts w) (S n) in
  exists w',
    send_message_left env n chat msg w = (Ok (fst (retried_send chat msg n failures)), w') /\
    trace w' = trace w ++ snd (retried_send chat msg n failures) /\
    posts w' = (posts w + Nat.min (S failures) (S n))%nat.
Proof.
  induction n as [|n IH]; intros chat msg w Hroom; cbv zeta;
    rewrite send_message_left_step; cbv zeta.
  - assert (Hallowed : fst (is_allowed (clock env (clock_reads w)) chat (rate_limiter w))
                       = true).
    { unfold has_room_for in Hroom. rewrite is_allowed_fst.
      pose proof (filter_length_le
                    (fun t => clock env (clock_reads w) - t <? time_window (rate_limiter w))
                    (recorded chat (rate_limiter w))) as Hle.
      rewrite <- unexpired_recorded in Hle.
      destruct (Z.leb_spec (max_requests (rate_limiter w))
                  (Z.of_nat (List.length
                               (unexpired (clock env (clock_reads w)) chat
                                  (rate_limiter w))))); [lia | reflexivity]. }
    rewrite Hallowed. cbn [failures_before_delivery].
    destruct (delivers env (posts w)); eexists; (split; [reflexivity|]);
      cbn [retried_send fst snd Nat.leb Nat.min repeat concat app trace emit
           next_post set_rate_limiter next_clock_read posts];
      (split; [rewrite <- app_assoc; reflexivity | lia]).
  - destruct (is_allowed_with_room n (clock env (clock_reads w)) chat (rate_limiter w)
                Hroom) as [Hallowed Hnext].
    rewrite Hallowed. cbn [failures_before_delivery].
    destruct (delivers env (posts w)) eqn:Hd.
    + eexists. split; [reflexivity|].
      cbn [retried_send fst snd Nat.leb Nat.min repeat concat app trace emit
           next_post set_rate_limiter next_clock_read posts].
      split; [rewrite <- app_assoc; reflexivity | lia].
    + match goal with
      | |- context [send_message_left env n chat msg ?w0] =>
          destruct (IH chat msg w0 Hnext) as (w' & E & Htr & Hposts)
      end.
      cbv zeta in E, Htr, Hposts.
      cbn [posts emit next_post set_rate_limiter next_clock_read] in E, Htr, Hposts.
      exists w'. rewrite E.
      set (later := failures_before_delivery (delivers env) (S (posts w)) (S n))
        in *.
      split; [reflexivity|]. split.
      * rewrite Htr.
        cbn [trace emit next_post set_rate_limiter next_clock_read].
        unfold retried_send. cbn [fst snd Nat.leb Nat.min repeat concat].
        unfold retry_effects at 2. rewrite <- !app_assoc. reflexivity.
      * rewrite Hposts. subst later. cbn [failures_before_delivery].
        match goal with
        | |- context [if ?b then ?x else ?y] => generalize (if b then x else y)
        end.
        intros k. lia.
Qed.

Lemma is_allowed_refused_no_room retries now chat rl :
  fst (is_allowed now chat rl) = false -> ~ has_room_for retries chat rl.
Proof.
  unfold has_room_for. intros Hrefused Hroom.
  pose proof (filter_length_le (fun t => now - t <? time_window rl) (recorded chat rl))
    as Hle.
  rewrite <- unexpired_recorded in Hle.
  rewrite is_allowed_fst in Hrefused.
  destruct (Z.leb_spec (max_requests rl)
              (Z.of_nat (List.length (unexpired now chat rl)))); [lia | discriminate].
Qed.

Lemma send_message_left_shape n : forall chat msg w,
  exists answer w' retries ending,
    send_message_left env n chat msg w = (Ok answer, w') /\
    trace w'
    = trace w ++ concat (repeat (retry_effects chat msg) retries)
        ++ ending_effects chat msg ending /\
    (retries <= n)%nat /\
    (forall i, (i < retries)%nat -> delivers env (posts w + i) = false) /\
    match ending with
    | Delivered => answer = true /\ delivers env (posts w + retries) = true
    | Exhausted =>
        answer = false /\ retries = n /\ delivers env (posts w + retries) = false
    | Refused => answer = false /\ ~ has_room_for n chat (rate_limiter w)
    end.
Proof.
  induction n as [|n IH]; intros chat msg w;
    rewrite send_message_left_step; cbv zeta;
    destruct (fst (is_allowed (clock env (clock_reads w)) chat (rate_limiter w)))
      eqn:Hallowed.
  - destruct (delivers env (posts w)) eqn:Hd.
    + do 2 eexists. exists 0%nat, Delivered. split; [reflexivity|].
      cbn [repeat concat ending_effects app trace emit].
      split; [rewrite <- app_assoc; reflexivity|]. split; [lia|].
      split; [intros i Hi; lia|]. rewrite Nat.add_0_r. auto.
    + do 2 eexists. exists 0%nat, Exhausted. split; [reflexivity|].
      cbn [repeat concat ending_effects app trace emit].
      split; [rewrite <- app_assoc; reflexivity|]. split; [lia|].
      split; [intros i Hi; lia|]. rewrite Nat.add_0_r. auto.
  - do 2 eexists. exists 0%nat, Refused. split; [reflexivity|].
    cbn [repeat concat ending_effects app trace emit].
    split; [reflexivity|]. split; [lia|]. split; [intros i Hi; lia|].
    split; [reflexivity|]. apply (is_allowed_refused_no_room _ _ _ _ Hallowed).
  - destruct (delivers env (posts w)) eqn:Hd.
    + do 2 eexists. exists 0%nat, Delivered. split; [reflexivity|].
      cbn [repeat concat ending_effects app trace emit].
      split; [rewrite <- app_assoc; reflexivity|]. split; [lia|].
      split; [intros i Hi; lia|]. rewrite Nat.add_0_r. auto.
    + match goal with
      | |- context [send_message_left env n chat msg ?w0] =>
          destruct (IH chat msg w0)
            as (answer & w' & retries & ending & E & Htr & Hle & Hfailed & Hending)
      end.
      cbn [posts emit next_post set_rate_limiter next_clock_read rate_limiter trace]
        in Htr, Hfailed, Hending.
      exists answer, w', (S retries), ending. split; [exact E|].
      split.
      { rewrite Htr. cbn [repeat concat]. unfold retry_effects at 2.
        rewrite <- !app_assoc. reflexivity. }
      split; [lia|]. split.
      { intros [|i] Hi; [rewrite Nat.add_0_r; exact Hd|].
        replace (posts w + S i)%nat with (S (posts w) + i)%nat by lia.
        apply Hfailed. lia. }
      replace (posts w + S retries)%nat with (S (posts w) + retries)%nat by lia.
      destruct ending.
      * exact Hending.
      * destruct Hending as (Ha & Hr & Hdel). repeat split; [exact Ha | lia | exact Hdel].
      * destruct Hending as [Ha Hno]. split; [exact Ha|].
        intros Hroom. apply Hno.
        apply (is_allowed_with_room n (clock env (clock_reads w)) chat (rate_limiter w)
                 Hroom).
  - do 2 eexists. exists 0%nat, Refused. split; [reflexivity|].
    cbn [repeat concat ending_effects app trace emit].
    split; [reflexivity|]. split; [lia|]. split; [intros i Hi; lia|].
    split; [reflexivity|]. apply (is_allowed_refused_no_room _ _ _ _ Hallowed).
Qed.

(** C8: [send_message] never raises: it always answers [True] or [False].
    Every request that fails while a retry is left is followed by a pause of
    [RETRY_DELAY] (one second) and another attempt, up to [MAX_RETRIES]
    (three) retries, and the call ends in one of three ways: with the first
    request that goes through, answering [True]; with the failure of the
    request after the third retry, which it logs as an error, answering
    [False]; or with the refusal of the rate limiter, which is asked before
    each request, answering [False]. Nothing else is posted, logged or slept.
    When the rate limiter has room for the call and its retries it does not
    refuse, and the number of retries is the number of requests that fail
    before one goes through, or three. *)
Theorem send_message_retries_then_gives_up chat msg w :
  (exists answer w' retries ending,
     send_message env chat msg 0 w = (Ok answer, w') /\
     trace w'
     = trace w ++ concat (repeat (retry_effects chat msg) retries)
         ++ ending_effects chat msg ending /\
     (retries <= MAX_RETRIES)%nat /\
     (forall i, (i < retries)%nat -> delivers env (posts w + i) = false) /\
     match ending with
     | Delivered => answer = true /\ delivers env (posts w + retries) = true
     | Exhausted =>
         answer = false /\ retries = MAX_RETRIES /\
         delivers env (posts w + retries) = false
     | Refused =>
         answer = false /\ ~ has_room_for MAX_RETRIES chat (rate_limiter w)
     end) /\
  (has_room_for MAX_RETRIES chat (rate_limiter w) ->
   let failures :=
     failures_before_delivery (delivers env) (posts w) (S MAX_RETRIES) in
   exists w',
     send_message env chat msg 0 w
     = (Ok (fst (retried_send chat msg MAX_RETRIES failures)), w') /\
     trace w' = trace w ++ snd (retried_send chat msg MAX_RETRIES failures) /\
     posts w' = (posts w + Nat.min (S failures) (S MAX_RETRIES))%nat) /\
  MAX_RETRIES = 3%nat /\ RETRY_DELAY = 1.
Proof.
  split; [|split; [|split; reflexivity]].
  - unfold send_message. rewrite Nat.sub_0_r. apply send_message_left_shape.
  - intros Hroom. unfold send_message. rewrite Nat.sub_0_r.
    apply send_message_left_with_room. exact Hroom.
Qed.

End Delivery.

Lemma send_message_refused_posts_nothing_witness :
  let env := healthy_env (readings [30]) [] in
  let w := set_rate_limiter
             {| max_requests := 2; time_window := 60;
                requests := {[ "7" := [0; 10] ]} |} (initial_world []) in
  fst (send_message env "7" HELP_MESSAGE 0 w) = Ok false /\
  posts (snd (send_message env "7" HELP_MESSAGE 0 w)) = 0%nat.
Proof.
  intros env w.
  destruct (send_message_refused_posts_nothing env "7" HELP_MESSAGE 0 w)
    as (Hanswer & _ & Hposts & _).
  - vm_compute. discriminate.
  - split; [exact Hanswer | exact Hposts].
Defined.

Lemma send_message_retries_then_gives_up_witness :
  (let env := outage_env (readings [0; 1; 2; 3]) [] in
   fst (send_message env "7" HELP_MESSAGE 0 (initial_world [])) = Ok false /\
   trace (snd (send_message env "7" HELP_MESSAGE 0 (initial_world [])))
   = [Post "7" HELP_MESSAGE false; Log WARNING (RetryingSend "7"); Sleep 1;
      Post "7" HELP_MESSAGE false; Log WARNING (RetryingSend "7"); Sleep 1;
      Post "7" HELP_MESSAGE false; Log WARNING (RetryingSend "7"); Sleep 1;
      Post "7" HELP_MESSAGE false; Log ERROR (SendFailed "7")]) /\
  (let env := flaky_env 2 (readings [0; 1; 2; 3]) in
   fst (send_message env "7" HELP_MESSAGE 0 (initial_world [])) = Ok true /\
   trace (snd (send_message env "7" HELP_MESSAGE 0 (initial_world [])))
   = [Post "7" HELP_MESSAGE false; Log WARNING (RetryingSend "7"); Sleep 1;
      Post "7" HELP_MESSAGE false; Log WARNING (RetryingSend "7"); Sleep 1;
      Post "7" HELP_MESSAGE true; Log INFO (MessageSent "7")]).
Proof.
  assert (Hroom : has_room_for MAX_RETRIES "7" (rate_limiter (initial_world [])))
    by (vm_compute; reflexivity).
  split; intros env.
  - destruct (send_message_retries_then_gives_up env "7" HELP_MESSAGE (initial_world []))
      as (_ & Hexact & _).
    destruct (Hexact Hroom) as (w' & E & Htrace & _).
    rewrite E. split; [reflexivity | exact Htrace].
  - destruct (send_message_retries_then_gives_up env "7" HELP_MESSAGE (initial_world []))
      as (_ & Hexact & _).
    destruct (Hexact Hroom) as (w' & E & Htrace & _).
    rewrite E. split; [reflexivity | exact Htrace].
Defined.


(** ** The dispatch of commands *)

Lemma keeps_bind {A B} (R : World -> World -> Prop) (m : M A) (k : A -> M B) :
  (forall w1 w2 w3, R w1 w2 -> R w2 w3 -> R w1 w3) ->
  keeps R m -> (forall a, keeps R (k a)) -> keeps R (bind m k).
Proof.
  intros Htrans Hm Hk w. unfold bind. specialize (Hm w).
  destruct (m w) as [[a|e] w1]; cbn [snd] in *; [|exact Hm].
  eapply Htrans; [exact Hm | apply Hk].
Qed.

Lemma returns_bind {A B} (m : M A) (k : A -> M B) :
  returns m -> (forall a, returns (k a)) -> returns (bind m k).
Proof.
  intros Hm Hk w. unfold bind. destruct (Hm w) as (a & w1 & ->). apply Hk.
Qed.

Lemma returns_ret {A} (a : A) : returns (ret a).
Proof. intros w. eexists _, _. reflexivity. Qed.

Lemma after_commands_refl w : after_commands w w.
Proof.
  split; [reflexivity|]. split; [reflexivity|].
  exists []. split; [symmetry; apply app_nil_r | constructor].
Qed.

Lemma after_commands_trans w1 w2 w3 :
  after_commands w1 w2 -> after_commands w2 w3 -> after_commands w1 w3.
Proof.
  intros (Hc1 & Hs1 & a1 & Ht1 & Hr1) (Hc2 & Hs2 & a2 & Ht2 & Hr2).
  split; [congruence|]. split; [congruence|].
  exists (a1 ++ a2). split.
  - rewrite Ht2, Ht1, <- app_assoc. reflexivity.
  - apply Forall_app. split; assumption.
Qed.

Lemma after_commands_same w w' :
  last_check w' = last_check w -> last_status_check w' = last_status_check w ->
  tracking w' = tracking w -> after_commands w w'.
Proof.
  intros Hc Hs Ht. split; [exact Hc|]. split; [exact Hs|].
  exists []. split; [rewrite Ht; symmetry; apply app_nil_r | constructor].
Qed.

Section Dispatch.

Context (env : Env).

Lemma send_message_returns chat msg retry_count : returns (send_message env chat msg retry_count).
Proof.
  intros w. unfold send_message.
  destruct (send_message_left_spec env (MAX_RETRIES - retry_count) chat msg w)
    as (answer & w' & events & E & _).
  eauto.
Qed.

Lemma send_message_keeps chat msg retry_count :
  keeps after_commands (send_message env chat msg retry_count) /\
  forall w, offset (snd (send_message env chat msg retry_count w)) = offset w.
Proof.
  split; intros w; unfold send_message;
    destruct (send_message_left_spec env (MAX_RETRIES - retry_count) chat msg w)
      as (answer & w' & events & -> & _ & _ & (Ht & Ho & Hc & Hs & _) & _);
    cbn [snd]; [apply after_commands_same; assumption | exact Ho].
Qed.

(** A reply to a command: one call of [send_message] whose answer is
    dropped. *)
Lemma reply_returns chat msg :
  returns (send_message env chat msg 0 ;; ret tt).
Proof. apply returns_bind; [apply send_message_returns | intros; apply returns_ret]. Qed.

Lemma reply_keeps chat msg w :
  after_commands w (snd ((send_message env chat msg 0 ;; ret tt) w)) /\
  offset (snd ((send_message env chat msg 0 ;; ret tt) w)) = offset w.
Proof.
  destruct (send_message_keeps chat msg 0) as [Hk Ho].
  specialize (Hk w). specialize (Ho w). unfold bind, ret.
  destruct (send_message env chat msg 0 w) as [[a|e] w']; cbn [snd] in *; auto.
Qed.

Lemma add_tracking_eq info w :
  add_tracking env info w =
    if db_ok env (db_ops w) then
      match select_by_number (tracking_number info) (tracking w) with
      | Some _ =>
          (Ok false,
           set_tracking (tracking w)
             (emit (Log INFO (AlreadyExists (tracking_number info))) (next_db_op w)))
      | None => (Ok true, set_tracking (tracking w ++ [info]) (next_db_op w))
      end
    else (Ok false, emit (Log ERROR DatabaseErrorAdding) (next_db_op w)).
Proof.
  unfold add_tracking, with_connection, bind, gets, modify, log, ret, insert_row. simpl.
  destruct (db_ok env (db_ops w)); [|reflexivity].
  change (tracking (next_db_op w)) with (tracking w).
  destruct (select_by_number (tracking_number info) (tracking w)); reflexivity.
Qed.

(** X12: what [/track] does. [handle_track_command] never raises, leaves
    the locals of [run] alone and ends in one reply. For an invalid number
    the reply is the format error and nothing else happens, not even a clock
    reading. For a valid number that is registered already, or when the
    database fails, the reply is the registration error and the table is
    unchanged. Otherwise one row is appended, with the recipient, the number
    as given, the status [Order Placed] and the clock reading, and the reply
    is the confirmation with the formatted number. *)
Theorem handle_track_command_outcome chat tn w :
  exists reply w1,
    handle_track_command env chat tn w
    = (send_message env chat reply 0 ;; ret tt) w1 /\
    same_locals w w1 /\
    ((reply = INVALID_TRACKING_MESSAGE /\ is_valid_tracking_number tn = false /\
      w1 = w)
     \/ (reply = REGISTRATION_ERROR /\ is_valid_tracking_number tn = true /\
         tracking w1 = tracking w /\
         (db_ok env (db_ops w) = false \/ In tn (List.map tracking_number (tracking w))))
     \/ (reply = NEW_TRACKING_STARTED (format_tracking_number tn) /\
         is_valid_tracking_number tn = true /\
         db_ok env (db_ops w) = true /\
         ~ In tn (List.map tracking_number (tracking w)) /\
         tracking w1 = tracking w ++ [new_row chat tn (clock env (clock_reads w))])).
Proof.
  unfold handle_track_command.
  destruct (is_valid_tracking_number tn) eqn:Hvalid; cbn [negb].
  - unfold bind at 1, time_time at 1. unfold bind at 1.
    fold (new_row chat tn (clock env (clock_reads w))).
    rewrite add_tracking_eq. cbn [db_ops next_clock_read tracking tracking_number new_row].
    destruct (db_ok env (db_ops w)) eqn:Hdb.
    + destruct (select_by_number tn (tracking w)) as [found|] eqn:Hsel.
      * eexists REGISTRATION_ERROR, _. split; [reflexivity|].
        split; [repeat split|]. right. left.
        repeat split. right.
        apply find_some in Hsel as [Hin Heq]. apply String.eqb_eq in Heq.
        apply in_map_iff. eauto.
      * eexists (NEW_TRACKING_STARTED _), _. split; [reflexivity|].
        split; [repeat split|]. right. right.
        repeat split. apply (select_by_number_None _ _ Hsel).
    + eexists REGISTRATION_ERROR, _. split; [reflexivity|].
      split; [repeat split|]. right. left. repeat split. left. reflexivity.
  - exists INVALID_TRACKING_MESSAGE, w. split; [reflexivity|].
    split; [repeat split|]. left. repeat split.
Qed.

Lemma registered_new_row chat tn now :
  is_valid_tracking_number tn = true -> registered (new_row chat tn now).
Proof. intros H. split; [reflexivity | exact H]. Qed.

Lemma handle_track_command_frame chat tn w :
  exists w',
    handle_track_command env chat tn w = (Ok tt, w') /\
    after_commands w w' /\ offset w' = offset w.
Proof.
  assert (Hreply : forall reply w1,
            after_commands w w1 -> offset w1 = offset w ->
            exists w',
              (send_message env chat reply 0 ;; ret tt) w1 = (Ok tt, w') /\
              after_commands w w' /\ offset w' = offset w).
  { intros reply w1 Hafter Hoff.
    destruct (reply_returns chat reply w1) as ([] & w' & E).
    destruct (reply_keeps chat reply w1) as [Hk Ho]. rewrite E in Hk, Ho.
    cbn [snd] in Hk, Ho.
    exists w'. split; [exact E|].
    split; [eapply after_commands_trans; eassumption | congruence]. }
  unfold handle_track_command.
  destruct (is_valid_tracking_number tn) eqn:Hvalid; cbn [negb].
  - unfold bind at 1, time_time at 1. unfold bind at 1.
    fold (new_row chat tn (clock env (clock_reads w))).
    rewrite add_tracking_eq.
    cbn [db_ops next_clock_read tracking tracking_number new_row].
    destruct (db_ok env (db_ops w));
      [destruct (select_by_number tn (tracking w))|];
      apply Hreply; try reflexivity; try (apply after_commands_same; reflexivity).
    split; [reflexivity|]. split; [reflexivity|].
    eexists. split; [reflexivity|].
    constructor; [apply registered_new_row, Hvalid | constructor].
  - apply Hreply; [apply after_commands_refl | reflexivity].
Qed.

Lemma format_items_spec items : forall w,
  match format_items env items w with
  | (Ok blocks, w') => w' = w /\ listing_of (strftime env) items blocks
  | (Raised e, w') =>
      w' = w /\
      exists item, In item items /\ strftime env (snd item) = None /\
                   e = FromTimestampError (snd item)
  end.
Proof.
  induction items as [|[[[tn st] details] updated] rest IH]; intros w.
  - simpl. split; [reflexivity | exact I].
  - cbn [format_items]. unfold bind at 1, format_status_message.
    destruct (strftime env updated) as [time_str|] eqn:Htime.
    + unfold ret at 1. unfold bind at 1. specialize (IH w).
      destruct (format_items env rest w) as [[blocks|e] w'].
      * destruct IH as [-> Hrest]. unfold ret. split; [reflexivity|].
        cbn [listing_of]. split; [|exact Hrest].
        exists time_str. split; [exact Htime | reflexivity].
      * destruct IH as [-> (item & Hin & Hnone & ->)]. split; [reflexivity|].
        exists item. split; [right; exact Hin | split; [exact Hnone | reflexivity]].
    + unfold raise. split; [reflexivity|].
      exists (tn, st, details, updated).
      split; [left; reflexivity | split; [exact Htime | reflexivity]].
Qed.

(** X13: what [/status] does. [handle_status_command] reads the rows of the
    recipient, most recently updated first. With no row, or when the database
    cannot be read, it replies that nothing is tracked. Otherwise it replies
    with one listing that holds a block per row in that order, the footer on
    the last block only; but if the time of some row cannot be rendered it
    raises and replies nothing. The table and the locals of [run] are never
    changed. *)
Theorem handle_status_command_outcome chat w :
  let items :=
    if db_ok env (db_ops w)
    then List.map selected_columns
           (order_by_last_updated_desc (rows_of_chat chat (tracking w)))
    else [] in
  exists w1,
    get_tracking_by_chat_id env chat w = (Ok items, w1) /\
    untouched w w1 /\
    ((items = [] /\
      handle_status_command env chat w
      = (send_message env chat NO_TRACKING_MESSAGE 0 ;; ret tt) w1)
     \/ (items <> [] /\
         exists blocks,
           listing_of (strftime env) items blocks /\
           handle_status_command env chat w
           = (send_message env chat (TRACKED_PACKAGES blocks) 0 ;; ret tt) w1)
     \/ (exists item,
           In item items /\ strftime env (snd item) = None /\
           handle_status_command env chat w
           = (Raised (FromTimestampError (snd item)), w1))).
Proof.
  intros items.
  set (w1 := if db_ok env (db_ops w)
             then set_tracking (tracking w) (next_db_op w)
             else emit (Log ERROR DatabaseErrorFetching) (next_db_op w)).
  assert (Hread : get_tracking_by_chat_id env chat w = (Ok items, w1)).
  { rewrite get_tracking_by_chat_id_eq. subst items w1.
    destruct (db_ok env (db_ops w)); reflexivity. }
  assert (Hcmd : handle_status_command env chat w
                 = match items with
                   | [] => (send_message env chat NO_TRACKING_MESSAGE 0 ;; ret tt) w1
                   | _ :: _ =>
                       (blocks <- format_items env items ;;
                        send_message env chat (TRACKED_PACKAGES blocks) 0 ;; ret tt) w1
                   end).
  { unfold handle_status_command, bind at 1. rewrite Hread.
    destruct items; reflexivity. }
  exists w1. split; [exact Hread|]. split.
  { subst w1. destruct (db_ok env (db_ops w)); repeat split. }
  rewrite Hcmd. clear Hcmd Hread.
  destruct items as [|item rest] eqn:E.
  - left. split; reflexivity.
  - pose proof (format_items_spec (item :: rest) w1) as Hfmt.
    change ((blocks <- format_items env (item :: rest) ;;
             send_message env chat (TRACKED_PACKAGES blocks) 0 ;; ret tt) w1)
      with (match format_items env (item :: rest) w1 with
            | (Ok blocks, w') =>
                (send_message env chat (TRACKED_PACKAGES blocks) 0 ;; ret tt) w'
            | (Raised e, w') => (Raised e, w')
            end).
    destruct (format_items env (item :: rest) w1) as [[blocks|e] w'].
    + destruct Hfmt as [-> Hlisting]. right. left.
      split; [discriminate|]. exists blocks. split; [exact Hlisting | reflexivity].
    + destruct Hfmt as [-> (bad & Hin & Hnone & ->)]. right. right.
      exists bad. split; [exact Hin | split; [exact Hnone | reflexivity]].
Qed.

Lemma reply_frame chat reply source w0 w :
  after_commands w0 w -> offset w = offset w0 ->
  command_frame source w0 ((send_message env chat reply 0 ;; ret tt) w).
Proof.
  intros H0 Hoff.
  destruct (reply_keeps chat reply w) as [Hk Ho].
  destruct (reply_returns chat reply w) as ([] & w' & Hr).
  rewrite Hr in Hk, Ho |- *. cbn [fst snd] in *.
  split; [eapply after_commands_trans; eassumption|].
  split; [cbn [snd]; congruence | discriminate].
Qed.

Lemma handle_status_command_frame chat w :
  command_frame (unrenderable_for (strftime env) chat w) w
    (handle_status_command env chat w).
Proof.
  unfold handle_status_command, bind at 1. rewrite get_tracking_by_chat_id_eq.
  destruct (db_ok env (db_ops w)).
  - set (w1 := set_tracking (tracking w) (next_db_op w)).
    assert (H1 : after_commands w w1) by (apply after_commands_same; reflexivity).
    destruct (List.map selected_columns _) as [|item items] eqn:E.
    + apply reply_frame; [exact H1 | reflexivity].
    + pose proof (format_items_spec (item :: items) w1) as Hfmt.
      unfold bind at 1.
      destruct (format_items env (item :: items) w1) as [[blocks|e] w'].
      * destruct Hfmt as [-> _]. apply reply_frame; [exact H1 | reflexivity].
      * destruct Hfmt as [-> (bad & Hin & Hnone & ->)].
        split; [exact H1|]. split; [reflexivity|].
        cbn [fst]. intros e [= <-]. rewrite <- E in Hin.
        apply in_map_iff in Hin as (row & <- & Hrow).
        apply (Permutation_in _ (order_by_last_updated_desc_perm _)) in Hrow.
        apply filter_In in Hrow as [Hrow Hchat]. apply String.eqb_eq in Hchat.
        exists row. repeat split; assumption.
  - apply reply_frame; [apply after_commands_same|]; reflexivity.
Qed.

Lemma handle_command_frame chat command args w0 w :
  after_commands w0 w -> offset w = offset w0 -> tracking w = tracking w0 ->
  command_frame (unrenderable_for (strftime env) chat w0) w0
    (handle_command env chat command args w).
Proof.
  intros H0 Hoff Htab.
  unfold handle_command. cbv zeta.
  destruct (String.eqb (lower command) "/help"); [apply reply_frame; assumption|].
  destruct (String.eqb (lower command) "/track").
  - destruct args as [|arg0 args]; [apply reply_frame; assumption|].
    destruct (handle_track_command_frame chat arg0 w) as (w' & -> & Hk & Ho).
    split; [eapply after_commands_trans; eassumption|].
    split; [cbn [snd]; congruence | discriminate].
  - destruct (String.eqb (lower command) "/status"); [|apply reply_frame; assumption].
    destruct (handle_status_command_frame chat w) as (Hk & Ho & Hsrc).
    split; [eapply after_commands_trans; eassumption|].
    split; [congruence|].
    intros e He. destruct (Hsrc e He) as (row & Hin & Hrest).
    exists row. rewrite <- Htab. split; assumption.
Qed.

Lemma handle_update_without_text update w :
  has_text update = false -> handle_update env update w = (Ok tt, w).
Proof.
  unfold has_text, handle_update.
  destruct (message update) as [msg|]; [|reflexivity].
  destruct (text msg); [discriminate | reflexivity].
Qed.

Lemma handle_update_frame update w :
  after_commands w (snd (handle_update env update w)) /\
  offset (snd (handle_update env update w))
  = (if has_text update then Some (update_id update + 1) else offset w).
Proof.
  destruct (has_text update) eqn:Htext;
    [|rewrite (handle_update_without_text update w Htext);
      split; [apply after_commands_refl | reflexivity]].
  remember (handle_update env update w) as res eqn:Hres.
  unfold has_text in Htext. unfold handle_update in Hres.
  destruct (message update) as [msg|]; [|discriminate].
  destruct (text msg) as [txt|]; [|discriminate].
  unfold bind at 1, modify at 1 in Hres.
  set (w0 := set_offset (Some (update_id update + 1)) w) in Hres.
  assert (H0 : after_commands w w0) by (apply after_commands_same; reflexivity).
  destruct (starts_with_slash txt) eqn:Hslash.
  - destruct (split txt) as [|command args] eqn:Hsplit;
      [exfalso; exact (command_unpacks txt Hslash Hsplit)|].
    unfold bind at 1, log at 1, modify at 1 in Hres.
    set (w1 := emit (Log INFO (ReceivedCommand command args)) w0) in Hres.
    subst res.
    destruct (handle_command_frame (pretty (chat msg)) command args w1 w1)
      as (Hk & Ho & _); [apply after_commands_refl | reflexivity | reflexivity |].
    split; [|exact Ho].
    eapply after_commands_trans; [exact H0|].
    eapply after_commands_trans; [|exact Hk].
    apply after_commands_same; reflexivity.
  - subst res.
    destruct (reply_frame (pretty (chat msg)) HELP_MESSAGE (fun _ => False) w0 w0)
      as (Hk & Ho & _); [apply after_commands_refl | reflexivity |].
    split; [exact (after_commands_trans _ _ _ H0 Hk) | exact Ho].
Qed.

(** X14: the one way the dispatch of an update can raise. [handle_update]
    raises only for a [/status] command of a recipient one of whose rows
    carries a timestamp that [datetime.fromtimestamp] cannot render; the
    unpacking of the command never fails. So with renderable timestamps in
    the table no command makes the round end early. *)
Theorem dispatch_raises_only_on_unrenderable_row update w e :
  fst (handle_update env update w) = Raised e ->
  exists msg txt row,
    message update = Some msg /\ text msg = Some txt /\
    lower (hd "" (split txt)) = "/status" /\
    In row (tracking w) /\ chat_id row = pretty (chat msg) /\
    strftime env (last_updated row) = None /\
    e = FromTimestampError (last_updated row).
Proof.
  unfold handle_update.
  destruct (message update) as [msg|]; [|discriminate].
  destruct (text msg) as [txt|] eqn:Htxt; [|discriminate].
  unfold bind at 1, modify at 1.
  set (w0 := set_offset (Some (update_id update + 1)) w).
  destruct (starts_with_slash txt) eqn:Hslash.
  - destruct (split txt) as [|command args] eqn:Hsplit;
      [exfalso; exact (command_unpacks txt Hslash Hsplit)|].
    unfold bind at 1, log at 1, modify at 1.
    set (w1 := emit (Log INFO (ReceivedCommand command args)) w0).
    intros Hraised.
    assert (Hstatus : lower command = "/status").
    { revert Hraised. unfold handle_command. cbv zeta.
      destruct (String.eqb (lower command) "/help");
        [destruct (reply_returns (pretty (chat msg)) HELP_MESSAGE w1) as (? & ? & ->);
         discriminate|].
      destruct (String.eqb (lower command) "/track").
      - destruct args as [|arg0 args'].
        + destruct (reply_returns (pretty (chat msg)) TRACK_USAGE_MESSAGE w1)
            as (? & ? & ->). discriminate.
        + destruct (handle_track_command_frame (pretty (chat msg)) arg0 w1)
            as (? & -> & _). discriminate.
      - destruct (String.eqb_spec (lower command) "/status"); [auto|].
        destruct (reply_returns (pretty (chat msg)) UNKNOWN_COMMAND_MESSAGE w1)
          as (? & ? & ->). discriminate. }
    destruct (handle_command_frame (pretty (chat msg)) command args w1 w1)
      as (_ & _ & Hsource); [apply after_commands_refl | reflexivity | reflexivity |].
    destruct (Hsource e Hraised) as (row & Hin & Hchat & Hnone & ->).
    exists msg, txt, row. rewrite Hsplit.
    repeat split; solve [assumption | exact Hin].
  - destruct (reply_returns (pretty (chat msg)) HELP_MESSAGE w0) as (? & ? & ->).
    discriminate.
Qed.

(** X15: what a batch of updates leaves behind. Whether the loop over the
    updates ends or raises, the checkpoints and the time of the last check
    are as before, every row of the table is still there, and the rows added
    have a valid number and the status [Order Placed]. When the loop ends,
    the cursor stands one past the last update that carried a text: updates
    without text never move it. *)
Theorem commands_leave_checkpoints_and_rows updates : forall w,
  after_commands w (snd (for_each (handle_update env) updates w)) /\
  (fst (for_each (handle_update env) updates w) = Ok tt ->
   offset (snd (for_each (handle_update env) updates w))
   = cursor_after (offset w) updates).
Proof.
  induction updates as [|update rest IH]; intros w; simpl.
  - split; [apply after_commands_refl | reflexivity].
  - unfold bind.
    destruct (handle_update_frame update w) as [Hk Ho].
    destruct (handle_update env update w) as [[[]|e] w1]; cbn [fst snd] in *.
    + destruct (IH w1) as [Hk' Ho'].
      split; [eapply after_commands_trans; eassumption|].
      intros Hok. rewrite (Ho' Hok), Ho. reflexivity.
    + split; [exact Hk | discriminate].
Qed.

End Dispatch.

Lemma dispatch_raises_only_on_unrenderable_row_witness :
  exists msg txt row,
    message (command_from 1 1 "/status") = Some msg /\ text msg = Some txt /\
    lower (hd "" (split txt)) = "/status" /\
    In row (tracking (initial_world [unrenderable_row])) /\
    chat_id row = pretty (chat msg) /\
    strftime (healthy_env (readings [100]) []) (last_updated row) = None /\
    FromTimestampError (10 ^ 18) = FromTimestampError (last_updated row).
Proof.
  apply (dispatch_raises_only_on_unrenderable_row (healthy_env (readings [100]) [])
           (command_from 1 1 "/status") (initial_world [unrenderable_row])).
  vm_compute. reflexivity.
Defined.
(** ** What a message can add to the table *)

Section Registration.

Context (env : Env).

Lemma reply_tracking chat msg w :
  tracking (snd ((send_message env chat msg 0 ;; ret tt) w)) = tracking w.
Proof.
  unfold bind, ret, send_message.
  destruct (send_message_left_spec env (MAX_RETRIES - 0) chat msg w)
    as (answer & w' & events & -> & _ & _ & (Ht & _) & _).
  exact Ht.
Qed.

Lemma handle_track_command_added chat tn w :
  tracking (snd (handle_track_command env chat tn w)) = tracking w \/
  (is_valid_tracking_number tn = true /\
   ~ In tn (List.map tracking_number (tracking w)) /\
   tracking (snd (handle_track_command env chat tn w))
   = tracking w ++ [new_row chat tn (clock env (clock_reads w))]).
Proof.
  remember (handle_track_command env chat tn w) as res eqn:Hres.
  unfold handle_track_command in Hres.
  destruct (is_valid_tracking_number tn) eqn:Hvalid; cbn [negb] in Hres;
    [|left; subst res; apply reply_tracking].
  unfold bind at 1, time_time at 1 in Hres. unfold bind at 1 in Hres.
  fold (new_row chat tn (clock env (clock_reads w))) in Hres.
  rewrite add_tracking_eq in Hres.
  cbn [db_ops next_clock_read tracking tracking_number new_row] in Hres.
  destruct (db_ok env (db_ops w));
    [destruct (select_by_number tn (tracking w)) eqn:Hsel|];
    subst res; rewrite reply_tracking; [left | right | left]; try reflexivity.
  split; [reflexivity|]. split; [|reflexivity].
  exact (select_by_number_None _ _ Hsel).
Qed.

Lemma handle_status_command_tracking chat w :
  tracking (snd (handle_status_command env chat w)) = tracking w.
Proof.
  unfold handle_status_command, bind at 1. rewrite get_tracking_by_chat_id_eq.
  destruct (db_ok env (db_ops w)); [|rewrite reply_tracking; reflexivity].
  destruct (List.map selected_columns _) as [|item items];
    [rewrite reply_tracking; reflexivity|].
  pose proof (format_items_spec env (item :: items)
                (set_tracking (tracking w) (next_db_op w))) as Hfmt.
  unfold bind at 1.
  destruct (format_items env (item :: items) _) as [[blocks|e] w'];
    destruct Hfmt as [-> _]; [rewrite reply_tracking|]; reflexivity.
Qed.

Lemma handle_command_added chat command args w :
  tracking (snd (handle_command env chat command args w)) = tracking w \/
  exists tn rest,
    lower command = "/track" /\ args = tn :: rest /\
    is_valid_tracking_number tn = true /\
    ~ In tn (List.map tracking_number (tracking w)) /\
    tracking (snd (handle_command env chat command args w))
    = tracking w ++ [new_row chat tn (clock env (clock_reads w))].
Proof.
  remember (handle_command env chat command args w) as res eqn:Hres.
  unfold handle_command in Hres. cbv zeta in Hres.
  destruct (String.eqb (lower command) "/help");
    [left; subst res; apply reply_tracking|].
  destruct (String.eqb_spec (lower command) "/track") as [Htrack|_].
  - destruct args as [|arg0 args]; [left; subst res; apply reply_tracking|].
    subst res.
    destruct (handle_track_command_added chat arg0 w) as [H | (Hvalid & Hnew & H)];
      [left; exact H | right].
    exists arg0, args. repeat split; assumption.
  - destruct (String.eqb (lower command) "/status"); subst res;
      left; [apply handle_status_command_tracking | apply reply_tracking].
Qed.

Lemma valid_word_as_stored tn :
  has_whitespace tn = false -> is_valid_tracking_number tn = true ->
  format_tracking_number tn = tn /\ String.length tn = 13%nat.
Proof.
  intros Hclean Hvalid. unfold is_valid_tracking_number in Hvalid.
  unfold format_tracking_number.
  rewrite (no_whitespace_no_space tn Hclean) in Hvalid |- *.
  split; [reflexivity | apply format_checks_length, Hvalid].
Qed.

(** X16: what one Telegram message can add to the table. The dispatch of an
    update leaves every row as it is and appends at most one row, and only
    for a text whose first word is [/track] in any case of letters. The
    number of that row is the second word of the text, stored as it was
    typed: it passed the validator, holds no whitespace, so that
    [format_tracking_number] leaves it as it is, and has thirteen characters;
    it was not in the table. The recipient of the row is the sender of the
    message, its status is [Order Placed] and its time is the clock reading
    taken by [handle_track_command]. *)
Theorem message_registers_canonical_number update w :
  tracking (snd (handle_update env update w)) = tracking w \/
  exists msg txt command tn rest,
    message update = Some msg /\ text msg = Some txt /\
    split txt = command :: tn :: rest /\ lower command = "/track" /\
    is_valid_tracking_number tn = true /\ has_whitespace tn = false /\
    format_tracking_number tn = tn /\ String.length tn = 13%nat /\
    ~ In tn (List.map tracking_number (tracking w)) /\
    tracking (snd (handle_update env update w))
    = tracking w ++ [new_row (pretty (chat msg)) tn (clock env (clock_reads w))].
Proof.
  remember (handle_update env update w) as res eqn:Hres.
  unfold handle_update in Hres.
  destruct (message update) as [msg|]; [|left; subst res; reflexivity].
  destruct (text msg) as [txt|] eqn:Htxt; [|left; subst res; reflexivity].
  unfold bind at 1, modify at 1 in Hres.
  set (w0 := set_offset (Some (update_id update + 1)) w) in Hres.
  destruct (starts_with_slash txt) eqn:Hslash;
    [|left; subst res; apply (reply_tracking _ _ w0)].
  destruct (split_from_words txt [] eq_refl) as [_ Hwords].
  fold (split txt) in Hwords.
  destruct (split txt) as [|command args] eqn:Hsplit;
    [exfalso; exact (command_unpacks txt Hslash Hsplit)|].
  unfold bind at 1, log at 1, modify at 1 in Hres.
  set (w1 := emit (Log INFO (ReceivedCommand command args)) w0) in Hres.
  subst res.
  destruct (handle_command_added (pretty (chat msg)) command args w1)
    as [H | (tn & rest & Htrack & -> & Hvalid & Hnew & H)];
    [left; exact H | right].
  assert (Hclean : has_whitespace tn = false).
  { inversion Hwords as [|? ? _ Hargs]; subst.
    inversion Hargs as [|? ? [_ Hc] _]. exact Hc. }
  destruct (valid_word_as_stored tn Hclean Hvalid) as [Hformat Hlength].
  exists msg, txt, command, tn, rest.
  repeat split; try assumption; try reflexivity.
Qed.

End Registration.
(** ** The scan of the table and the rounds of [run] *)

Section Rounds.

Context (env : Env).

(** One row of the scan changes at most the checkpoint of its own key, and
    then to the row's status and timestamp. *)
Lemma process_record_step row key w :
  last_status_check (snd (process_record env row w)) !! key
  = last_status_check w !! key
  \/ (key = checkpoint_key row /\
      last_status_check (snd (process_record env row w)) !! key
      = Some (checkpoint_of row)).
Proof.
  destruct (decide (key = checkpoint_key row)) as [-> | Hne];
    [|left; apply process_record_other_key; exact Hne].
  destruct (last_status_check w !! checkpoint_key row) as [cp|] eqn:Hcp.
  - rewrite (process_record_checkpointed env row cp w Hcp).
    destruct (status_changed row cp); [|left; exact Hcp].
    unfold try_except, notify_status_change, bind, format_status_message.
    destruct (strftime env (last_updated row)) as [time_str|];
      [|left; exact Hcp].
    unfold ret, send_message.
    match goal with
    | |- context [send_message_left env ?n ?c ?m w] =>
        destruct (send_message_left_spec env n c m w)
          as (answer & w1 & events & -> & _ & _ & (_ & _ & _ & Hlsc & _) & _)
    end.
    rewrite record_sent_eq. cbn [snd].
    destruct answer; cbn [last_status_check emit set_last_status_check].
    + right. split; [reflexivity | apply lookup_insert_eq].
    + left. rewrite Hlsc. exact Hcp.
  - right. split; [reflexivity|].
    rewrite (first_observation_baseline_eq env row w Hcp).
    cbn [snd last_status_check set_last_status_check]. apply lookup_insert_eq.
Qed.

Lemma process_record_leaves_checkpoint row w :
  is_Some (last_status_check (snd (process_record env row w)) !! checkpoint_key row).
Proof.
  destruct (process_record_step row (checkpoint_key row) w) as [H | [_ H]];
    [|rewrite H; eauto].
  destruct (last_status_check w !! checkpoint_key row) as [cp|] eqn:Hcp;
    [rewrite H; eauto|].
  rewrite (first_observation_baseline_eq env row w Hcp).
  cbn [snd last_status_check set_last_status_check].
  rewrite lookup_insert_eq. eauto.
Qed.

Lemma scan_step rows key : forall w,
  last_status_check (snd (for_each (process_record env) rows w)) !! key
  = last_status_check w !! key
  \/ exists row,
       In row rows /\ key = checkpoint_key row /\
       last_status_check (snd (for_each (process_record env) rows w)) !! key
       = Some (checkpoint_of row).
Proof.
  induction rows as [|row rows IH]; intros w; simpl; [left; reflexivity|].
  unfold bind.
  pose proof (process_record_step row key w) as Hrow.
  destruct (process_record_never_raises env row w) as [w1 E].
  rewrite E in Hrow |- *. cbn [snd] in Hrow.
  destruct (IH w1) as [Hrest | (row' & Hin & Hkey & Hrest)].
  - rewrite Hrest. destruct Hrow as [Hrow | [Hkey Hrow]]; [left; exact Hrow|].
    right. exists row. split; [left; reflexivity | split; assumption].
  - right. exists row'. split; [right; exact Hin | split; assumption].
Qed.

Lemma scan_keeps_checkpoints rows key : forall w,
  is_Some (last_status_check w !! key) ->
  is_Some (last_status_check (snd (for_each (process_record env) rows w)) !! key).
Proof.
  intros w Hsome.
  destruct (scan_step rows key w) as [H | (row & _ & _ & H)]; rewrite H; eauto.
Qed.

Lemma scan_leaves_checkpoints rows : forall w row,
  In row rows ->
  is_Some (last_status_check (snd (for_each (process_record env) rows w))
           !! checkpoint_key row).
Proof.
  induction rows as [|first rows IH]; intros w row Hin; [destruct Hin|].
  simpl. unfold bind.
  pose proof (process_record_leaves_checkpoint first w) as Hfirst.
  destruct (process_record_never_raises env first w) as [w1 E].
  rewrite E in Hfirst |- *. cbn [snd] in Hfirst.
  destruct Hin as [-> | Hin]; [|apply IH; exact Hin].
  apply scan_keeps_checkpoints. exact Hfirst.
Qed.

(** X17: a scan leaves no row without a checkpoint. When the table can be
    read, [check_status_updates] ends with a checkpoint under the key of
    every row of the table, and that checkpoint is the one the key had before
    the scan or the status and timestamp of a row of the table with that key.
    So from the first scan on, every row has a value to be compared with. *)
Theorem scan_gives_every_row_a_checkpoint w row :
  db_ok env (db_ops w) = true ->
  In row (tracking w) ->
  exists cp,
    last_status_check (snd (check_status_updates env w)) !! checkpoint_key row
    = Some cp /\
    (last_status_check w !! checkpoint_key row = Some cp
     \/ exists row',
          In row' (tracking w) /\ checkpoint_key row' = checkpoint_key row /\
          cp = checkpoint_of row').
Proof.
  intros Hdb Hin.
  unfold check_status_updates, bind at 1.
  rewrite get_all_tracking_eq, Hdb.
  set (w0 := set_tracking (tracking w) (next_db_op w)).
  set (rows := order_by_last_updated_desc (tracking w)).
  assert (Hrows : forall r, In r rows <-> In r (tracking w)).
  { intros r. split; intros H.
    - exact (Permutation_in _ (order_by_last_updated_desc_perm _) H).
    - exact (Permutation_in _ (Permutation_sym (order_by_last_updated_desc_perm _)) H). }
  destruct (scan_leaves_checkpoints rows w0 row (proj2 (Hrows row) Hin)) as [cp Hcp].
  exists cp. split; [exact Hcp|].
  destruct (scan_step rows (checkpoint_key row) w0) as [H | (row' & Hin' & Hkey & H)].
  - left. rewrite H in Hcp. exact Hcp.
  - right. exists row'. split; [apply Hrows, Hin'|].
    split; [symmetry; exact Hkey | congruence].
Qed.

Lemma scan_of_settled_rows rows w :
  Forall (settled w) rows ->
  for_each (process_record env) rows w = (Ok tt, w).
Proof.
  induction 1 as [|row rows (cp & Hcp & Hsame) _ IH]; simpl; [reflexivity|].
  unfold bind.
  rewrite (process_record_checkpointed env row cp w Hcp), Hsame. exact IH.
Qed.

(** X18: a scan is silent when nothing has changed. If every row of the
    table has a checkpoint and shows no change against it (the status is the
    checkpoint's, or the row is not newer than the checkpoint), then
    [check_status_updates] does nothing but read the table: no message is
    sent or even formatted and no checkpoint moves. *)
Theorem scan_without_changes_is_silent w :
  Forall (settled w) (tracking w) ->
  check_status_updates env w = (Ok tt, snd (get_all_tracking env w)).
Proof.
  intros Hsettled.
  unfold check_status_updates, bind at 1.
  rewrite get_all_tracking_eq.
  destruct (db_ok env (db_ops w)); [|reflexivity].
  cbn [snd]. apply scan_of_settled_rows.
  apply List.Forall_forall. intros row Hin.
  apply (Permutation_in _ (order_by_last_updated_desc_perm _)) in Hin.
  rewrite List.Forall_forall in Hsettled. exact (Hsettled row Hin).
Qed.

Lemma for_each_handle_update_locals updates : forall w,
  last_check (snd (for_each (handle_update env) updates w)) = last_check w /\
  last_status_check (snd (for_each (handle_update env) updates w))
  = last_status_check w.
Proof.
  induction updates as [|update rest IH]; intros w; simpl; [split; reflexivity|].
  unfold bind.
  destruct (handle_update_frame env update w) as [(Hc & Hs & _) _].
  destruct (handle_update env update w) as [[[]|e] w1]; cbn [snd] in *;
    [|split; assumption].
  destruct (IH w1) as [Hc' Hs']. split; congruence.
Qed.

Lemma handle_new_messages_locals w :
  last_check (snd (handle_new_messages env w)) = last_check w /\
  last_status_check (snd (handle_new_messages env w)) = last_status_check w.
Proof.
  remember (handle_new_messages env w) as res eqn:Hres.
  unfold handle_new_messages, bind at 1, gets at 1 in Hres.
  unfold bind at 1, get_updates in Hres.
  destruct (inbound env (polls w) _) as [updates|]; subst res;
    match goal with
    | |- context [for_each (handle_update env) ?l ?w0] =>
        destruct (for_each_handle_update_locals l w0) as [Hc Hs];
        rewrite Hc, Hs; split; reflexivity
    end.
Qed.

Lemma clean_up_old_entries_fresh w :
  exists w',
    clean_up_old_entries env w = (Ok tt, w') /\ fresh_checkpoints w'.
Proof.
  eexists. split; [reflexivity|].
  intros key cp H. cbn in H. apply sweep_lookup in H as [_ H]. exact H.
Qed.

Lemma check_cycle_fresh w :
  match check_cycle env w with
  | (Ok _, w') => fresh_checkpoints w'
  | (Raised _, w') =>
      last_check w' = last_check w /\ last_status_check w' = last_status_check w
  end.
Proof.
  unfold check_cycle, bind at 1.
  pose proof (handle_new_messages_locals w) as Hlocals.
  destruct (handle_new_messages env w) as [[[]|e] w1]; [|exact Hlocals].
  unfold bind at 1.
  destruct (check_status_updates_never_raises env w1) as [w2 ->].
  unfold bind at 1.
  destruct (clean_up_old_entries_fresh w2) as (w3 & -> & Hfresh).
  exact Hfresh.
Qed.

Lemma iteration_fresh w :
  fresh_checkpoints w ->
  exists w', iteration env w = (Ok tt, w') /\ fresh_checkpoints w'.
Proof.
  intros Hfresh.
  unfold iteration, try_except, bind at 1, time_time at 1.
  unfold bind at 1, gets at 1. cbn [last_check next_clock_read].
  destruct (CHECK_INTERVAL <=? clock env (clock_reads w) - last_check w).
  - unfold bind at 1.
    pose proof (check_cycle_fresh (next_clock_read w)) as Hcycle.
    destruct (check_cycle env (next_clock_read w)) as [[[]|e] w1].
    + eexists. split; [reflexivity | exact Hcycle].
    + eexists. split; [reflexivity|].
      destruct Hcycle as [Hc Hs]. intros key cp H. cbn in H.
      rewrite Hs in H. cbn. rewrite Hc. exact (Hfresh key cp H).
  - eexists. split; [reflexivity | exact Hfresh].
Qed.

Lemma iterations_fresh n : forall w,
  fresh_checkpoints w ->
  exists w', iterations env n w = (Ok tt, w') /\ fresh_checkpoints w'.
Proof.
  induction n as [|n IH]; intros w Hfresh; simpl.
  - eexists. split; [reflexivity | exact Hfresh].
  - unfold bind. destruct (iteration_fresh w Hfresh) as (w1 & -> & Hfresh1).
    apply IH. exact Hfresh1.
Qed.

(** X19: the loop of [run] never stops on an exception, and it keeps its
    memory of checkpoints bounded in age. After any number of rounds, from
    any state of the process, [run] has not raised, and every checkpoint it
    holds was younger than a day at [last_check], the time of the last
    completed cycle: neither the rounds that do no work nor the rounds ended
    by an exception let an older checkpoint in. *)
Theorem run_keeps_checkpoints_fresh n w :
  exists w', run env n w = (Ok tt, w') /\ fresh_checkpoints w'.
Proof.
  unfold run, bind, modify, log.
  apply iterations_fresh.
  intros key cp H. cbn in H. rewrite lookup_empty in H. discriminate.
Qed.

End Rounds.

Lemma scan_gives_every_row_a_checkpoint_witness :
  exists cp,
    last_status_check
      (snd (check_status_updates (healthy_env (readings [100]) [])
              (initial_world [delivered_row])))
    !! checkpoint_key delivered_row = Some cp /\
    (last_status_check (initial_world [delivered_row]) !! checkpoint_key delivered_row
     = Some cp
     \/ exists row',
          In row' (tracking (initial_world [delivered_row])) /\
          checkpoint_key row' = checkpoint_key delivered_row /\
          cp = checkpoint_of row').
Proof.
  apply (scan_gives_every_row_a_checkpoint (healthy_env (readings [100]) [])
           (initial_world [delivered_row]) delivered_row).
  - reflexivity.
  - left. reflexivity.
Defined.

Lemma scan_without_changes_is_silent_witness :
  check_status_updates (healthy_env (readings [100]) []) settled_world
  = (Ok tt, snd (get_all_tracking (healthy_env (readings [100]) []) settled_world)).
Proof.
  apply (scan_without_changes_is_silent (healthy_env (readings [100]) []) settled_world).
  constructor; [|constructor].
  exists delivered_checkpoint. split; [|reflexivity].
  apply lookup_singleton_eq.
Defined.
(** ** The admin panel *)

Section AdminPanel.

Import App.

Lemma send_attempts_spec delivers chat message retry_count :
  forall left first,
    (first + left = retry_count)%nat ->
    fst (send_attempts delivers chat message retry_count (seq first left))
    = existsb delivers (seq first left) /\
    posts_of (snd (send_attempts delivers chat message retry_count (seq first left)))
    = match List.find delivers (seq first left) with
      | Some i => (S i - first)%nat
      | None => left
      end /\
    pauses_of (snd (send_attempts delivers chat message retry_count (seq first left)))
    = Z.of_nat
        (posts_of (snd (send_attempts delivers chat message retry_count
                          (seq first left)))) - (if (left =? 0)%nat then 0 else 1).
Proof.
  induction left as [|left IH]; intros first Hsum; [repeat split|].
  cbn [seq send_attempts existsb List.find].
  destruct (delivers first) eqn:Hd.
  - cbn. split; [reflexivity|]. split; [lia | reflexivity].
  - destruct (Nat.eqb_spec first (retry_count - 1)) as [Hlast | Hmore].
    + assert (left = 0%nat) by lia. subst left. cbn. repeat split.
    + destruct left as [|left]; [lia|].
      specialize (IH (S first) ltac:(lia)).
      destruct (send_attempts delivers chat message retry_count (seq (S first) (S left)))
        as [answer later].
      cbn [fst snd] in IH. destruct IH as (Hanswer & Hposts & Hpauses).
      cbn [fst snd orb]. split; [exact Hanswer|].
      change (posts_of ([Posted chat message false;
                         LoggedRetrying (first + 1) retry_count; Slept 1] ++ later))
        with (S (posts_of later)).
      change (pauses_of ([Posted chat message false;
                          LoggedRetrying (first + 1) retry_count; Slept 1] ++ later))
        with (1 + pauses_of later).
      rewrite Hpauses, Hposts. cbn [Nat.eqb].
      split; [|lia].
      destruct (List.find delivers (seq (S first) (S left))) as [i|] eqn:Hfind;
        [|reflexivity].
      apply find_some in Hfind as [Hin _]. apply in_seq in Hin. lia.
Qed.

(** X20: [send_telegram_message] of the admin panel. It answers [True]
    exactly when one of the first [retry_count] requests goes through. It
    stops at the first request that does: it makes one request more than the
    number of failures before it, or [retry_count] requests when all fail. It
    pauses one second between two requests and not after the last one; with
    [retry_count = 0] it does nothing and answers [False]. *)
Theorem app_send_telegram_message_attempts delivers chat message retry_count :
  fst (send_telegram_message delivers chat message retry_count)
  = existsb delivers (seq 0 retry_count) /\
  posts_of (snd (send_telegram_message delivers chat message retry_count))
  = match List.find delivers (seq 0 retry_count) with
    | Some i => S i
    | None => retry_count
    end /\
  (posts_of (snd (send_telegram_message delivers chat message retry_count))
   <= retry_count)%nat /\
  pauses_of (snd (send_telegram_message delivers chat message retry_count))
  = Z.of_nat (posts_of (snd (send_telegram_message delivers chat message retry_count)))
    - (if (retry_count =? 0)%nat then 0 else 1).
Proof.
  unfold send_telegram_message.
  destruct (send_attempts_spec delivers chat message retry_count retry_count 0%nat
              eq_refl) as (Hanswer & Hposts & Hpauses).
  split; [exact Hanswer|]. split; [|split; [|exact Hpauses]].
  - rewrite Hposts. destruct (List.find delivers (seq 0 retry_count)); lia.
  - rewrite Hposts.
    destruct (List.find delivers (seq 0 retry_count)) as [i|] eqn:Hfind; [|lia].
    apply find_some in Hfind as [Hin _]. apply in_seq in Hin. lia.
Qed.

(** X21: the retry decorator [db_operation]. The wrapper calls the function
    at most three times and always ends as one of these calls ended (it never
    falls out of its loop). It ends as the first call that did not raise
    [sqlite3.OperationalError], an exception of another kind included, and
    raises [OperationalError] itself only when all three calls did. It pauses
    one second after each failed call but the third. *)
Theorem db_operation_ends_as_first_settled_call {A} (calls : nat -> Outcome A) :
  exists effects,
    db_operation calls
    = (Some (match List.find (fun i => settles (calls i)) (seq 0 MAX_RETRIES) with
             | Some i => calls i
             | None => OperationalError
             end), effects) /\
    pauses_of effects
    = match List.find (fun i => settles (calls i)) (seq 0 MAX_RETRIES) with
      | Some i => Z.of_nat i
      | None => 2
      end.
Proof.
  unfold db_operation, MAX_RETRIES. cbn [seq db_attempts List.find].
  destruct (calls 0%nat) eqn:E0; cbn [settles];
    try (eexists; split; [rewrite ?E0; reflexivity | reflexivity]).
  destruct (calls 1%nat) eqn:E1; cbn [settles Nat.eqb MAX_RETRIES Nat.sub];
    try (eexists; split; [rewrite ?E1; reflexivity | reflexivity]).
  destruct (calls 2%nat) eqn:E2; cbn [settles Nat.eqb];
    eexists; (split; [rewrite ?E2; reflexivity | reflexivity]).
Qed.

Lemma render_items_In strftime rows : forall items row,
  render_items strftime rows = Some items ->
  In row rows ->
  exists item,
    In item items /\
    shows item (tracking_number row) (status row) (status_details row).
Proof.
  induction rows as [|first rows IH]; intros items row Hrender Hin; [destruct Hin|].
  cbn [render_items] in Hrender.
  destruct (strftime (last_updated first)) as [time_str|]; [|discriminate].
  destruct (render_items strftime rows) as [rest|]; [|discriminate].
  injection Hrender as <-.
  destruct Hin as [-> | Hin].
  - eexists. split; [left; reflexivity | repeat split].
  - destruct (IH rest row eq_refl Hin) as (item & Hitem & Hshows).
    exists item. split; [right; exact Hitem | exact Hshows].
Qed.

Lemma update_rows_shows tn new_status details now table row :
  select_by_number tn table = Some row ->
  exists row',
    In row' (update_rows tn new_status details now table) /\
    tracking_number row' = tn /\ status row' = new_status /\
    status_details row' = details /\ last_updated row' = now.
Proof.
  intros Hsel. apply find_some in Hsel as [Hin Heq].
  exists {| tracking_number := tracking_number row; chat_id := chat_id row;
            status := new_status; status_details := details; last_updated := now |}.
  split; [|apply String.eqb_eq in Heq; repeat split; exact Heq].
  unfold update_rows. apply in_map_iff. exists row.
  rewrite Heq. split; [reflexivity | exact Hin].
Qed.

(** X22: the admin panel reads its own writes. After [update_tracking] has
    answered that the status was updated, the next [get_tracking] does not
    answer from the cache, however soon it comes: it answers status 500, or
    the list rendered from the table as it is now, in which the number shows
    the new status and details. The cache then holds that list. *)
Theorem get_tracking_after_update_is_current
    strftime db_ok tn new_status details current_time now later s s' :
  App.update_tracking true tn new_status details current_time s = (StatusUpdated, s') ->
  (fst (get_tracking strftime db_ok now later s') = Error 500 /\
   snd (get_tracking strftime db_ok now later s') = s')
  \/ exists items item,
       get_tracking strftime db_ok now later s'
       = (TrackingItems items,
          {| cache := update (Some items) None later (cache s'); table := table s' |}) /\
       render_items strftime (order_by_last_updated_desc (table s')) = Some items /\
       In item items /\ shows item tn new_status details.
Proof.
  unfold App.update_tracking.
  destruct (String.eqb tn "" || String.eqb new_status ""); [discriminate|].
  destruct (negb (is_valid_tracking_number tn)); [discriminate|].
  destruct (negb (validate_status new_status)); [discriminate|].
  cbn [negb].
  destruct (select_by_number tn (table s)) as [row|] eqn:Hsel; [|discriminate].
  intros [= <-]. unfold get_tracking. cbn [cache table clear tracking_data].
  rewrite andb_false_r.
  destruct db_ok; cbn [negb]; [|left; split; reflexivity].
  destruct (render_items strftime _) as [items|] eqn:Hrender;
    [right | left; split; reflexivity].
  destruct (update_rows_shows tn new_status details current_time (table s) row Hsel)
    as (row' & Hin & Htn & Hst & Hdet & _).
  apply (Permutation_in _ (Permutation_sym (order_by_last_updated_desc_perm _))) in Hin.
  destruct (render_items_In strftime _ items row' Hrender Hin) as (item & Hitem & Hshows).
  exists items, item. split; [reflexivity|]. split; [reflexivity|].
  split; [exact Hitem|]. rewrite Htn, Hst, Hdet in Hshows. exact Hshows.
Qed.

(** X23: how long an answer of [get_tracking] can be served. The cache has
    one time stamp for its two lists. A non-empty answer of [get_tracking]
    stays in the cache; when [get_tracking_numbers] then reads the database,
    its own list being empty, however long after, the time stamp is renewed
    for both lists. So in the sixty seconds that follow, [get_tracking]
    serves the old list again, whatever the bot has done to the table in
    between. *)
Theorem cached_items_outlive_a_numbers_refresh
    strftime db_ok now later now1 later1 now2 later2 table1 table2 items s s1 :
  duration (cache s) = 60 ->
  get_tracking strftime db_ok now later s = (TrackingItems items, s1) ->
  items <> [] ->
  tracking_numbers (cache s1) = [] ->
  now2 - later1 < 60 ->
  get_tracking strftime db_ok now2 later2
    (with_table table2
       (snd (get_tracking_numbers true now1 later1 (with_table table1 s1))))
  = (TrackingItems items,
     with_table table2
       (snd (get_tracking_numbers true now1 later1 (with_table table1 s1)))).
Proof.
  intros Hduration Hfirst Hitems Hnumbers Hsoon.
  assert (Hdata : tracking_data (cache s1) = items /\ duration (cache s1) = 60).
  { revert Hfirst. unfold get_tracking.
    destruct (is_fresh now (cache s) && _).
    - intros [= <- <-]. split; [reflexivity | exact Hduration].
    - destruct (negb db_ok); [discriminate|].
      destruct (render_items strftime _); [|discriminate].
      intros [= <- <-]. split; [reflexivity | exact Hduration]. }
  destruct Hdata as [Hdata Hduration1].
  set (s2 := snd (get_tracking_numbers true now1 later1 (with_table table1 s1))).
  assert (Hs2 : tracking_data (cache s2) = items /\ is_fresh now2 (cache s2) = true).
  { subst s2. unfold get_tracking_numbers. cbn [with_table cache table].
    rewrite Hnumbers. cbn [List.length Nat.eqb negb]. rewrite andb_false_r.
    cbn [negb snd cache update tracking_data].
    split; [exact Hdata|].
    unfold is_fresh. cbn [update last_update duration]. rewrite Hduration1.
    apply Z.ltb_lt. exact Hsoon. }
  destruct Hs2 as [Hdata2 Hfresh2].
  unfold get_tracking. cbn [with_table cache table].
  rewrite Hfresh2, Hdata2.
  destruct items as [|item items]; [contradiction|]. reflexivity.
Qed.

Lemma insert_by_number_perm tn sorted :
  Permutation (insert_by_number tn sorted) (tn :: sorted).
Proof.
  induction sorted as [|x rest IH]; simpl; [reflexivity|].
  destruct (String.leb tn x); [reflexivity|].
  rewrite IH. apply perm_swap.
Qed.

Lemma insert_by_number_sorted tn sorted :
  Sorted in_order sorted -> Sorted in_order (insert_by_number tn sorted).
Proof.
  induction 1 as [|x rest Hsorted IH Hx]; simpl; [repeat constructor|].
  destruct (String.leb tn x) eqn:Hle.
  - constructor; [constructor; assumption | constructor; exact Hle].
  - constructor; [exact IH|].
    assert (Hxt : in_order x tn).
    { destruct (String.leb_total tn x) as [H | H]; [congruence | exact H]. }
    destruct rest as [|y rest]; simpl; [constructor; exact Hxt|].
    destruct (String.leb tn y); constructor; [exact Hxt|].
    inversion Hx. assumption.
Qed.

Lemma order_by_tracking_number_spec numbers :
  Sorted in_order (order_by_tracking_number numbers) /\
  Permutation (order_by_tracking_number numbers) numbers.
Proof.
  induction numbers as [|tn numbers [Hsorted Hperm]]; simpl;
    [split; constructor|].
  split; [apply insert_by_number_sorted, Hsorted|].
  rewrite insert_by_number_perm, Hperm. reflexivity.
Qed.

(** X24: what [get_tracking_numbers] answers. Either the cache is fresh and
    holds a non-empty list of numbers, which is the answer, and nothing
    changes; or the database is read: then the answer holds the number of
    every row of the table once, in ascending order, and the cache keeps it
    with the time of the read; or the database cannot be read and the answer
    is status 500, with the cache as it was. *)
Theorem get_tracking_numbers_answers db_ok now later s :
  (is_fresh now (cache s) = true /\ tracking_numbers (cache s) <> [] /\
   get_tracking_numbers db_ok now later s
   = (TrackingNumbers (tracking_numbers (cache s)), s))
  \/ (db_ok = false /\ get_tracking_numbers db_ok now later s = (Error 500, s))
  \/ (db_ok = true /\
      exists numbers,
        Sorted in_order numbers /\
        Permutation numbers (List.map tracking_number (table s)) /\
        get_tracking_numbers db_ok now later s
        = (TrackingNumbers numbers,
           {| cache := {| duration := duration (cache s);
                          tracking_data := tracking_data (cache s);
                          tracking_numbers := numbers;
                          last_update := later |};
              table := table s |})).
Proof.
  unfold get_tracking_numbers.
  destruct (is_fresh now (cache s)) eqn:Hfresh; cbn [andb].
  - destruct (tracking_numbers (cache s)) as [|tn numbers] eqn:Hcached;
      cbn [List.length Nat.eqb negb].
    + destruct db_ok; cbn [negb]; [right; right | right; left; split; reflexivity].
      split; [reflexivity|]. eexists.
      split; [apply order_by_tracking_number_spec|].
      split; [apply order_by_tracking_number_spec | reflexivity].
    + left. split; [reflexivity|]. split; [discriminate | reflexivity].
  - destruct db_ok; cbn [negb]; [right; right | right; left; split; reflexivity].
    split; [reflexivity|]. eexists.
    split; [apply order_by_tracking_number_spec|].
    split; [apply order_by_tracking_number_spec | reflexivity].
Qed.

(** X25: a number typed with spaces is never found. The validation of the
    route [update_tracking] removes the spaces before it looks at the format,
    but the row is looked up under the number as typed. So when the table
    holds its numbers without spaces, which is how the bot stores them, a
    request whose number holds a space changes nothing: it is answered with
    an error status, and with 404 when the number and the status are
    otherwise accepted and the database works. *)
Theorem spaced_number_is_never_found db_ok tn new_status details current_time s :
  Forall stored_without_space (table s) ->
  remove_spaces tn <> tn ->
  exists code,
    App.update_tracking db_ok tn new_status details current_time s = (Error code, s) /\
    (is_valid_tracking_number tn = true -> validate_status new_status = true ->
     db_ok = true -> code = 404).
Proof.
  intros Hstored Hspace. unfold App.update_tracking.
  destruct (String.eqb_spec tn "") as [-> | _]; [exfalso; apply Hspace; reflexivity|].
  destruct (String.eqb_spec new_status "") as [-> | _]; cbn [orb];
    [eexists; split; [reflexivity | discriminate]|].
  destruct (is_valid_tracking_number tn); cbn [negb];
    [|eexists; split; [reflexivity | discriminate]].
  destruct (validate_status new_status); cbn [negb];
    [|eexists; split; [reflexivity | discriminate]].
  destruct db_ok; cbn [negb]; [|eexists; split; [reflexivity | discriminate]].
  destruct (select_by_number tn (table s)) as [row|] eqn:Hsel;
    [|eexists; split; reflexivity].
  exfalso. apply find_some in Hsel as [Hin Heq]. apply String.eqb_eq in Heq.
  rewrite List.Forall_forall in Hstored. specialize (Hstored row Hin).
  unfold stored_without_space in Hstored. rewrite Heq in Hstored.
  exact (Hspace Hstored).
Qed.

Lemma get_tracking_after_update_is_current_witness :
  (fst (get_tracking sample_strftime true 86491 86491
          (snd (App.update_tracking true sample_number "Returned"
                  "Your package has been returned to sender." 86490 sample_state)))
   = Error 500 /\
   snd (get_tracking sample_strftime true 86491 86491
          (snd (App.update_tracking true sample_number "Returned"
                  "Your package has been returned to sender." 86490 sample_state)))
   = snd (App.update_tracking true sample_number "Returned"
            "Your package has been returned to sender." 86490 sample_state))
  \/ exists items item,
       get_tracking sample_strftime true 86491 86491
         (snd (App.update_tracking true sample_number "Returned"
                 "Your package has been returned to sender." 86490 sample_state))
       = (TrackingItems items,
          {| cache :=
               update (Some items) None 86491
                 (cache (snd (App.update_tracking true sample_number "Returned"
                                "Your package has been returned to sender." 86490
                                sample_state)));
             table :=
               table (snd (App.update_tracking true sample_number "Returned"
                             "Your package has been returned to sender." 86490
                             sample_state)) |}) /\
       render_items sample_strftime
         (order_by_last_updated_desc
            (table (snd (App.update_tracking true sample_number "Returned"
                           "Your package has been returned to sender." 86490
                           sample_state))))
       = Some items /\
       In item items /\
       shows item sample_number "Returned" "Your package has been returned to sender.".
Proof.
  apply (get_tracking_after_update_is_current sample_strftime true sample_number
           "Returned" "Your package has been returned to sender." 86490 86491 86491
           sample_state).
  reflexivity.
Defined.

Lemma spaced_number_is_never_found_witness :
  exists code,
    App.update_tracking true "EU 430410927 IN" "Returned"
      "Your package has been returned to sender." 86490 sample_state
    = (Error code, sample_state) /\
    (is_valid_tracking_number "EU 430410927 IN" = true ->
     validate_status "Returned" = true -> true = true -> code = 404).
Proof.
  apply (spaced_number_is_never_found true "EU 430410927 IN" "Returned"
           "Your package has been returned to sender." 86490 sample_state).
  - constructor; [reflexivity | constructor].
  - discriminate.
Defined.

Lemma cached_items_outlive_a_numbers_refresh_witness :
  get_tracking sample_strftime true 159 159
    (with_table []
       (snd (get_tracking_numbers true 100 100
               (with_table [delivered_row]
                  (snd (get_tracking sample_strftime true 50 50 sample_state))))))
  = (TrackingItems
       [{| item_tracking_number := sample_number; item_status := "Delivered";
           item_status_details := "Your package has been successfully delivered.";
           item_last_updated := pretty 86490 |}],
     with_table []
       (snd (get_tracking_numbers true 100 100
               (with_table [delivered_row]
                  (snd (get_tracking sample_strftime true 50 50 sample_state)))))).
Proof.
  apply (cached_items_outlive_a_numbers_refresh sample_strftime true 50 50 100 100
           159 159 [delivered_row] [] _ sample_state).
  - reflexivity.
  - vm_compute. reflexivity.
  - discriminate.
  - reflexivity.
  - reflexivity.
Defined.

End AdminPanel.
(** ** A failed notification and the next cycle *)

Section NextCycle.

Context (env : Env).







End NextCycle.


(** The two rounds of the witness as they run: four failed requests in the
    first, the entry kept by the sweep, and in the second the update
    delivered and the checkpoint moved. *)
Example failed_notification_is_made_again :
  let env :=
    flaky_env 4 (readings [86480; 86481; 86482; 86483; 86484; 86485;
                           86496; 86497; 86498]) in
  let w2 := snd (iteration env checkpointed_world) in
  let w3 := snd (iteration env w2) in
  attempts (events_since checkpointed_world w2) = 4%nat /\
  deliveries (events_since checkpointed_world w2) = 0%nat /\
  last_status_check w2 !! checkpoint_key delivered_row = Some placed_checkpoint /\
  List.map block_status
    (flat_map (fun m => match m with STATUS_UPDATE b => [b] | _ => [] end)
       (posted_to "7" (events_since w2 w3)))
  = ["Delivered"] /\
  deliveries (events_since w2 w3) = 1%nat /\
  last_status_check w3 !! checkpoint_key delivered_row
  = Some (checkpoint_of delivered_row).
Proof.
  vm_compute. repeat split.
Qed.


